(** * Caring Caribou, UDS module: the ISO 14229-1 client and its scanners

    A shallow embedding of [tool/lib/iso14229_1.py] and of the scanners of
    [tool/modules/uds.py].  Python integers are unbounded, so they are [Z];
    a message is a [list Z] of byte values; [None] is [option]'s [None].
    Time stamps and durations are integers counted in milliseconds.  What
    the scanners print for the user is left out, except the banners of
    [make_did_range]; so is the handling of [KeyboardInterrupt]. *)

From stdpp Require Import base numbers option list gmap strings.

Local Open Scope Z_scope.

(** ** Python built-ins used by the sources *)

(** [range(start, stop)] *)
Definition range (start stop : Z) : list Z :=
  (λ i : nat, start + Z.of_nat i) <$> seq 0 (Z.to_nat (stop - start)).

(** [range(start, stop, step)]; Python raises for [step = 0], which no
    caller in these sources passes. *)
Definition range_step (start stop step : Z) : list Z :=
  let count :=
    if 0 <? step then (stop - start + step - 1) `div` step
    else if step <? 0 then (start - stop - step - 1) `div` (- step)
    else 0 in
  (λ i : nat, start + Z.of_nat i * step) <$> seq 0 (Z.to_nat count).

(** [len(l)] *)
Definition len {A} (l : list A) : Z := Z.of_nat (length l).

(** ** iso14229_1.py: code tables *)

Module NegativeResponseCodes.
Definition POSITIVE_RESPONSE : Z := 0x00.
Definition GENERAL_REJECT : Z := 0x10.
Definition SERVICE_NOT_SUPPORTED : Z := 0x11.
Definition SUB_FUNCTION_NOT_SUPPORTED : Z := 0x12.
Definition INCORRECT_MESSAGE_LENGTH_OR_INVALID_FORMAT : Z := 0x13.
Definition REQUEST_OUT_OF_RANGE : Z := 0x31.
Definition SECURITY_ACCESS_DENIED : Z := 0x33.
Definition REQUEST_CORRECTLY_RECEIVED_RESPONSE_PENDING : Z := 0x78.
End NegativeResponseCodes.

Module ServiceID.
Definition DIAGNOSTIC_SESSION_CONTROL : Z := 0x10.
Definition ECU_RESET : Z := 0x11.
Definition READ_DATA_BY_IDENTIFIER : Z := 0x22.
Definition SECURITY_ACCESS : Z := 0x27.
Definition ROUTINE_CONTROL : Z := 0x31.
Definition TESTER_PRESENT : Z := 0x3E.
End ServiceID.

Module Constants.
  (** Negative Response Service Identifier *)
Definition NR_SI : Z := 0x7F.
End Constants.

Module Services.

Module DiagnosticSessionControl.
Definition service_id : Z := ServiceID.DIAGNOSTIC_SESSION_CONTROL.
Definition valid_responses : list Z := [0x7F; 0x50].

Module DiagnosticSessionType.
Definition DEFAULT_SESSION : Z := 0x01.
Definition PROGRAMMING_SESSION : Z := 0x02.
Definition EXTENDED_DIAGNOSTIC_SESSION : Z := 0x03.
Definition SAFETY_SYSTEM_DIAGNOSTIC_SESSION : Z := 0x04.
Definition ISO_SAE_RESERVED_MIN : Z := 0x05.
Definition ISO_SAE_RESERVED_MAX : Z := 0x3F.
Definition VEHICLE_MANUFACTURER_SESSION_MIN : Z := 0x40.
Definition VEHICLE_MANUFACTURER_SESSION_MAX : Z := 0x5F.
Definition SYSTEM_SUPPLIER_SESSION_MIN : Z := 0x60.
Definition SYSTEM_SUPPLIER_SESSION_MAX : Z := 0x7E.

      (** The source compares with [is]; on the small integers that
          [0x7f & sub_function] produces, CPython's [is] coincides with
          [==], which is what is modelled. *)
Definition is_valid_session (sub_function : Z) : bool :=
        let sub_function := Z.land 0x7f sub_function in
        if (sub_function =? DEFAULT_SESSION)
           || (sub_function =? PROGRAMMING_SESSION)
           || (sub_function =? EXTENDED_DIAGNOSTIC_SESSION)
           || (sub_function =? SAFETY_SYSTEM_DIAGNOSTIC_SESSION)
           || ((sub_function <=? VEHICLE_MANUFACTURER_SESSION_MAX)
               && (sub_function >=? VEHICLE_MANUFACTURER_SESSION_MIN))
           || ((sub_function <=? SYSTEM_SUPPLIER_SESSION_MAX)
               && (sub_function >=? SYSTEM_SUPPLIER_SESSION_MIN))
        then true
        else false.
End DiagnosticSessionType.
End DiagnosticSessionControl.

Module SecurityAccess.
Definition service_id : Z := ServiceID.SECURITY_ACCESS.
Definition valid_responses : list Z := [0x7f; 0x67].

Module RequestSeedOrSendKey.
Definition REQUEST_SEED_MIN : Z := 0x01.
Definition REQUEST_SEED_MAX : Z := 0x41.
Definition SEND_KEY_MIN : Z := 0x02.
Definition SEND_KEY_MAX : Z := 0x42.

Definition is_valid_request_seed_level (sub_function : Z) : bool :=
        let value := Z.land sub_function 0x7F in
        let valid_interval :=
          (REQUEST_SEED_MIN <=? value) && (value <=? REQUEST_SEED_MAX) in
        let is_odd := value `mod` 2 =? 1 in
        valid_interval && is_odd.

Definition is_valid_send_key_level (sub_function : Z) : bool :=
        let value := Z.land sub_function 0x7F in
        let valid_interval :=
          (SEND_KEY_MIN <=? value) && (value <=? SEND_KEY_MAX) in
        let is_even := value `mod` 2 =? 0 in
        valid_interval && is_even.

Definition get_send_key_for_request_seed (seed : Z) : Z := seed + 1.
End RequestSeedOrSendKey.
End SecurityAccess.

End Services.

(** [Iso14229_1.get_service_response_id] *)
Definition get_service_response_id (identifier : Z) : Z := identifier + 0x40.

(** ** The outside world: clock, CAN bus and ISO-TP transport

    [lib/iso15765_2.py] (class [IsoTp]), [lib/can_actions.py] and the
    python-can bus are not part of the verified sources.  They are taken as
    an arbitrary environment: a type [W] of world states with one transition
    function per operation the sources call. *)

(** A CAN frame as [tp.bus.recv] returns it. *)
Record CanMessage := { arbitration_id : Z; data : list Z }.

Record Env (W : Type) := {
  (** [time.clock()] *)
  time_clock : W → Z * W;
  (** [time.time()] *)
  time_time : W → Z * W;
  (** [IsoTp(arb_id_request, arb_id_response).__enter__()] *)
  isotp_enter : option Z → option Z → W → W;
  (** [IsoTp.__exit__] *)
  isotp_exit : W → W;
  (** [tp.set_filter_single_arbitration_id(arb_id)] *)
  env_set_filter : Z → W → W;
  (** [tp.clear_filters()] *)
  env_clear_filters : W → W;
  (** [tp.transmit(tp.get_frames_from_message(message), arb_id, None)] *)
  env_transmit : list Z → Z → W → W;
  (** [tp.bus.recv(timeout)] *)
  env_recv : Z → W → option CanMessage * W;
  (** [tp.send_request(message)] *)
  env_send_request : list Z → W → W;
  (** [tp.indication(wait_window)] *)
  env_indication : Z → W → option (list Z) * W;
  (** [auto_blacklist(tp.bus, duration, is_valid_response, print_results)] *)
  env_auto_blacklist : Z → W → gset Z * W
}.
Arguments time_clock {W}. Arguments time_time {W}.
Arguments isotp_enter {W}. Arguments isotp_exit {W}.
Arguments env_set_filter {W}. Arguments env_clear_filters {W}.
Arguments env_transmit {W}. Arguments env_recv {W}.
Arguments env_send_request {W}. Arguments env_indication {W}.
Arguments env_auto_blacklist {W}.

(** What the program did to the bus and the transport, in order.  Reading
    a clock is not recorded. *)
Inductive Event :=
| EvEnter (arb_id_request arb_id_response : option Z)
| EvExit
| EvSetFilter (arb_id : Z)
| EvClearFilters
| EvTransmit (message : list Z) (arb_id : Z)
| EvRecv (msg : option CanMessage)
| EvSendRequest (message : list Z)
| EvIndication (response : option (list Z))
| EvAutoBlacklist (duration : Z) (arb_ids : gset Z).

Record State (W : Type) := { world : W; trace : list Event }.
Arguments world {W}. Arguments trace {W}.

(** Exceptions the modelled code can raise. *)
Inductive PyExc :=
| ValueError (msg : string) (args : list Z)
| IndexError
| TypeError.

(** A run ends with a value, with an exception, or is cut off because the
    loop budget [fuel] of the model is spent ([OutOfFuel] is not a Python
    outcome). *)
Inductive Res (A : Type) :=
| Ok (a : A)
| Raise (e : PyExc)
| OutOfFuel.
Arguments Ok {A}. Arguments Raise {A}. Arguments OutOfFuel {A}.

Definition M (W A : Type) : Type := State W → Res A * State W.

Definition raise {W A} (e : PyExc) : M W A := λ st, (Raise e, st).
Definition out_of_fuel {W A} : M W A := λ st, (OutOfFuel, st).

Global Instance M_ret {W} : MRet (M W) := λ A a st, (Ok a, st).
Global Instance M_bind {W} : MBind (M W) := λ A B f m st,
  match m st with
  | (Ok a, st') => f a st'
  | (Raise e, st') => (Raise e, st')
  | (OutOfFuel, st') => (OutOfFuel, st')
  end.

(** An operation of the environment, recorded in the trace. *)
Definition perform {W A} (op : W → A * W) (ev : A → Event) : M W A := λ st,
  let '(a, w) := op (world st) in
  (Ok a, {| world := w; trace := trace st ++ [ev a] |}).

(** A clock reading. *)
Definition reading {W} (op : W → Z * W) : M W Z := λ st,
  let '(t, w) := op (world st) in (Ok t, {| world := w; trace := trace st |}).

(** [l[i]] for a constant index [i >= 0]. *)
Definition getitem {W} (l : list Z) (i : nat) : M W Z :=
  match l !! i with
  | Some x => mret x
  | None => raise IndexError
  end.

(** [for x in xs: acc = body(acc, x)] *)
Fixpoint for_each {W A B} (body : B → A → M W B) (xs : list A) (acc : B) : M W B :=
  match xs with
  | [] => mret acc
  | x :: xs' => acc' ← body acc x; for_each body xs' acc'
  end.

Section Program.
Context {W : Type} (env : Env W).

Definition clock : M W Z := reading (time_clock env).
Definition time : M W Z := reading (time_time env).

Definition set_filter_single_arbitration_id (arb_id : Z) : M W unit :=
    perform (λ w, ((), env_set_filter env arb_id w)) (λ _, EvSetFilter arb_id).
Definition clear_filters : M W unit :=
    perform (λ w, ((), env_clear_filters env w)) (λ _, EvClearFilters).
Definition transmit (message : list Z) (arb_id : Z) : M W unit :=
    perform (λ w, ((), env_transmit env message arb_id w))
            (λ _, EvTransmit message arb_id).
Definition recv (timeout : Z) : M W (option CanMessage) :=
    perform (env_recv env timeout) EvRecv.
Definition send_request (message : list Z) : M W unit :=
    perform (λ w, ((), env_send_request env message w))
            (λ _, EvSendRequest message).
Definition indication (wait_window : Z) : M W (option (list Z)) :=
    perform (env_indication env wait_window) EvIndication.
Definition auto_blacklist (duration : Z) : M W (gset Z) :=
    perform (env_auto_blacklist env duration) (EvAutoBlacklist duration).

  (** [with IsoTp(arb_id_request, arb_id_response) as tp: body]; the
      transport is released on every exit path of [body]. *)
Definition with_IsoTp {A} (arb_id_request arb_id_response : option Z)
      (body : M W A) : M W A := λ st,
    let entered :=
      {| world := isotp_enter env arb_id_request arb_id_response (world st);
         trace := trace st ++ [EvEnter arb_id_request arb_id_response] |} in
    match body entered with
    | (OutOfFuel, st') => (OutOfFuel, st')
    | (r, st') =>
        (r, {| world := isotp_exit env (world st'); trace := trace st' ++ [EvExit] |})
    end.

  (** *** iso14229_1.py: class Iso14229_1 *)

Definition P3_CLIENT : Z := 5000.

  (** The [while True] loop of [receive_response]. *)
Fixpoint receive_response_loop (fuel : nat) (wait_window start_time : Z)
      : M W (option (list Z)) :=
    match fuel with
    | O => out_of_fuel
    | S fuel =>
        current_time ← clock;
        if current_time - start_time >? wait_window then mret None
        else
          response ← indication wait_window;
          match response with
          | Some r =>
              if (len r >? 3)
                 && bool_decide (r !! 0%nat = Some Constants.NR_SI)
                 && bool_decide (r !! 2%nat = Some
                      NegativeResponseCodes.REQUEST_CORRECTLY_RECEIVED_RESPONSE_PENDING)
              then receive_response_loop fuel wait_window start_time
              else mret response
          | None => mret response
          end
    end.

Definition receive_response (fuel : nat) (wait_window : Z)
      : M W (option (list Z)) :=
    start_time ← clock;
    receive_response_loop fuel wait_window start_time.

Definition is_positive_response (response : option (list Z)) : bool :=
    match response with
    | Some r => (len r >? 0) && negb (bool_decide (r !! 0%nat = Some Constants.NR_SI))
    | None => false
    end.

  (** [self] is the client's wait window [self.P3_CLIENT]. *)
Definition read_data_by_identifier (fuel : nat) (self : Z) (identifier : list Z)
      : M W (option (list Z)) :=
    let response := Some [] in
    let num_dids := len identifier in
    if num_dids >? 0 then
      let request := replicate (Z.to_nat (num_dids * 2 + 1)) 0 in
      let request := <[0%nat := ServiceID.READ_DATA_BY_IDENTIFIER]> request in
      let request :=
        foldl (λ request i,
                 let did := default 0 (identifier !! Z.to_nat i) in
                 let request :=
                   <[Z.to_nat (i * 2 + 1) := Z.land (did ≫ 8) 0xFF]> request in
                 <[Z.to_nat (i * 2 + 2) := Z.land did 0xFF]> request)
              request (range 0 num_dids) in
      send_request request;;
      receive_response fuel self
    else mret response.

Definition diagnostic_session_control (fuel : nat) (self : Z) (session_type : Z)
      : M W (option (list Z)) :=
    let request := replicate 2 0 in
    let request := <[0%nat := ServiceID.DIAGNOSTIC_SESSION_CONTROL]> request in
    let request := <[1%nat := session_type]> request in
    send_request request;;
    receive_response fuel self.

  (** Modelled from the spec: [Iso14229_1.routine_control], which
      [scan_routine_control] calls, is missing from [lib/iso14229_1.py].
      The spec gives its request layout,
      [[0x31, subfn, rid_hi, rid_lo, optional_data...]] with big-endian
      fields; like every other service of the client it sends the request
      and returns [receive_response(self.P3_CLIENT)]. *)
Definition routine_control (fuel : nat) (self : Z)
      (sub_function routine_id : Z) (optional_data : list Z)
      : M W (option (list Z)) :=
    let request :=
      [ServiceID.ROUTINE_CONTROL; sub_function;
       Z.land (routine_id ≫ 8) 0xFF; Z.land routine_id 0xFF] ++ optional_data in
    send_request request;;
    receive_response fuel self.

End Program.

(** ** uds.py: scan ranges *)

(** The lines that [make_did_range] prints. *)
Inductive Printed :=
| ScanningOemRanges
    (* Scanning OEM ranges: 0x0100 - 0xa5ff, 0xa800 - 0xacff, 0xb000 - 0xb1ff,
       0xc200 - 0xc2ff, 0xcf00 - 0xefff *)
| ScanningSupplierRange
    (* Scanning system supplier range 0xf000 - 0xfeff *)
| ScanningSafetyRanges
    (* Scanning safety system ranges: 0xfa00 - 0xfa0f, 0xfa19 - 0xfaff *)
| ScanningCustomRange (min_id max_id : Z)
| ScanningDefaultRange.

(** The custom-range block shared by [make_did_range] and
    [scan_routine_control].  [min_id > max_id] is evaluated first: with
    exactly one bound missing Python 3 raises [TypeError] on it. *)
Definition custom_bounds (min_id max_id : option Z) : PyExc + (Z * Z) :=
  match min_id, max_id with
  | Some lo, Some hi =>
      if lo >? hi then inl (ValueError "Can't have MIN > MAX" [])
      else
        let lo := if lo <? 0 then 0x0 else lo in
        let hi := if hi >? 0xffff then 0xffff else hi in
        inr (lo, hi)
  | _, _ => inl TypeError
  end.

(** [make_did_range]: what is printed, then the exception raised or the
    iterator returned (as the list of identifiers it yields). *)
Definition make_did_range (is_oem is_supplier is_safety : bool)
    (min_id max_id : option Z) : list Printed * (PyExc + list Z) :=
  let out := [] in
  let id_range := [] in
  let '(out, id_range) :=
    if is_oem then
      (out ++ [ScanningOemRanges],
       range 0x0100 (0xA5FF + 1) ++ range 0xA800 (0xACFF + 1)
         ++ range 0xB000 (0xB1FF + 1) ++ range 0xC200 (0xC2FF + 1)
         ++ range 0xCF00 (0xEFFF + 1))
    else (out, id_range) in
  let '(out, id_range) :=
    if is_supplier then
      (out ++ [ScanningSupplierRange], id_range ++ range 0xf000 (0xfeff + 1))
    else (out, id_range) in
  let '(out, id_range) :=
    if is_safety then
      (out ++ [ScanningSafetyRanges],
       id_range ++ range 0xf000 (0xfeff + 1) ++ range 0xfa19 (0xfaff + 1))
    else (out, id_range) in
  if bool_decide (min_id ≠ None) || bool_decide (max_id ≠ None) then
    match custom_bounds min_id max_id with
    | inl e => (out, inl e)
    | inr (lo, hi) =>
        (out ++ [ScanningCustomRange lo hi], inr (id_range ++ range lo (hi + 1)))
    end
  else if negb is_oem && negb is_supplier then
    (out ++ [ScanningDefaultRange], inr (range 0x0 (0xffff + 1)))
  else (out, inr id_range).

(** The range computed at the head of [scan_routine_control]. *)
Definition routine_id_range (is_oem is_supplier : bool)
    (min_id max_id : option Z) : PyExc + list Z :=
  let routine_id_range := [] in
  let routine_id_range :=
    if is_oem then range 0x0200 (0xdfff + 1) else routine_id_range in
  let routine_id_range :=
    if is_supplier then routine_id_range ++ range 0xf000 (0xfeff + 1)
    else routine_id_range in
  if bool_decide (min_id ≠ None) || bool_decide (max_id ≠ None) then
    match custom_bounds min_id max_id with
    | inl e => inl e
    | inr (lo, hi) => inr (routine_id_range ++ range lo (hi + 1))
    end
  else if negb is_oem && negb is_supplier then inr (range 0x0 (0xffff + 1))
  else inr routine_id_range.

(** ** uds.py: scanners *)

Definition VERIFICATION_BACKTRACK : Z := 5.
(** 0.5 s *)
Definition VERIFICATION_EXTRA_DELAY : Z := 500.

(** The local function [is_valid_response] of [uds_discovery]. *)
Definition is_valid_response (message : CanMessage) : bool :=
  (len (data message) >=? 2)
  && match data message !! 1%nat with
     | Some b => bool_decide (b ∈ Services.DiagnosticSessionControl.valid_responses)
     | None => false
     end.

Section Scanners.
Context {W : Type} (env : Env W).

(** Modelled from the spec: [lib/constants.py] is missing; the spec gives
    the default bounds 0x000, 0x7FF and 0x1FFF_FFFF.  The scanner is stated
    for arbitrary values of the three constants. *)
Variables ARBITRATION_ID_MIN ARBITRATION_ID_MAX ARBITRATION_ID_MAX_EXTENDED : Z.

(** *** scan_routine_control *)

(** One request, repeated once when nothing came back. *)
Definition probe_routine (fuel : nat) (uds : Z) (routine_id : Z)
    : M W (option (list Z)) :=
  response ← routine_control env fuel uds 0x0 routine_id [1; 1; 1; 1; 1; 1; 1; 1; 1; 1];
  match response with
  | None => routine_control env fuel uds 0x0 routine_id [1; 1; 1; 1; 1; 1; 1; 1; 1; 1]
  | Some _ => mret response
  end.

(** The classification of the reply; [response[2]] is read once where the
    source reads it again in each [elif]. *)
Definition record_routine (routine_id : Z) (response : option (list Z))
    (routine_map : list (Z * string)) : M W (list (Z * string)) :=
  if is_positive_response response then
    let r := default [] response in
    hi ← getitem r 2;
    lo ← getitem r 3;
    mret (routine_map ++ [(Z.lor (hi ≪ 8) lo, "?? Success ?? how")])
  else
    match response with
    | None => mret routine_map
    | Some r =>
        echoed ← getitem r 1;
        if echoed =? ServiceID.ROUTINE_CONTROL then
          nrc ← getitem r 2;
          if nrc =? NegativeResponseCodes.REQUEST_OUT_OF_RANGE then
            mret routine_map
          else if nrc =? NegativeResponseCodes.SUB_FUNCTION_NOT_SUPPORTED then
            mret (routine_map ++ [(routine_id, "SUPPORTED_NO_SECURITY")])
          else if nrc =? NegativeResponseCodes.SECURITY_ACCESS_DENIED then
            mret (routine_map ++ [(routine_id, "SUPPORTED_SECURITY_ACCESS_DENIED")])
          else mret routine_map
        else mret routine_map
    end.

(** The body of [for routine_id in routine_id_range]. *)
Definition scan_routine (fuel : nat) (uds : Z)
    (routine_map : list (Z * string)) (routine_id : Z)
    : M W (list (Z * string)) :=
  response ← probe_routine fuel uds routine_id;
  record_routine routine_id response routine_map.

Definition scan_routine_control (fuel : nat)
    (arb_id_request arb_id_response : Z) (timeout : option Z)
    (is_oem is_supplier : bool) (min_id max_id : option Z)
    : M W (list (Z * string)) :=
  let routine_map := [] in
  match routine_id_range is_oem is_supplier min_id max_id with
  | inl e => raise e
  | inr routine_id_range =>
      with_IsoTp env (Some arb_id_request) (Some arb_id_response) (
        set_filter_single_arbitration_id env arb_id_response;;
        let uds := match timeout with Some t => t | None => P3_CLIENT end in
        for_each (scan_routine fuel uds) routine_id_range routine_map)
  end.

(** *** uds_discovery *)

(** [while time.time() < verification_end_time], the wait for the reply to
    one re-sent probe: [true] when a valid reply came in. *)
Fixpoint verification_listen (fuel : nat) (verification_end_time : Z) : M W bool :=
  match fuel with
  | O => out_of_fuel
  | S fuel =>
      now ← time env;
      if now <? verification_end_time then
        verification_msg ← recv env 0;
        match verification_msg with
        | None => verification_listen fuel verification_end_time
        | Some m =>
            if is_valid_response m then mret true
            else verification_listen fuel verification_end_time
        end
      else mret false
  end.

(** [for verification_arbitration_id in verify_id_range]: the id that
    verified, which becomes [send_arbitration_id], or [None]. *)
Fixpoint verification_backtrack (fuel : nat) (session_control_data : list Z)
    (delay : Z) (verify_id_range : list Z) : M W (option Z) :=
  match verify_id_range with
  | [] => mret None
  | verification_arbitration_id :: rest =>
      transmit env session_control_data verification_arbitration_id;;
      now ← time env;
      verified ← verification_listen fuel (now + delay + VERIFICATION_EXTRA_DELAY);
      if (verified : bool) then mret (Some verification_arbitration_id)
      else verification_backtrack fuel session_control_data delay rest
  end.

(** The branch [if is_valid_response(msg)] of the listening loop: the new
    [send_arbitration_id] and the new [found_arbitration_ids]. *)
Definition on_valid_response (fuel : nat) (session_control_data : list Z)
    (delay : Z) (verify : bool) (send_arbitration_id : Z) (msg : CanMessage)
    (found_arbitration_ids : list (Z * Z)) : M W (Z * list (Z * Z)) :=
  if verify then
    set_filter_single_arbitration_id env (arbitration_id msg);;
    let verify_id_range :=
      range_step send_arbitration_id
                 (send_arbitration_id - VERIFICATION_BACKTRACK) (-1) in
    verified ← verification_backtrack fuel session_control_data delay verify_id_range;
    clear_filters env;;
    match verified with
    | None => mret (send_arbitration_id, found_arbitration_ids)
    | Some send_arbitration_id =>
        mret (send_arbitration_id,
              found_arbitration_ids ++ [(send_arbitration_id, arbitration_id msg)])
    end
  else
    mret (send_arbitration_id,
          found_arbitration_ids ++ [(send_arbitration_id, arbitration_id msg)]).

(** [while time.time() < end_time], the wait for replies to one probe. *)
Fixpoint discovery_listen (fuel : nat) (session_control_data : list Z)
    (delay : Z) (verify : bool) (blacklist : gset Z) (end_time : Z)
    (send_arbitration_id : Z) (found_arbitration_ids : list (Z * Z))
    : M W (Z * list (Z * Z)) :=
  match fuel with
  | O => out_of_fuel
  | S fuel =>
      now ← time env;
      if now <? end_time then
        msg ← recv env 0;
        match msg with
        | None =>
            discovery_listen fuel session_control_data delay verify blacklist
              end_time send_arbitration_id found_arbitration_ids
        | Some msg =>
            if bool_decide (arbitration_id msg ∈ blacklist) then
              discovery_listen fuel session_control_data delay verify blacklist
                end_time send_arbitration_id found_arbitration_ids
            else if is_valid_response msg then
              '(send_arbitration_id, found_arbitration_ids) ←
                on_valid_response fuel session_control_data delay verify
                  send_arbitration_id msg found_arbitration_ids;
              discovery_listen fuel session_control_data delay verify blacklist
                end_time send_arbitration_id found_arbitration_ids
            else
              discovery_listen fuel session_control_data delay verify blacklist
                end_time send_arbitration_id found_arbitration_ids
        end
      else mret (send_arbitration_id, found_arbitration_ids)
  end.

(** [while send_arbitration_id < max_id] *)
Fixpoint discovery_scan (fuel : nat) (session_control_data : list Z)
    (delay : Z) (verify : bool) (blacklist : gset Z) (max_id : Z)
    (send_arbitration_id : Z) (found_arbitration_ids : list (Z * Z))
    : M W (list (Z * Z)) :=
  match fuel with
  | O => out_of_fuel
  | S fuel =>
      if send_arbitration_id <? max_id then
        let send_arbitration_id := send_arbitration_id + 1 in
        transmit env session_control_data send_arbitration_id;;
        now ← time env;
        '(send_arbitration_id, found_arbitration_ids) ←
          discovery_listen fuel session_control_data delay verify blacklist
            (now + delay) send_arbitration_id found_arbitration_ids;
        discovery_scan fuel session_control_data delay verify blacklist max_id
          send_arbitration_id found_arbitration_ids
      else mret found_arbitration_ids
  end.

(** The bounds after the defaults are set. *)
Definition default_min_id (min_id : option Z) : Z :=
  match min_id with Some m => m | None => ARBITRATION_ID_MIN end.

Definition default_max_id (min_id max_id : option Z) : Z :=
  match max_id with
  | Some m => m
  | None =>
      if default_min_id min_id <=? ARBITRATION_ID_MAX then ARBITRATION_ID_MAX
      else ARBITRATION_ID_MAX_EXTENDED
  end.

Definition uds_discovery (fuel : nat) (min_id max_id : option Z)
    (blacklist_args : option (list Z)) (auto_blacklist_duration : option Z)
    (delay : Z) (verify : bool) : M W (list (Z * Z)) :=
  let max_id := default_max_id min_id max_id in
  let min_id := default_min_id min_id in
  let auto_blacklist_duration := default 0 auto_blacklist_duration in
  let blacklist_args := default [] blacklist_args in
  if max_id <? min_id then
    raise (ValueError "max_id must not be smaller than min_id" [min_id; max_id])
  else if auto_blacklist_duration <? 0 then
    raise (ValueError "auto_blacklist_duration must not be smaller than 0"
                      [auto_blacklist_duration])
  else
    let service_id := Services.DiagnosticSessionControl.service_id in
    let sub_function :=
      Services.DiagnosticSessionControl.DiagnosticSessionType.DEFAULT_SESSION in
    let session_control_data := [service_id; sub_function] in
    let found_arbitration_ids := [] in
    with_IsoTp env None None (
      let blacklist : gset Z := list_to_set blacklist_args in
      blacklist ←
        (if auto_blacklist_duration >? 0 then
           auto_blacklist_arb_ids ← auto_blacklist env auto_blacklist_duration;
           mret (blacklist ∪ auto_blacklist_arb_ids)
         else mret blacklist);
      let send_arbitration_id := min_id - 1 in
      discovery_scan fuel session_control_data delay verify blacklist max_id
        send_arbitration_id found_arbitration_ids).

End Scanners.

(** ** A scripted world for concrete runs

    A clock that advances by a fixed tick at every reading; ECUs that put
    frames on the bus some time after a probe of their request id; a server
    behind the transport that queues its replies to a request. *)

Record Mock := {
  mock_now : Z;
  mock_filter : option Z;
  (** frames on the bus, each with the time from which it can be received *)
  mock_bus : list (Z * CanMessage);
  (** reassembled messages waiting for [indication] *)
  mock_inbox : list (list Z)
}.

(** The first frame the bus hands out at time [now] through [accept]. *)
Fixpoint take_frame (now : Z) (accept : CanMessage → bool)
    (frames : list (Z * CanMessage)) : option CanMessage * list (Z * CanMessage) :=
  match frames with
  | [] => (None, [])
  | (due, f) :: rest =>
      if (due <=? now) && accept f then (Some f, rest)
      else let '(r, rest') := take_frame now accept rest in (r, (due, f) :: rest')
  end.

Definition mock_read (tick : Z) (w : Mock) : Z * Mock :=
  (mock_now w,
   {| mock_now := mock_now w + tick; mock_filter := mock_filter w;
      mock_bus := mock_bus w; mock_inbox := mock_inbox w |}).

Definition mock_with_filter (f : option Z) (w : Mock) : Mock :=
  {| mock_now := mock_now w; mock_filter := f;
     mock_bus := mock_bus w; mock_inbox := mock_inbox w |}.

(** [tick]: the time between two clock readings; [ecu arb_id]: the frames
    sent in reaction to a probe of [arb_id], each with its latency;
    [server request]: the replies to [request]. *)
Definition mock_env (tick : Z) (ecu : Z → list (Z * CanMessage))
    (server : list Z → list (list Z)) : Env Mock :=
  {| time_clock := mock_read tick;
     time_time := mock_read tick;
     isotp_enter := λ _ _ w, w;
     isotp_exit := mock_with_filter None;
     env_set_filter := λ arb_id, mock_with_filter (Some arb_id);
     env_clear_filters := mock_with_filter None;
     env_transmit := λ _ arb_id w,
       {| mock_now := mock_now w; mock_filter := mock_filter w;
          mock_bus := mock_bus w
                      ++ ((λ p : Z * CanMessage, (mock_now w + p.1, p.2)) <$> ecu arb_id);
          mock_inbox := mock_inbox w |};
     env_recv := λ _ w,
       let accept (f : CanMessage) :=
         match mock_filter w with
         | Some a => arbitration_id f =? a
         | None => true
         end in
       let '(r, bus) := take_frame (mock_now w) accept (mock_bus w) in
       (r, {| mock_now := mock_now w; mock_filter := mock_filter w;
              mock_bus := bus; mock_inbox := mock_inbox w |});
     env_send_request := λ request w,
       {| mock_now := mock_now w; mock_filter := mock_filter w;
          mock_bus := mock_bus w; mock_inbox := mock_inbox w ++ server request |};
     env_indication := λ _ w,
       match mock_inbox w with
       | [] => (None, w)
       | m :: rest =>
           (Some m,
            {| mock_now := mock_now w; mock_filter := mock_filter w;
               mock_bus := mock_bus w; mock_inbox := rest |})
       end;
     env_auto_blacklist := λ _ w, (∅, w) |}.

(** The world at the start of a run: time 0, nothing on the bus. *)
Definition mock_start : State Mock :=
  {| world := {| mock_now := 0; mock_filter := None;
                 mock_bus := []; mock_inbox := [] |};
     trace := [] |}.

(** A server that answers the request [0x10, 0x03] with a pending response
    and then with the positive response. *)
Definition pending_then_positive (request : list Z) : list (list Z) :=
  if bool_decide (request = [0x10; 0x03])
  then [[0x7F; 0x10; 0x78]; [0x50; 0x03; 0; 0; 0; 0]]
  else [].

(** A server for routine 0x0203 to 0x0205, as in the routine scan scenario:
    sub-function not supported, security access denied, out of range. *)
Definition routine_server (request : list Z) : list (list Z) :=
  match request with
  | 0x31 :: _ :: 0x02 :: 0x03 :: _ => [[0x7F; 0x31; 0x12]]
  | 0x31 :: _ :: 0x02 :: 0x04 :: _ => [[0x7F; 0x31; 0x33]]
  | 0x31 :: _ :: 0x02 :: 0x05 :: _ => [[0x7F; 0x31; 0x31]]
  | _ => []
  end.

(** A server that answers every routine control request with the reply
    [reply]. *)
Definition constant_server (reply : list Z) (request : list Z) : list (list Z) :=
  [reply].

(** No ECU on the bus. *)
Definition no_ecu (arb_id : Z) : list (Z * CanMessage) := [].

(** One ECU listening on [request_id] and answering a session control
    probe from [response_id] after [latency] milliseconds. *)
Definition one_ecu (request_id response_id latency : Z) (arb_id : Z)
    : list (Z * CanMessage) :=
  if arb_id =? request_id
  then [(latency, {| arbitration_id := response_id;
                     data := [0x06; 0x50; 0x01; 0x00; 0x32; 0x01; 0xF4] |})]
  else [].

(** ** Reasoning about runs *)

(** [wp m Q st]: from [st], the run of [m] raises no exception and, when it
    is not cut off, ends with a value and a state that satisfy [Q]. *)
Definition wp {W A} (m : M W A) (Q : A → State W → Prop) (st : State W) : Prop :=
  match m st with
  | (Ok a, st') => Q a st'
  | (Raise _, _) => False
  | (OutOfFuel, _) => True
  end.

(** [returns m Q st]: from [st], the run of [m] is not cut off and raises
    no exception, and ends with a value and a state that satisfy [Q]. *)
Definition returns {W A} (m : M W A) (Q : A → State W → Prop) (st : State W) : Prop :=
  match m st with
  | (Ok a, st') => Q a st'
  | (Raise _, _) => False
  | (OutOfFuel, _) => False
  end.

(** A clock that moves, with [now w] the time in the world [w]: a reading
    of [time.time()] is not before [now w] and leaves a world in which it is
    later than the reading by a millisecond at least; receiving from the bus
    does not set the time back. *)
Record advancing_clock {W} (env : Env W) (now : W → Z) : Prop := {
  time_advances :
    ∀ w, now w ≤ (time_time env w).1 ∧ (time_time env w).1 < now (time_time env w).2;
  recv_keeps_time : ∀ timeout w, now w ≤ now (env_recv env timeout w).2
}.

(** The arbitration ids probed in a stretch of the trace, in order. *)
Definition probed (evs : list Event) : list Z :=
  omap (λ ev, match ev with EvTransmit _ arb_id => Some arb_id | _ => None end) evs.

(** The valid-shape frames received in a stretch of the trace, in order. *)
Definition valid_replies (evs : list Event) : list CanMessage :=
  omap (λ ev, match ev with
              | EvRecv (Some m) => if is_valid_response m then Some m else None
              | _ => None
              end) evs.

(** The hits in a stretch of the trace: the valid-shape frames received
    from arbitration ids outside [blacklist]. *)
Definition hits (blacklist : gset Z) (evs : list Event) : list CanMessage :=
  filter (λ m, arbitration_id m ∉ blacklist) (valid_replies evs).

(** A stretch of the trace that ends with the first valid-shape frame
    received in it. *)
Definition ends_with_first_valid_reply (evs : list Event) : Prop :=
  ∃ evs0 m, evs = evs0 ++ [EvRecv (Some m)]
            ∧ is_valid_response m = true ∧ valid_replies evs0 = [].

(** The trace of [st'] continues the trace of [st]. *)
Definition extends {W} (st st' : State W) : Prop :=
  ∃ evs, trace st' = trace st ++ evs.

(** No response id of a recorded pair is in [blacklist]. *)
Definition responses_clear (blacklist : gset Z) (found : list (Z * Z)) : Prop :=
  Forall (λ p, p.2 ∉ blacklist) found.

(** * Further code of the two files *)

(** ** iso14229_1.py: further tables *)

(** Further members of class [ServiceID]. *)
Definition READ_MEMORY_BY_ADDRESS : Z := 0x23.
Definition READ_DATA_BY_PERIODIC_IDENTIFIER : Z := 0x2A.
Definition DYNAMICALLY_DEFINE_DATA_IDENTIFIER : Z := 0x2C.
Definition WRITE_DATA_BY_IDENTIFIER : Z := 0x2E.
Definition INPUT_OUTPUT_CONTROL_BY_IDENTIFIER : Z := 0x2F.
Definition WRITE_MEMORY_BY_ADDRESS : Z := 0x3D.

(** [DiagnosticSessionType.NAMES] *)
Definition DiagnosticSessionType_NAMES : gmap Z string :=
  list_to_map [(0x01, "DEFAULT_SESSION"); (0x02, "PROGRAMMING_SESSION");
               (0x03, "EXTENDED_DIAGNOSTIC_SESSION");
               (0x04, "SAFETY_SYSTEM_DIAGNOSTIC_SESSION")].

(** [DiagnosticSessionType.get_name]; [str.format] on a string without
    fields returns the string. *)
Definition get_name (sub_function : Z) : string :=
  let sub_function := Z.land sub_function 0x7f in
  if (sub_function =? 0x00) || (sub_function =? 0x7F)
     || ((sub_function <=? Services.DiagnosticSessionControl.DiagnosticSessionType.ISO_SAE_RESERVED_MAX)
         && (sub_function >=? Services.DiagnosticSessionControl.DiagnosticSessionType.ISO_SAE_RESERVED_MIN))
  then "!!ISO_SAE_RESERVED!!"
  else if (sub_function <=? Services.DiagnosticSessionControl.DiagnosticSessionType.VEHICLE_MANUFACTURER_SESSION_MAX)
          && (sub_function >=? Services.DiagnosticSessionControl.DiagnosticSessionType.VEHICLE_MANUFACTURER_SESSION_MIN)
  then "VEHICLE_MANUFACTURER_SESSION"
  else if (sub_function <=? Services.DiagnosticSessionControl.DiagnosticSessionType.SYSTEM_SUPPLIER_SESSION_MAX)
          && (sub_function >=? Services.DiagnosticSessionControl.DiagnosticSessionType.SYSTEM_SUPPLIER_SESSION_MIN)
  then "SYSTEM_SUPPLIER_SESSION"
  else default "!!UNKNOWN_SESSION_TYPE!!" (DiagnosticSessionType_NAMES !! sub_function).

(** class [DynamicallyDefinedIdentifierArg] *)
Record DynamicallyDefinedIdentifierArg := {
  sourceDataIdentifier : Z;
  positionInSourceDataRecord : Z;
  memorySize : Z
}.

(** ** Byte fields *)

(** [n] bytes of [value], most significant first. *)
Fixpoint big_endian (n : nat) (value : Z) : list Z :=
  match n with
  | O => []
  | S n => big_endian n (value ≫ 8) ++ [Z.land value 0xFF]
  end.

(** The number that a list of bytes spells, most significant first. *)
Definition from_big_endian (bytes : list Z) : Z :=
  foldl (λ acc b, acc * 256 + b) 0 bytes.

(** The loop [for i in range(0, width): request[width + offset - i - 1] =
    value & 0xFF; value = value >> 8] of the memory services: the request
    and the value after it. *)
Definition fill_field (request : list Z) (offset width value : Z) : list Z * Z :=
  foldl (λ '(request, value) i,
           (<[Z.to_nat (width + offset - i - 1) := Z.land value 0xFF]> request,
            value ≫ 8))
        (request, value) (range 0 width).

Section ProgramMore.
Context {W : Type} (env : Env W).

(** ** iso14229_1.py: the other services of class Iso14229_1 *)

(** The request that [read_memory_by_address] builds. *)
Definition read_memory_by_address_request
    (address_and_length_format memory_address memory_size : Z) : list Z :=
  let address_size_format := Z.land (address_and_length_format ≫ 4) 0xF in
  let data_size_format := Z.land address_and_length_format 0xF in
  let request :=
    replicate (Z.to_nat (1 + 1 + address_size_format + data_size_format)) 0 in
  let request := <[0%nat := READ_MEMORY_BY_ADDRESS]> request in
  let request := <[1%nat := address_and_length_format]> request in
  let offset := 2 in
  let '(request, memory_address) :=
    fill_field request offset address_size_format memory_address in
  let offset := offset + address_size_format in
  let '(request, memory_size) :=
    fill_field request offset data_size_format memory_size in
  request.

Definition read_memory_by_address (fuel : nat) (self : Z)
    (address_and_length_format memory_address memory_size : Z)
    : M W (option (list Z)) :=
  send_request env (read_memory_by_address_request address_and_length_format
                      memory_address memory_size);;
  receive_response env fuel self.

(** The request that [write_memory_by_address] builds. *)
Definition write_memory_by_address_request
    (address_and_length_format memory_address memory_size : Z) (data : list Z)
    : list Z :=
  let address_size_format := Z.land (address_and_length_format ≫ 4) 0xF in
  let data_size_format := Z.land address_and_length_format 0xF in
  let request :=
    replicate (Z.to_nat (1 + 1 + address_size_format + data_size_format)) 0 in
  let request := <[0%nat := WRITE_MEMORY_BY_ADDRESS]> request in
  let request := <[1%nat := address_and_length_format]> request in
  let offset := 2 in
  let '(request, memory_address) :=
    fill_field request offset address_size_format memory_address in
  let offset := offset + address_size_format in
  let '(request, memory_size) :=
    fill_field request offset data_size_format memory_size in
  request ++ data.

Definition write_memory_by_address (fuel : nat) (self : Z)
    (address_and_length_format memory_address memory_size : Z) (data : list Z)
    : M W (option (list Z)) :=
  send_request env (write_memory_by_address_request address_and_length_format
                      memory_address memory_size data);;
  receive_response env fuel self.

Definition write_data_by_identifier (fuel : nat) (self : Z)
    (identifier : Z) (data : list Z) : M W (option (list Z)) :=
  let request := replicate (Z.to_nat (1 + 2)) 0 in
  let request := <[0%nat := WRITE_DATA_BY_IDENTIFIER]> request in
  let request := <[1%nat := Z.land (identifier ≫ 8) 0xFF]> request in
  let request := <[2%nat := Z.land identifier 0xFF]> request in
  let request := request ++ data in
  send_request env request;;
  receive_response env fuel self.

Definition input_output_control_by_identifier (fuel : nat) (self : Z)
    (identifier : Z) (data : list Z) : M W (option (list Z)) :=
  let request := replicate (Z.to_nat (1 + 2)) 0 in
  let request := <[0%nat := INPUT_OUTPUT_CONTROL_BY_IDENTIFIER]> request in
  let request := <[1%nat := Z.land (identifier ≫ 8) 0xFF]> request in
  let request := <[2%nat := Z.land identifier 0xFF]> request in
  let request := request ++ data in
  send_request env request;;
  receive_response env fuel self.

(** The request that [dynamically_define_data_identifier] builds. *)
Definition dynamically_define_data_identifier_request
    (identifier sub_function : Z)
    (sub_function_arg : list DynamicallyDefinedIdentifierArg) : list Z :=
  let request := replicate (Z.to_nat (1 + 1 + 2 + len sub_function_arg * 4)) 0 in
  let request := <[0%nat := DYNAMICALLY_DEFINE_DATA_IDENTIFIER]> request in
  let request := <[1%nat := sub_function]> request in
  let request := <[2%nat := Z.land (identifier ≫ 8) 0xFF]> request in
  let request := <[3%nat := Z.land identifier 0xFF]> request in
  let offset := 4 in
  let '(request, offset) :=
    foldl (λ '(request, offset) did,
             let request :=
               <[Z.to_nat (offset + 0) :=
                   Z.land (sourceDataIdentifier did ≫ 8) 0xFF]> request in
             let request :=
               <[Z.to_nat (offset + 1) :=
                   Z.land (sourceDataIdentifier did) 0xFF]> request in
             let request :=
               <[Z.to_nat (offset + 2) := positionInSourceDataRecord did]> request in
             let request :=
               <[Z.to_nat (offset + 3) := memorySize did]> request in
             (request, offset + 4))
          (request, offset) sub_function_arg in
  request.

Definition dynamically_define_data_identifier (fuel : nat) (self : Z)
    (identifier sub_function : option Z)
    (sub_function_arg : option (list DynamicallyDefinedIdentifierArg))
    : M W (option (list Z)) :=
  match identifier, sub_function, sub_function_arg with
  | Some identifier, Some sub_function, Some sub_function_arg =>
      send_request env (dynamically_define_data_identifier_request identifier
                          sub_function sub_function_arg);;
      receive_response env fuel self
  | _, _, _ => mret None
  end.

Definition ecu_reset (fuel : nat) (self : Z) (reset_type : Z)
    : M W (option (list Z)) :=
  let request := replicate 2 0 in
  let request := <[0%nat := ServiceID.ECU_RESET]> request in
  let request := <[1%nat := reset_type]> request in
  send_request env request;;
  receive_response env fuel self.

(** [if data_record:] holds for a list that is not empty. *)
Definition security_access_request_seed (fuel : nat) (self : Z) (level : Z)
    (data_record : option (list Z)) : M W (option (list Z)) :=
  let service_id := ServiceID.SECURITY_ACCESS in
  let request := [service_id; level] in
  let request :=
    match data_record with
    | Some (b :: rest) => foldl (λ request b, request ++ [b]) request (b :: rest)
    | _ => request
    end in
  send_request env request;;
  receive_response env fuel self.

Definition security_access_send_key (fuel : nat) (self : Z) (level : Z)
    (key : list Z) : M W (option (list Z)) :=
  let service_id := ServiceID.SECURITY_ACCESS in
  let request := [service_id; level] in
  let request := foldl (λ request key_byte, request ++ [key_byte]) request key in
  send_request env request;;
  receive_response env fuel self.

(** The request that [read_data_by_periodic_identifier] builds. *)
Definition read_data_by_periodic_identifier_request (transmission_mode : Z)
    (identifier : list Z) : list Z :=
  let request := replicate (Z.to_nat (2 + len identifier)) 0 in
  let request := <[0%nat := READ_DATA_BY_PERIODIC_IDENTIFIER]> request in
  let request := <[1%nat := transmission_mode]> request in
  foldl (λ request i,
           <[Z.to_nat (2 + i) := default 0 (identifier !! Z.to_nat i)]> request)
        request (range 0 (len identifier)).

Definition read_data_by_periodic_identifier (fuel : nat) (self : Z)
    (transmission_mode : option Z) (identifier : option (list Z))
    : M W (option (list Z)) :=
  match transmission_mode, identifier with
  | Some transmission_mode, Some identifier =>
      if len identifier =? 0 then mret None
      else
        send_request env (read_data_by_periodic_identifier_request
                            transmission_mode identifier);;
        receive_response env fuel self
  | _, _ => mret None
  end.

End ProgramMore.

(** The four bytes that [dynamically_define_data_identifier] writes for one
    source definition. *)
Definition source_definition_bytes (did : DynamicallyDefinedIdentifierArg) : list Z :=
  [Z.land (sourceDataIdentifier did ≫ 8) 0xFF;
   Z.land (sourceDataIdentifier did) 0xFF;
   positionInSourceDataRecord did; memorySize did].

(** ** Reasoning about the client *)

(** A pending response as the receive loop recognises it: more than three
    bytes, 0x7F first and 0x78 third. *)
Definition absorbed_pending (r : list Z) : Prop :=
  3 < len r ∧ r !! 0%nat = Some 0x7F ∧ r !! 2%nat = Some 0x78.

(** A processor clock that moves, with [now w] the time in the world [w]:
    a reading of [time.clock()] is not before [now w] and leaves a world in
    which it is later than the reading by a millisecond at least; waiting
    for the transport does not set the time back. *)
Record advancing_cpu_clock {W} (env : Env W) (now : W → Z) : Prop := {
  clock_advances :
    ∀ w, now w ≤ (time_clock env w).1
         ∧ (time_clock env w).1 < now (time_clock env w).2;
  indication_keeps_time :
    ∀ wait_window w, now w ≤ now (env_indication env wait_window w).2
}.

(** The requests handed to the transport in a stretch of the trace. *)
Definition sent_requests (evs : list Event) : list (list Z) :=
  omap (λ ev, match ev with EvSendRequest m => Some m | _ => None end) evs.

(** The frames received from the bus in a stretch of the trace. *)
Definition received (evs : list Event) : list CanMessage :=
  omap (λ ev, match ev with EvRecv (Some m) => Some m | _ => None end) evs.

(** In a stretch of the trace the request [request] was sent, and the wait
    for its response ended with the message [r]. *)
Definition answered (request r : list Z) (evs : list Event) : Prop :=
  ∃ pre answers post,
    evs = pre ++ [EvSendRequest request] ++ (EvIndication <$> answers) ++ post
    ∧ last answers = Some (Some r).

(** A response on which [scan_session_control] records the sub-function: a
    response that starts with 0x50, or a negative response to service 0x10
    with another code than 0x12 (sub-function not supported). *)
Definition session_reply_counts (r : list Z) : Prop :=
  r !! 0%nat = Some 0x50
  ∨ (r !! 0%nat = Some 0x7F ∧ r !! 1%nat = Some 0x10
     ∧ ∃ nrc, r !! 2%nat = Some nrc ∧ nrc ≠ 0x12).

(** The request with which [scan_routine_control] probes a routine. *)
Definition routine_probe_request (routine_id : Z) : list Z :=
  [0x31; 0x0; Z.land (routine_id ≫ 8) 0xFF; Z.land routine_id 0xFF]
  ++ [1; 1; 1; 1; 1; 1; 1; 1; 1; 1].

(** The entry that [scan_routine_control] records for the response [r] to
    the probe of [routine_id]. *)
Definition routine_reply_records (routine_id : Z) (r : list Z)
    (entry : Z * string) : Prop :=
  (r !! 0%nat = Some 0x7F ∧ r !! 1%nat = Some 0x31 ∧ r !! 2%nat = Some 0x12
   ∧ entry = (routine_id, "SUPPORTED_NO_SECURITY"))
  ∨ (r !! 0%nat = Some 0x7F ∧ r !! 1%nat = Some 0x31 ∧ r !! 2%nat = Some 0x33
     ∧ entry = (routine_id, "SUPPORTED_SECURITY_ACCESS_DENIED"))
  ∨ (∃ b0 hi lo, r !! 0%nat = Some b0 ∧ b0 ≠ 0x7F
       ∧ r !! 2%nat = Some hi ∧ r !! 3%nat = Some lo
       ∧ entry = (Z.lor (hi ≪ 8) lo, "?? Success ?? how")).

(** The pairs that the scan without verification records in a stretch of
    the trace: every valid-shape frame from an arbitration id outside
    [blacklist] gives a pair with the id probed last before it, [current]
    when none was probed in the stretch. *)
Fixpoint attributed (blacklist : gset Z) (current : Z) (evs : list Event)
    : list (Z * Z) :=
  match evs with
  | [] => []
  | EvTransmit _ arb_id :: evs => attributed blacklist arb_id evs
  | EvRecv (Some m) :: evs =>
      if bool_decide (arbitration_id m ∉ blacklist) && is_valid_response m
      then (current, arbitration_id m) :: attributed blacklist current evs
      else attributed blacklist current evs
  | _ :: evs => attributed blacklist current evs
  end.

(** What the scan without verification does on the bus: it transmits
    [message] and it receives. *)
Definition scan_event (message : list Z) (ev : Event) : Prop :=
  match ev with
  | EvTransmit m _ => m = message
  | EvRecv _ => True
  | _ => False
  end.

(** ** The shape of a scan with verification *)






(** A server that keeps answering: two pending responses of four bytes are
    absorbed, the window of 5 ms ends the wait. *)
Definition always_pending (request : list Z) : list (list Z) :=
  replicate 20 [0x7F; 0x10; 0x78; 0x00].

(** [ensures m Q st]: when the run of [m] from [st] ends with a value, the
    value and the state satisfy [Q]; the run may also raise or be cut off. *)
Definition ensures {W A} (m : M W A) (Q : A → State W → Prop) (st : State W) : Prop :=
  match m st with
  | (Ok a, st') => Q a st'
  | (Raise _, _) => True
  | (OutOfFuel, _) => True
  end.

(** ** uds.py: the commands that send one request, and the other scanners *)

Definition BYTE_MIN : Z := 0x00.
Definition BYTE_MAX : Z := 0xFF.
Definition SUB_FUNC_PARAM_MIN : Z := 0x00.
Definition SUB_FUNC_PARAM_MAX : Z := 0x7f.

(** A timeout argument, in milliseconds: Python tells a float from an
    integer, and the sanity checks only look at floats. *)
Inductive Timeout :=
| FloatTimeout (ms : Z)
| IntTimeout (ms : Z).

Definition timeout_ms (timeout : Timeout) : Z :=
  match timeout with
  | FloatTimeout ms => ms
  | IntTimeout ms => ms
  end.

(** [isinstance(timeout, float) and timeout < 0.0] *)
Definition negative_float (timeout : option Timeout) : bool :=
  match timeout with
  | Some (FloatTimeout ms) => ms <? 0
  | _ => false
  end.

(** [uds.P3_CLIENT] after [if timeout is not None: uds.P3_CLIENT = timeout] *)
Definition client_window (timeout : option Timeout) : Z :=
  match timeout with
  | Some t => timeout_ms t
  | None => P3_CLIENT
  end.

(** The echoed service id of a frame that [service_discovery] counts: more
    than three bytes, and the fourth is not SERVICE_NOT_SUPPORTED. *)
Definition supported_service (msg : CanMessage) : option Z :=
  if len (data msg) >? 3 then
    match data msg !! 2%nat, data msg !! 3%nat with
    | Some service_id, Some status =>
        if negb (status =? NegativeResponseCodes.SERVICE_NOT_SUPPORTED)
        then Some service_id else None
    | _, _ => None
    end
  else None.

(** The probes of [service_discovery]: for every service id the request and
    what the bus delivered. *)
Definition probes (service_ids : list Z) (answers : list (option CanMessage))
    : list Event :=
  mjoin (zip_with (λ service_id answer, [EvSendRequest [service_id]; EvRecv answer])
           service_ids answers).

(** [Services.TesterPresent.service_id] *)
Definition TesterPresent_service_id : Z := ServiceID.TESTER_PRESENT.

Module Uds.
Section Commands.
Context {W : Type} (env : Env W).

(** [time.sleep(seconds)], with the time in milliseconds; it does nothing
    on the bus, and it raises [ValueError] for a negative length. *)
Variable env_sleep : Z → W → W.

Definition sleep (ms : Z) : M W unit := λ st,
  if ms <? 0 then (Raise (ValueError "sleep length must be non-negative" []), st)
  else (Ok (), {| world := env_sleep ms (world st); trace := trace st |}).

Definition ecu_reset (fuel : nat) (arb_id_request arb_id_response : Z)
    (reset_type : Z) (timeout : option Timeout) : M W (option (list Z)) :=
  if negb ((BYTE_MIN <=? reset_type) && (reset_type <=? BYTE_MAX)) then
    raise (ValueError "reset type must be within interval" [BYTE_MIN; BYTE_MAX])
  else if negative_float timeout then
    raise (ValueError "timeout value cannot be negative" [])
  else
    with_IsoTp env (Some arb_id_request) (Some arb_id_response) (
      set_filter_single_arbitration_id env arb_id_response;;
      let uds := client_window timeout in
      ecu_reset env fuel uds reset_type).

Definition diag_session_control (fuel : nat) (arb_id_request arb_id_response : Z)
    (session_type : Z) : M W (option (list Z)) :=
  if negb (Services.DiagnosticSessionControl.DiagnosticSessionType.is_valid_session
             session_type) then
    raise (ValueError "Invalid extended session type" [session_type])
  else
    with_IsoTp env (Some arb_id_request) (Some arb_id_response) (
      set_filter_single_arbitration_id env arb_id_response;;
      diagnostic_session_control env fuel P3_CLIENT session_type).

Definition extended_session (fuel : nat) (arb_id_request arb_id_response : Z)
    : M W (option (list Z)) :=
  diag_session_control fuel arb_id_request arb_id_response
    Services.DiagnosticSessionControl.DiagnosticSessionType.EXTENDED_DIAGNOSTIC_SESSION.

Definition request_seed (fuel : nat) (arb_id_request arb_id_response : Z)
    (level : Z) (data_record : option (list Z)) (timeout : option Timeout)
    : M W (option (list Z)) :=
  if negb (Services.SecurityAccess.RequestSeedOrSendKey.is_valid_request_seed_level
             level) then
    raise (ValueError "Invalid request seed level" [])
  else if negative_float timeout then
    raise (ValueError "timeout value cannot be negative" [])
  else
    with_IsoTp env (Some arb_id_request) (Some arb_id_response) (
      set_filter_single_arbitration_id env arb_id_response;;
      let uds := client_window timeout in
      security_access_request_seed env fuel uds level data_record).

Definition send_key (fuel : nat) (arb_id_request arb_id_response : Z)
    (level : Z) (key : list Z) (timeout : option Timeout)
    : M W (option (list Z)) :=
  if negb (Services.SecurityAccess.RequestSeedOrSendKey.is_valid_send_key_level
             level) then
    raise (ValueError "Invalid send key level" [])
  else if negative_float timeout then
    raise (ValueError "timeout value cannot be negative" [])
  else
    with_IsoTp env (Some arb_id_request) (Some arb_id_response) (
      set_filter_single_arbitration_id env arb_id_response;;
      let uds := client_window timeout in
      security_access_send_key env fuel uds level key).

(** The body of [for service_id in range(min_id, max_id + 1)]. *)
Definition probe_service (timeout : Z) (found_services : list Z) (service_id : Z)
    : M W (list Z) :=
  send_request env [service_id];;
  msg ← recv env timeout;
  match msg with
  | None => mret found_services
  | Some msg =>
      if len (data msg) >? 3 then
        service_id ← getitem (data msg) 2;
        status ← getitem (data msg) 3;
        if negb (status =? NegativeResponseCodes.SERVICE_NOT_SUPPORTED)
        then mret (found_services ++ [service_id])
        else mret found_services
      else mret found_services
  end.

Definition service_discovery (arb_id_request arb_id_response : Z) (timeout : Z)
    (min_id max_id : Z) : M W (list Z) :=
  let found_services := [] in
  with_IsoTp env (Some arb_id_request) (Some arb_id_response) (
    set_filter_single_arbitration_id env arb_id_response;;
    for_each (probe_service timeout) (range min_id (max_id + 1)) found_services).

(** The body of [for subfunc_id in range(SUB_FUNC_PARAM_MIN,
    SUB_FUNC_PARAM_MAX + 1)]. *)
Definition scan_session (fuel : nat) (uds : Z) (found_sub_funcs : list Z)
    (subfunc_id : Z) : M W (list Z) :=
  response ← diagnostic_session_control env fuel uds subfunc_id;
  response ←
    match response with
    | None => sleep 1000;; diagnostic_session_control env fuel uds subfunc_id
    | Some _ => mret response
    end;
  if is_positive_response response then
    first ← getitem (default [] response) 0;
    if bool_decide (first ∈ Services.DiagnosticSessionControl.valid_responses) then
      let found_sub_funcs := found_sub_funcs ++ [subfunc_id] in
      if subfunc_id
         =? Services.DiagnosticSessionControl.DiagnosticSessionType.PROGRAMMING_SESSION
      then
        sleep 1000;;
        diagnostic_session_control env fuel uds
          Services.DiagnosticSessionControl.DiagnosticSessionType.DEFAULT_SESSION;;
        sleep 1000;;
        mret found_sub_funcs
      else mret found_sub_funcs
    else mret found_sub_funcs
  else
    match response with
    | None => mret found_sub_funcs
    | Some r =>
        echoed ← getitem r 1;
        if echoed =? ServiceID.DIAGNOSTIC_SESSION_CONTROL then
          nrc ← getitem r 2;
          if negb (nrc =? NegativeResponseCodes.SUB_FUNCTION_NOT_SUPPORTED)
          then mret (found_sub_funcs ++ [subfunc_id])
          else mret found_sub_funcs
        else mret found_sub_funcs
    end.

Definition scan_session_control (fuel : nat) (arb_id_request arb_id_response : Z)
    (timeout : option Z) : M W (list Z) :=
  let found_sub_funcs := [] in
  with_IsoTp env (Some arb_id_request) (Some arb_id_response) (
    set_filter_single_arbitration_id env arb_id_response;;
    let uds := match timeout with Some t => t | None => P3_CLIENT end in
    for_each (scan_session fuel uds)
      (range SUB_FUNC_PARAM_MIN (SUB_FUNC_PARAM_MAX + 1)) found_sub_funcs).

(** The [while True] loop of [tester_present].  [datetime.datetime.now()]
    is read as the wall clock [time.time()], in milliseconds; the counter is
    only printed. *)
Fixpoint tester_present_loop (fuel : nat) (message_data : list Z) (delay : Z)
    (end_time : option Z) : M W unit :=
  match fuel with
  | O => out_of_fuel
  | S fuel =>
      send_request env message_data;;
      sleep delay;;
      match end_time with
      | Some end_time =>
          now ← time env;
          if now >=? end_time then mret ()
          else tester_present_loop fuel message_data delay (Some end_time)
      | None => tester_present_loop fuel message_data delay None
      end
  end.

Definition tester_present (fuel : nat) (arb_id_request : Z) (delay : Z)
    (duration : option Z) (suppress_positive_response : bool) : M W unit :=
  let sub_function := if suppress_positive_response then 0x80 else 0x00 in
  end_time ←
    match duration with
    | Some duration => now ← time env; mret (Some (now + duration))
    | None => mret None
    end;
  let service_id := TesterPresent_service_id in
  let message_data := [service_id; sub_function] in
  with_IsoTp env (Some arb_id_request) None
    (tester_present_loop fuel message_data delay end_time).

End Commands.
End Uds.


(** [time.sleep] in the scripted world: the time moves on by the time
    slept. *)
Definition mock_sleep (ms : Z) (w : Mock) : Mock :=
  {| mock_now := mock_now w + Z.max ms 0; mock_filter := mock_filter w;
     mock_bus := mock_bus w; mock_inbox := mock_inbox w |}.

(** * Properties *)

(** ** Code tables and response classifier *)

Import Services.DiagnosticSessionControl.DiagnosticSessionType.
Import Services.SecurityAccess.RequestSeedOrSendKey.

Lemma land_0x7F_mod (x : Z) : Z.land x 0x7F = x `mod` 128.
Proof. change 0x7F with (Z.ones 7). by rewrite Z.land_ones. Qed.

Lemma land_0x7F_lor_0x80 (s : Z) : Z.land 0x7f (Z.lor s 0x80) = Z.land 0x7f s.
Proof.
  rewrite Z.land_lor_distr_r.
  change (Z.land 0x7f 0x80) with 0. apply Z.lor_0_r.
Qed.

(** C2, counterexample: for the service identifier 0xC0, a byte, the code
    returns 0x100 where the claim says (0xC0 + 0x40) mod 256 = 0. *)
Lemma get_service_response_id_0xC0 :
  0 ≤ 0xC0 ≤ 0xFF ∧ get_service_response_id 0xC0 ≠ (0xC0 + 0x40) `mod` 256.
Proof. split; [lia | discriminate]. Qed.

(** C2, amended: for every service identifier in [0x00, 0xFF],
    [get_service_response_id] returns sid + 0x40 without any reduction; the
    result is (sid + 0x40) mod 256 exactly for sid up to 0xBF. *)
Theorem get_service_response_id_no_wrap (sid : Z) :
  0 ≤ sid ≤ 0xFF →
  get_service_response_id sid = sid + 0x40
  ∧ (get_service_response_id sid = (sid + 0x40) `mod` 256 ↔ sid ≤ 0xBF).
Proof.
  intros Hsid. unfold get_service_response_id. split; [done|].
  split; intros H.
  - pose proof (Z.mod_pos_bound (sid + 0x40) 256). lia.
  - rewrite Z.mod_small; lia.
Qed.

Lemma get_service_response_id_no_wrap_witness :
  get_service_response_id 0x10 = 0x10 + 0x40
  ∧ (get_service_response_id 0x10 = (0x10 + 0x40) `mod` 256 ↔ 0x10 ≤ 0xBF).
Proof. apply (get_service_response_id_no_wrap 0x10). lia. Defined.

(** C7: [is_valid_session s] holds exactly when [s & 0x7F] is one of 0x01
    to 0x04 or lies in [0x40, 0x5F] or in [0x60, 0x7E]; hence setting the
    suppress-positive-response bit 0x80 does not change the answer.  Stated
    for every integer, bytes included. *)
Theorem is_valid_session_spec (s : Z) :
  (is_valid_session s = true ↔
     Z.land s 0x7F = 0x01 ∨ Z.land s 0x7F = 0x02 ∨ Z.land s 0x7F = 0x03
     ∨ Z.land s 0x7F = 0x04 ∨ 0x40 ≤ Z.land s 0x7F ≤ 0x5F
     ∨ 0x60 ≤ Z.land s 0x7F ≤ 0x7E)
  ∧ is_valid_session s = is_valid_session (Z.lor s 0x80).
Proof.
  split.
  - unfold is_valid_session. rewrite (Z.land_comm 0x7f s).
    generalize (Z.land s 0x7F). intros v.
    unfold DEFAULT_SESSION, PROGRAMMING_SESSION, EXTENDED_DIAGNOSTIC_SESSION,
      SAFETY_SYSTEM_DIAGNOSTIC_SESSION, VEHICLE_MANUFACTURER_SESSION_MAX,
      VEHICLE_MANUFACTURER_SESSION_MIN, SYSTEM_SUPPLIER_SESSION_MAX,
      SYSTEM_SUPPLIER_SESSION_MIN.
    destruct (v =? 1) eqn:E1, (v =? 2) eqn:E2, (v =? 3) eqn:E3, (v =? 4) eqn:E4,
      (v <=? 95) eqn:E5, (v >=? 64) eqn:E6, (v <=? 126) eqn:E7, (v >=? 96) eqn:E8;
      simpl; split; intros H; try done; lia.
  - unfold is_valid_session. by rewrite land_0x7F_lor_0x80.
Qed.

(** C9: a valid request seed level [L] has the valid send key level
    [L + 1], which is what [get_send_key_for_request_seed] returns. *)
Theorem send_key_level_follows_request_seed (L : Z) :
  is_valid_request_seed_level L = true →
  is_valid_send_key_level (L + 1) = true
  ∧ get_send_key_for_request_seed L = L + 1.
Proof.
  unfold is_valid_request_seed_level, is_valid_send_key_level,
    get_send_key_for_request_seed, REQUEST_SEED_MIN, REQUEST_SEED_MAX,
    SEND_KEY_MIN, SEND_KEY_MAX.
  rewrite !land_0x7F_mod. intros H. split; [|done].
  apply andb_prop in H as [Hint Hodd]. apply andb_prop in Hint as [Hlo Hhi].
  assert ((L + 1) `mod` 128 = L `mod` 128 + 1) as ->.
  { rewrite Z.add_mod by lia. rewrite (Z.mod_small 1) by lia.
    apply Z.mod_small. lia. }
  assert ((L `mod` 128 + 1) `mod` 2 = 0) as ->.
  { rewrite Z.add_mod by lia. apply Z.eqb_eq in Hodd. by rewrite Hodd. }
  apply andb_true_intro. split; [|done].
  apply andb_true_intro. split; lia.
Qed.

Lemma send_key_level_follows_request_seed_witness :
  is_valid_send_key_level (0x41 + 1) = true
  ∧ get_send_key_for_request_seed 0x41 = 0x41 + 1.
Proof. apply (send_key_level_follows_request_seed 0x41). reflexivity. Defined.

(** ** Rules for [wp] *)

Section WpRules.
Context {W : Type}.
Implicit Types st : State W.

Lemma wp_ret {A} (a : A) (Q : A → State W → Prop) st :
  Q a st → wp (mret a) Q st.
Proof. done. Qed.

Lemma wp_out_of_fuel {A} (Q : A → State W → Prop) st :
  wp (out_of_fuel : M W A) Q st.
Proof. done. Qed.

Lemma wp_bind {A B} (m : M W A) (f : A → M W B) (Q : B → State W → Prop) st :
  wp m (λ a st', wp (f a) Q st') st → wp (m ≫= f) Q st.
Proof.
  unfold wp, mbind, M_bind. destruct (m st) as [[a| |] st']; done.
Qed.

Lemma wp_mono {A} (m : M W A) (Q Q' : A → State W → Prop) st :
  (∀ a st', Q a st' → Q' a st') → wp m Q st → wp m Q' st.
Proof.
  unfold wp. intros HQ. destruct (m st) as [[a| |] st']; auto.
Qed.

Lemma wp_perform {A} (op : W → A * W) (ev : A → Event)
    (Q : A → State W → Prop) st :
  (∀ a w, op (world st) = (a, w) →
          Q a {| world := w; trace := trace st ++ [ev a] |}) →
  wp (perform op ev) Q st.
Proof.
  unfold wp, perform. intros H. destruct (op (world st)) as [a w]. by apply H.
Qed.

Lemma wp_reading (op : W → Z * W) (Q : Z → State W → Prop) st :
  (∀ t w, op (world st) = (t, w) → Q t {| world := w; trace := trace st |}) →
  wp (reading op) Q st.
Proof.
  unfold wp, reading. intros H. destruct (op (world st)) as [t w]. by apply H.
Qed.

Lemma wp_Ok {A} (m : M W A) (Q : A → State W → Prop) st a st' :
  wp m Q st → m st = (Ok a, st') → Q a st'.
Proof. unfold wp. intros H Hm. by rewrite Hm in H. Qed.

Lemma wp_not_Raise {A} (m : M W A) (Q : A → State W → Prop) st e st' :
  wp m Q st → m st ≠ (Raise e, st').
Proof. unfold wp. intros H Hm. by rewrite Hm in H. Qed.

Lemma returns_ret {A} (a : A) (Q : A → State W → Prop) st :
  Q a st → returns (mret a) Q st.
Proof. done. Qed.

Lemma returns_bind {A B} (m : M W A) (f : A → M W B) (Q : B → State W → Prop) st :
  returns m (λ a st', returns (f a) Q st') st → returns (m ≫= f) Q st.
Proof.
  unfold returns, mbind, M_bind. destruct (m st) as [[a| |] st']; done.
Qed.

Lemma returns_mono {A} (m : M W A) (Q Q' : A → State W → Prop) st :
  (∀ a st', Q a st' → Q' a st') → returns m Q st → returns m Q' st.
Proof.
  unfold returns. intros HQ. destruct (m st) as [[a| |] st']; auto.
Qed.

Lemma returns_perform {A} (op : W → A * W) (ev : A → Event)
    (Q : A → State W → Prop) st :
  (∀ a w, op (world st) = (a, w) →
          Q a {| world := w; trace := trace st ++ [ev a] |}) →
  returns (perform op ev) Q st.
Proof.
  unfold returns, perform. intros H. destruct (op (world st)) as [a w]. by apply H.
Qed.

Lemma returns_reading (op : W → Z * W) (Q : Z → State W → Prop) st :
  (∀ t w, op (world st) = (t, w) → Q t {| world := w; trace := trace st |}) →
  returns (reading op) Q st.
Proof.
  unfold returns, reading. intros H. destruct (op (world st)) as [t w]. by apply H.
Qed.

Lemma returns_Ok {A} (m : M W A) (Q : A → State W → Prop) st :
  returns m Q st → ∃ a st', m st = (Ok a, st') ∧ Q a st'.
Proof. unfold returns. destruct (m st) as [[a| |] st']; [eauto|done|done]. Qed.

End WpRules.

(** ** Scan ranges *)

Lemma range_cons (start stop : Z) :
  start < stop → range start stop = start :: range (start + 1) stop.
Proof.
  intros H. unfold range.
  replace (Z.to_nat (stop - start)) with (S (Z.to_nat (stop - (start + 1)))) by lia.
  cbn [seq fmap list_fmap]. f_equal; [lia|].
  rewrite <- seq_shift, <- list_fmap_compose.
  apply list_fmap_ext. intros _ i _. simpl. lia.
Qed.

(** C3, the code at the failing input: with the safety flag alone and no
    bounds, [make_did_range] announces the safety ranges and then returns
    the default range 0x0000 to 0xFFFF, which is not the safety preset
    [0xFA00, 0xFA0F] ∪ [0xFA19, 0xFAFF]. *)
Theorem make_did_range_safety_only :
  make_did_range false false true None None
  = ([ScanningSafetyRanges; ScanningDefaultRange], inr (range 0x0000 (0xFFFF + 1)))
  ∧ range 0x0000 (0xFFFF + 1)
    ≠ range 0xFA00 (0xFA0F + 1) ++ range 0xFA19 (0xFAFF + 1).
Proof.
  split; [reflexivity|].
  rewrite (range_cons 0x0000) by lia. rewrite (range_cons 0xFA00) by lia.
  discriminate.
Qed.

(** The safety branch itself chains the supplier range 0xF000 to 0xFEFF,
    not 0xFA00 to 0xFA0F: seen when the supplier flag keeps the default
    range away. *)
Lemma make_did_range_supplier_safety :
  make_did_range false true true None None
  = ([ScanningSupplierRange; ScanningSafetyRanges],
     inr (range 0xf000 (0xfeff + 1) ++ range 0xf000 (0xfeff + 1)
          ++ range 0xfa19 (0xfaff + 1))).
Proof. reflexivity. Qed.

(** ** Protocol client *)

(** C10: with an empty list of data identifiers [read_data_by_identifier]
    returns the empty list, not [None], and leaves the world and the trace
    as they were: no request is sent and nothing is received. *)
Theorem read_data_by_identifier_empty {W} (env : Env W) (fuel : nat) (self : Z)
    (st : State W) :
  read_data_by_identifier env fuel self [] st = (Ok (Some []), st)
  ∧ Some ([] : list Z) ≠ None.
Proof. split; [reflexivity | discriminate]. Qed.

(** The request layout of the round-trip law of the spec. *)
Lemma read_data_by_identifier_request :
  trace (read_data_by_identifier (mock_env 1 no_ecu (λ _, [])) 10 P3_CLIENT
           [0xF190; 0xF18C] mock_start).2
  = [EvSendRequest [0x22; 0xF1; 0x90; 0xF1; 0x8C]; EvIndication None].
Proof. vm_compute. reflexivity. Qed.

(** C1, the code at the failing input: the server answers the request
    [0x10, 0x03] with the pending response [0x7F, 0x10, 0x78] and then with
    the positive response; with a wait window of 1 s the client returns the
    3-byte pending response, and the positive response is still waiting in
    the transport. *)
Theorem receive_response_returns_pending :
  let run := diagnostic_session_control (mock_env 1 no_ecu pending_then_positive)
               10 1000 0x03 mock_start in
  run.1 = Ok (Some [0x7F; 0x10; 0x78])
  ∧ trace run.2 = [EvSendRequest [0x10; 0x03]; EvIndication (Some [0x7F; 0x10; 0x78])]
  ∧ mock_inbox (world run.2) = [[0x50; 0x03; 0; 0; 0; 0]].
Proof. vm_compute. done. Qed.

(** What the loop does absorb: a message that [receive_response] returns
    is never a pending response of more than three bytes. *)
Lemma receive_response_loop_long_pending {W} (env : Env W) (fuel : nat)
    (wait_window start_time : Z) (st : State W) :
  wp (receive_response_loop env fuel wait_window start_time)
     (λ response _, ∀ r, response = Some r →
        ¬ (3 < len r ∧ r !! 0%nat = Some 0x7F ∧ r !! 2%nat = Some 0x78)) st.
Proof.
  revert st. induction fuel as [|fuel IH]; intros st; [apply wp_out_of_fuel|].
  cbn [receive_response_loop]. apply wp_bind, wp_reading. intros t w _.
  destruct (t - start_time >? wait_window); [by apply wp_ret|].
  apply wp_bind, wp_perform. intros [r|] w' _; [|by apply wp_ret].
  destruct (_ && _) eqn:E; [apply IH|].
  apply wp_ret. intros r' [= <-] (Hlen & H0 & H2).
  rewrite !andb_false_iff, !bool_decide_eq_false in E.
  unfold Constants.NR_SI,
    NegativeResponseCodes.REQUEST_CORRECTLY_RECEIVED_RESPONSE_PENDING in E.
  destruct E as [[E|E]|E]; [lia|done|done].
Qed.

(** ** Routine control scan *)

(** C6, counterexample: the server answers the probe of routine 0x0203
    with the one-byte message [0x71], a positive reply for the classifier;
    the scan raises [IndexError] on [response[2]] and returns no map, so no
    entry is recorded. *)
Lemma scan_routine_control_short_positive_reply :
  let run := scan_routine_control (mock_env 1000 no_ecu (constant_server [0x71]))
               10 0x7E0 0x7E8 None false false (Some 0x0203) (Some 0x0203)
               mock_start in
  is_positive_response (Some [0x71]) = true
  ∧ trace run.2
    = [EvEnter (Some 0x7E0) (Some 0x7E8); EvSetFilter 0x7E8;
       EvSendRequest [0x31; 0x00; 0x02; 0x03; 1; 1; 1; 1; 1; 1; 1; 1; 1; 1];
       EvIndication (Some [0x71]); EvExit]
  ∧ run.1 = Raise IndexError
  ∧ ¬ ∃ routine_map, run.1 = Ok routine_map.
Proof. vm_compute. repeat split; try done. by intros [? ?]. Qed.

(** C6, amended: for the reply that the probe of a routine id obtains,
    a negative reply echoing service 0x31 records (rid,
    SUPPORTED_NO_SECURITY) for NRC 0x12 and (rid,
    SUPPORTED_SECURITY_ACCESS_DENIED) for NRC 0x33 and nothing for NRC 0x31;
    a positive reply of at least four bytes records the identifier echoed in
    its bytes 2 and 3 with the marker "?? Success ?? how". *)
Theorem scan_routine_classification {W} (env : Env W) (fuel : nat) (uds : Z)
    (routine_map : list (Z * string)) (rid : Z) (st : State W)
    (response : list Z) (st' : State W) :
  probe_routine env fuel uds rid st = (Ok (Some response), st') →
  (∀ rest, response = 0x7F :: 0x31 :: 0x12 :: rest →
     scan_routine env fuel uds routine_map rid st
     = (Ok (routine_map ++ [(rid, "SUPPORTED_NO_SECURITY")]), st'))
  ∧ (∀ rest, response = 0x7F :: 0x31 :: 0x33 :: rest →
       scan_routine env fuel uds routine_map rid st
       = (Ok (routine_map ++ [(rid, "SUPPORTED_SECURITY_ACCESS_DENIED")]), st'))
  ∧ (∀ rest, response = 0x7F :: 0x31 :: 0x31 :: rest →
       scan_routine env fuel uds routine_map rid st = (Ok routine_map, st'))
  ∧ (∀ b0 b1 b2 b3 rest, b0 ≠ 0x7F → response = b0 :: b1 :: b2 :: b3 :: rest →
       scan_routine env fuel uds routine_map rid st
       = (Ok (routine_map ++ [(Z.lor (b2 ≪ 8) b3, "?? Success ?? how")]), st')).
Proof.
  intros Hprobe.
  assert (∀ r, scan_routine env fuel uds routine_map rid st = r ↔
               record_routine rid (Some response) routine_map st' = r) as Hstep.
  { intros r. unfold scan_routine, mbind, M_bind. by rewrite Hprobe. }
  repeat split; intros; subst response; apply Hstep; try reflexivity.
  unfold record_routine, is_positive_response, Constants.NR_SI.
  rewrite bool_decide_eq_false_2 by (simpl; congruence).
  assert ((len (b0 :: b1 :: b2 :: b3 :: rest) >? 0) = true) as ->
    by (apply Z.gtb_lt; unfold len; cbn [length]; lia).
  reflexivity.
Qed.

Lemma scan_routine_classification_witness :
  let env := mock_env 1000 no_ecu routine_server in
  scan_routine env 10 P3_CLIENT [] 0x0203 mock_start
  = (Ok ([] ++ [(0x0203, "SUPPORTED_NO_SECURITY")]),
     (probe_routine env 10 P3_CLIENT 0x0203 mock_start).2).
Proof.
  intros env.
  refine (proj1 (scan_routine_classification env 10 P3_CLIENT [] 0x0203
                   mock_start [0x7F; 0x31; 0x12] _ _) [] eq_refl).
  vm_compute. reflexivity.
Defined.

(** The routine scan scenario of the spec, end to end. *)
Lemma scan_routine_control_scenario :
  (scan_routine_control (mock_env 1000 no_ecu routine_server) 10 0x7E0 0x7E8 None
     false false (Some 0x0203) (Some 0x0205) mock_start).1
  = Ok [(0x0203, "SUPPORTED_NO_SECURITY");
        (0x0204, "SUPPORTED_SECURITY_ACCESS_DENIED")].
Proof. vm_compute. reflexivity. Qed.

(** ** Endpoint discovery *)

Lemma probed_app (evs1 evs2 : list Event) :
  probed (evs1 ++ evs2) = probed evs1 ++ probed evs2.
Proof. apply omap_app. Qed.

Lemma valid_replies_app (evs1 evs2 : list Event) :
  valid_replies (evs1 ++ evs2) = valid_replies evs1 ++ valid_replies evs2.
Proof. apply omap_app. Qed.

Lemma ends_with_first_valid_reply_app (evs1 evs2 : list Event) :
  valid_replies evs1 = [] →
  ends_with_first_valid_reply evs2 →
  ends_with_first_valid_reply (evs1 ++ evs2).
Proof.
  intros H1 (evs0 & m & -> & Hm & H0).
  exists (evs1 ++ evs0), m. rewrite app_assoc, valid_replies_app, H1, H0. done.
Qed.

Lemma verify_id_range_five (send_arbitration_id : Z) :
  range_step send_arbitration_id (send_arbitration_id - VERIFICATION_BACKTRACK) (-1)
  = [send_arbitration_id; send_arbitration_id - 1; send_arbitration_id - 2;
     send_arbitration_id - 3; send_arbitration_id - 4].
Proof.
  unfold range_step, VERIFICATION_BACKTRACK. cbn [Z.ltb Z.compare].
  replace (send_arbitration_id - (send_arbitration_id - 5) - -1 - 1) with 5 by lia.
  change (Z.to_nat (5 `div` (- (-1)))) with 5%nat.
  cbn [seq fmap list_fmap]. repeat f_equal; lia.
Qed.

Section Discovery.
Context {W : Type} (env : Env W).
Implicit Types st : State W.

Lemma verification_listen_spec (fuel : nat) (verification_end_time : Z) st :
  wp (verification_listen env fuel verification_end_time)
     (λ verified st', ∃ evs,
        trace st' = trace st ++ evs ∧ probed evs = []
        ∧ if verified then ends_with_first_valid_reply evs
          else valid_replies evs = []) st.
Proof.
  revert st. induction fuel as [|fuel IH]; intros st; [apply wp_out_of_fuel|].
  cbn [verification_listen]. apply wp_bind, wp_reading. intros now w _.
  destruct (now <? verification_end_time).
  2:{ apply wp_ret. exists []. by rewrite app_nil_r. }
  apply wp_bind, wp_perform. intros verification_msg w' _.
  assert (wp (verification_listen env fuel verification_end_time)
            (λ verified st', ∃ evs,
               trace st' = trace st ++ [EvRecv verification_msg] ++ evs
               ∧ probed evs = []
               ∧ if verified then ends_with_first_valid_reply evs
                 else valid_replies evs = [])
            {| world := w'; trace := trace st ++ [EvRecv verification_msg] |})
    as Hrest.
  { eapply wp_mono; [|apply IH]. cbn [trace]. intros b st' (evs & Htr & H).
    exists evs. by rewrite Htr, <- app_assoc. }
  destruct verification_msg as [m|].
  - destruct (is_valid_response m) eqn:Hm.
    + apply wp_ret. exists [EvRecv (Some m)]. repeat split; try done.
      exists [], m. done.
    + eapply wp_mono; [|apply Hrest]. intros b st' (evs & Htr & Hp & Hb).
      exists ([EvRecv (Some m)] ++ evs). split; [done|]. split; [done|].
      assert (valid_replies [EvRecv (Some m)] = []) as Hnone
        by (cbn; by rewrite Hm).
      destruct b.
      * by apply ends_with_first_valid_reply_app.
      * by rewrite valid_replies_app, Hnone, Hb.
  - eapply wp_mono; [|apply Hrest]. intros b st' (evs & Htr & Hp & Hb).
    exists ([EvRecv None] ++ evs). split; [done|]. split; [done|].
    destruct b.
    + by apply ends_with_first_valid_reply_app.
    + by rewrite valid_replies_app, Hb.
Qed.

Lemma verification_backtrack_spec (fuel : nat) (session_control_data : list Z)
    (delay : Z) (verify_id_range : list Z) st :
  wp (verification_backtrack env fuel session_control_data delay verify_id_range)
     (λ verified st', ∃ evs,
        trace st' = trace st ++ evs
        ∧ match verified with
          | Some that_id =>
              (∃ before after,
                  verify_id_range = before ++ that_id :: after
                  ∧ probed evs = before ++ [that_id])
              ∧ ends_with_first_valid_reply evs
          | None => probed evs = verify_id_range ∧ valid_replies evs = []
          end) st.
Proof.
  revert st.
  induction verify_id_range as [|id rest IH]; intros st;
    cbn [verification_backtrack].
  { apply wp_ret. exists []. by rewrite app_nil_r. }
  apply wp_bind, wp_perform. intros [] w [= <-].
  apply wp_bind, wp_reading. intros now w' _. cbn [trace].
  apply wp_bind. eapply wp_mono; [|apply verification_listen_spec].
  cbn [trace]. intros verified st1 (evs1 & Htr1 & Hp1 & Hv1).
  set (probe := EvTransmit session_control_data id) in *.
  destruct verified.
  - apply wp_ret. exists ([probe] ++ evs1). rewrite Htr1, <- app_assoc.
    split; [done|]. split.
    + exists [], rest. by rewrite probed_app, Hp1.
    + by apply ends_with_first_valid_reply_app.
  - eapply wp_mono; [|apply IH].
    intros verified st2 (evs2 & Htr2 & H2).
    exists ([probe] ++ evs1 ++ evs2). rewrite Htr2, Htr1, <- !app_assoc.
    split; [done|].
    destruct verified as [that_id|].
    + destruct H2 as [(before & after & -> & Hp2) Hend]. split.
      * exists (id :: before), after.
        by rewrite !probed_app, Hp1, Hp2.
      * apply (ends_with_first_valid_reply_app [probe]); [done|].
        by apply ends_with_first_valid_reply_app.
    + destruct H2 as [Hp2 Hv2].
      by rewrite !probed_app, !valid_replies_app, Hp1, Hp2, Hv1, Hv2.
Qed.


Lemma extends_refl st : extends st st.
Proof. exists []. by rewrite app_nil_r. Qed.

Lemma extends_trans st1 st2 st3 : extends st1 st2 → extends st2 st3 → extends st1 st3.
Proof.
  intros [evs1 H1] [evs2 H2]. exists (evs1 ++ evs2).
  by rewrite H2, H1, app_assoc.
Qed.

Lemma extends_event st w ev :
  extends st {| world := w; trace := trace st ++ [ev] |}.
Proof. by exists [ev]. Qed.

Lemma extends_reading st w : extends st {| world := w; trace := trace st |}.
Proof. exists []. by rewrite app_nil_r. Qed.

Lemma responses_clear_snoc (blacklist : gset Z) (found : list (Z * Z)) (p : Z * Z) :
  responses_clear blacklist found → p.2 ∉ blacklist →
  responses_clear blacklist (found ++ [p]).
Proof. intros Hf Hp. apply Forall_app. split; [done|]. by apply Forall_singleton. Qed.

Lemma responses_clear_subseteq (blacklist blacklist' : gset Z) (found : list (Z * Z)) :
  blacklist ⊆ blacklist' → responses_clear blacklist' found →
  responses_clear blacklist found.
Proof.
  intros Hsub Hfound. eapply Forall_impl; [exact Hfound|].
  intros p Hp Hin. apply Hp. by apply Hsub.
Qed.

(** Closes the case of a verification that succeeded [k] ids below the
    candidate. *)
Local Ltac backtracked_by k :=
  exists k; split; [lia|];
  split; [cbn [seq fmap list_fmap]; repeat f_equal; lia|];
  split; [done|]; repeat f_equal; lia.

(** The verification of one hit: which ids are probed again, which reply
    ends it, what is recorded and where the scan is set to. *)
Lemma on_valid_response_verify_spec (fuel : nat) (session_control_data : list Z)
    (delay : Z) (send_arbitration_id : Z) (msg : CanMessage)
    (found_arbitration_ids : list (Z * Z)) st :
  wp (on_valid_response env fuel session_control_data delay true
        send_arbitration_id msg found_arbitration_ids)
     (λ r st', ∃ evs,
        trace st' = trace st ++ [EvSetFilter (arbitration_id msg)] ++ evs
                             ++ [EvClearFilters]
        ∧ ((∃ k : nat,
              (k < 5)%nat
              ∧ probed evs = (λ i : nat, send_arbitration_id - Z.of_nat i) <$> seq 0 (S k)
              ∧ ends_with_first_valid_reply evs
              ∧ r = (send_arbitration_id - Z.of_nat k,
                     found_arbitration_ids
                       ++ [(send_arbitration_id - Z.of_nat k, arbitration_id msg)]))
           ∨ (probed evs = [send_arbitration_id; send_arbitration_id - 1;
                            send_arbitration_id - 2; send_arbitration_id - 3;
                            send_arbitration_id - 4]
              ∧ valid_replies evs = []
              ∧ r = (send_arbitration_id, found_arbitration_ids)))) st.
Proof.
  unfold on_valid_response. rewrite verify_id_range_five.
  apply wp_bind, wp_perform. intros [] w [= <-].
  apply wp_bind. eapply wp_mono; [|apply verification_backtrack_spec].
  cbn [trace]. intros verified st1 (evs & Htr & Hv).
  apply wp_bind, wp_perform. intros [] w1 [= <-].
  assert (trace st1 ++ [EvClearFilters]
          = trace st ++ [EvSetFilter (arbitration_id msg)] ++ evs ++ [EvClearFilters])
    as Htrace by (by rewrite Htr, <- !app_assoc).
  destruct verified as [that_id|]; apply wp_ret; exists evs; (split; [done|]).
  - left. destruct Hv as [(before & after & Hids & Hp) Hend]. rewrite Hp.
    destruct before as [|b0 [|b1 [|b2 [|b3 [|b4 before]]]]];
      simplify_eq/=; [..|by destruct before].
    + backtracked_by 0%nat.
    + backtracked_by 1%nat.
    + backtracked_by 2%nat.
    + backtracked_by 3%nat.
    + backtracked_by 4%nat.
  - right. by destruct Hv as [-> ->].
Qed.

(** What a hit does to the findings, with or without verification. *)
Lemma on_valid_response_found (fuel : nat) (session_control_data : list Z)
    (delay : Z) (verify : bool) (send_arbitration_id : Z) (msg : CanMessage)
    (found_arbitration_ids : list (Z * Z)) st :
  wp (on_valid_response env fuel session_control_data delay verify
        send_arbitration_id msg found_arbitration_ids)
     (λ r st',
        (r.2 = found_arbitration_ids
         ∨ ∃ request_id,
             r.2 = found_arbitration_ids ++ [(request_id, arbitration_id msg)])
        ∧ extends st st') st.
Proof.
  destruct verify.
  - eapply wp_mono; [|apply on_valid_response_verify_spec].
    intros r st' (evs & Htr & Hr). split.
    + destruct Hr as [(k & _ & _ & _ & ->)|(_ & _ & ->)]; [right; eauto|by left].
    + by eexists.
  - apply wp_ret. split; [right; eauto|apply extends_refl].
Qed.

Lemma hits_app (blacklist : gset Z) (evs1 evs2 : list Event) :
  hits blacklist (evs1 ++ evs2) = hits blacklist evs1 ++ hits blacklist evs2.
Proof. unfold hits. by rewrite valid_replies_app, filter_app. Qed.

Lemma discovery_listen_spec (fuel : nat) (session_control_data : list Z)
    (delay : Z) (verify : bool) (blacklist : gset Z) (end_time : Z)
    (send_arbitration_id : Z) (found_arbitration_ids : list (Z * Z)) st :
  wp (discovery_listen env fuel session_control_data delay verify blacklist
        end_time send_arbitration_id found_arbitration_ids)
     (λ r st',
        (responses_clear blacklist found_arbitration_ids →
         responses_clear blacklist r.2)
        ∧ ∃ evs, trace st' = trace st ++ evs
                 ∧ (hits blacklist evs = [] →
                    r = (send_arbitration_id, found_arbitration_ids))) st.
Proof.
  revert send_arbitration_id found_arbitration_ids st.
  induction fuel as [|fuel IH]; intros send_id found st; [apply wp_out_of_fuel|].
  cbn [discovery_listen]. apply wp_bind, wp_reading. intros now w _.
  destruct (now <? end_time).
  2:{ apply wp_ret. split; [done|]. exists []. by rewrite app_nil_r. }
  apply wp_bind, wp_perform. intros msg w' _. cbn [trace].
  set (st1 := {| world := w'; trace := trace st ++ [EvRecv msg] |}).
  assert (hits blacklist [EvRecv msg] = [] →
          wp (discovery_listen env fuel session_control_data delay verify
                blacklist end_time send_id found)
             (λ r st',
                (responses_clear blacklist found → responses_clear blacklist r.2)
                ∧ ∃ evs, trace st' = trace st ++ evs
                         ∧ (hits blacklist evs = [] → r = (send_id, found))) st1)
    as Hskip.
  { intros Hnone. eapply wp_mono; [|by apply IH].
    intros r st' [Hr (evs & Htr & Hsame)]. split; [done|].
    exists ([EvRecv msg] ++ evs). unfold st1 in Htr. cbn [trace] in Htr.
    rewrite Htr, <- app_assoc. split; [done|].
    by rewrite hits_app, Hnone. }
  destruct msg as [msg|]; [|by apply Hskip].
  case_bool_decide as Hblack.
  { apply Hskip. unfold hits. cbn. destruct (is_valid_response msg); [|done].
    by rewrite filter_cons_False by (by intros ?). }
  destruct (is_valid_response msg) eqn:Hvalid.
  2:{ apply Hskip. unfold hits. cbn. by rewrite Hvalid. }
  apply wp_bind. eapply wp_mono; [|apply on_valid_response_found].
  intros [send_id' found'] st2 [Hfound' [evs2 Htr2]].
  unfold st1 in Htr2. cbn [snd trace] in Hfound', Htr2.
  eapply wp_mono; [|apply IH].
  intros r st' [Hr (evs3 & Htr3 & _)]. split.
  - intros Hfound. apply Hr.
    destruct Hfound' as [->|[request_id ->]]; [done|].
    by apply responses_clear_snoc.
  - exists ([EvRecv (Some msg)] ++ evs2 ++ evs3).
    rewrite Htr3, Htr2, <- !app_assoc. split; [done|].
    rewrite hits_app. unfold hits at 1. cbn. rewrite Hvalid.
    by rewrite filter_cons_True.
Qed.

Lemma discovery_scan_spec (fuel : nat) (session_control_data : list Z)
    (delay : Z) (verify : bool) (blacklist : gset Z) (max_id : Z)
    (send_arbitration_id : Z) (found_arbitration_ids : list (Z * Z)) st :
  wp (discovery_scan env fuel session_control_data delay verify blacklist
        max_id send_arbitration_id found_arbitration_ids)
     (λ found st',
        (responses_clear blacklist found_arbitration_ids →
         responses_clear blacklist found)
        ∧ ∃ evs, trace st' = trace st ++ evs
                 ∧ (send_arbitration_id < max_id →
                    ∃ evs', evs = EvTransmit session_control_data
                                    (send_arbitration_id + 1) :: evs')) st.
Proof.
  revert send_arbitration_id found_arbitration_ids st.
  induction fuel as [|fuel IH]; intros send_id found st; [apply wp_out_of_fuel|].
  cbn [discovery_scan].
  destruct (send_id <? max_id) eqn:Hlt.
  2:{ apply wp_ret. split; [done|]. exists []. rewrite app_nil_r.
      split; [done|]. apply Z.ltb_ge in Hlt. lia. }
  apply wp_bind, wp_perform. intros [] w [= <-].
  apply wp_bind, wp_reading. intros now w' _. cbn [trace].
  apply wp_bind. eapply wp_mono; [|by apply discovery_listen_spec].
  intros [send_id' found'] st1 [Hfound' (evs1 & Hext1 & _)].
  cbn [snd trace] in Hfound', Hext1.
  eapply wp_mono; [|by apply IH].
  intros r st' [Hr (evs2 & Hext & _)]. split; [auto|].
  exists (EvTransmit session_control_data (send_id + 1) :: evs1 ++ evs2).
  split; [|eauto].
  rewrite Hext, Hext1, <- !app_assoc. done.
Qed.




Lemma wp_with_IsoTp {A} (arb_id_request arb_id_response : option Z)
    (body : M W A) (Q : A → State W → Prop) st :
  wp body
     (λ a st', Q a {| world := isotp_exit env (world st');
                      trace := trace st' ++ [EvExit] |})
     {| world := isotp_enter env arb_id_request arb_id_response (world st);
        trace := trace st ++ [EvEnter arb_id_request arb_id_response] |} →
  wp (with_IsoTp env arb_id_request arb_id_response body) Q st.
Proof.
  unfold wp, with_IsoTp. by destruct (body _) as [[a| |] st'].
Qed.

End Discovery.

Section DiscoveryTheorems.
Context {W : Type} (env : Env W).
Variables ARBITRATION_ID_MIN ARBITRATION_ID_MAX ARBITRATION_ID_MAX_EXTENDED : Z.
Implicit Types st : State W.

Implicit Types min_id max_id auto_blacklist_duration : option Z.

(** Past the sanity checks the scan raises nothing, and it keeps the
    response ids of the findings out of the blacklist. *)
Lemma uds_discovery_scan_spec (fuel : nat) (min_id max_id : option Z)
    (blacklist_args : option (list Z)) (auto_blacklist_duration : option Z)
    (delay : Z) (verify : bool) st :
  ¬ default_max_id ARBITRATION_ID_MIN ARBITRATION_ID_MAX
      ARBITRATION_ID_MAX_EXTENDED min_id max_id
    < default_min_id ARBITRATION_ID_MIN min_id →
  ¬ default 0 auto_blacklist_duration < 0 →
  wp (uds_discovery env ARBITRATION_ID_MIN ARBITRATION_ID_MAX
        ARBITRATION_ID_MAX_EXTENDED fuel min_id max_id blacklist_args
        auto_blacklist_duration delay verify)
     (λ found _, responses_clear (list_to_set (default [] blacklist_args)) found) st.
Proof.
  intros Hbounds Hduration. unfold uds_discovery.
  rewrite (proj2 (Z.ltb_ge _ _)) by lia. rewrite (proj2 (Z.ltb_ge _ _)) by lia.
  apply wp_with_IsoTp, wp_bind.
  set (blacklist := list_to_set (default [] blacklist_args) : gset Z).
  assert (responses_clear blacklist []) as Hnil by apply Forall_nil_2.
  destruct (default 0 auto_blacklist_duration >? 0).
  - apply wp_bind, wp_perform. intros auto_blacklist_arb_ids w _. apply wp_ret.
    eapply wp_mono; [|apply discovery_scan_spec].
    intros found st' [Hclear _]. cbn beta.
    apply (responses_clear_subseteq _ (blacklist ∪ auto_blacklist_arb_ids));
      [set_solver|].
    apply Hclear, Forall_nil_2.
  - apply wp_ret. eapply wp_mono; [|apply discovery_scan_spec].
    intros found st' [Hclear _]. by apply Hclear.
Qed.

(** The three ways a run can go. *)
Lemma uds_discovery_cases (fuel : nat) (min_id max_id : option Z)
    (blacklist_args : option (list Z)) (auto_blacklist_duration : option Z)
    (delay : Z) (verify : bool) st :
  let run :=
    uds_discovery env ARBITRATION_ID_MIN ARBITRATION_ID_MAX
      ARBITRATION_ID_MAX_EXTENDED fuel min_id max_id blacklist_args
      auto_blacklist_duration delay verify st in
  let inverted :=
    default_max_id ARBITRATION_ID_MIN ARBITRATION_ID_MAX
      ARBITRATION_ID_MAX_EXTENDED min_id max_id
    < default_min_id ARBITRATION_ID_MIN min_id in
  let negative := default 0 auto_blacklist_duration < 0 in
  ((inverted ∨ negative) ∧ (∃ msg args, run.1 = Raise (ValueError msg args))
   ∧ run.2 = st)
  ∨ (¬ (inverted ∨ negative)
     ∧ (∀ e, run.1 ≠ Raise e)
     ∧ ∀ found, run.1 = Ok found →
         responses_clear (list_to_set (default [] blacklist_args)) found).
Proof.
  intros run inverted negative.
  destruct (decide inverted) as [Hinv|Hinv].
  { left. split; [by left|].
    assert (run = (Raise (ValueError "max_id must not be smaller than min_id"
                            [default_min_id ARBITRATION_ID_MIN min_id;
                             default_max_id ARBITRATION_ID_MIN ARBITRATION_ID_MAX
                               ARBITRATION_ID_MAX_EXTENDED min_id max_id]), st))
      as ->; [|eauto].
    unfold run, uds_discovery.
    by rewrite (proj2 (Z.ltb_lt _ _) Hinv). }
  destruct (decide negative) as [Hneg|Hneg].
  { left. split; [by right|].
    assert (run = (Raise (ValueError "auto_blacklist_duration must not be smaller than 0"
                            [default 0 auto_blacklist_duration]), st))
      as ->; [|eauto].
    unfold run, uds_discovery.
    rewrite (proj2 (Z.ltb_ge _ _)) by (unfold inverted in Hinv; lia).
    by rewrite (proj2 (Z.ltb_lt _ _) Hneg). }
  right. split; [tauto|].
  pose proof (uds_discovery_scan_spec fuel min_id max_id blacklist_args
                auto_blacklist_duration delay verify st Hinv Hneg) as Hspec.
  unfold wp in Hspec. fold run in Hspec. destruct run as [r st'].
  cbn [fst]. split.
  - intros e ->. done.
  - intros found ->. done.
Qed.

(** C8: [uds_discovery] raises [ValueError] exactly when, after the
    defaults are set, [max_id < min_id] or [auto_blacklist_duration < 0];
    the error leaves the world and the trace as they were: no transport is
    opened and no frame is transmitted. *)
Theorem uds_discovery_argument_error (fuel : nat) (min_id max_id : option Z)
    (blacklist_args : option (list Z)) (auto_blacklist_duration : option Z)
    (delay : Z) (verify : bool) (st : State W) :
  let run :=
    uds_discovery env ARBITRATION_ID_MIN ARBITRATION_ID_MAX
      ARBITRATION_ID_MAX_EXTENDED fuel min_id max_id blacklist_args
      auto_blacklist_duration delay verify st in
  let min_id' := default_min_id ARBITRATION_ID_MIN min_id in
  let max_id' :=
    default_max_id ARBITRATION_ID_MIN ARBITRATION_ID_MAX
      ARBITRATION_ID_MAX_EXTENDED min_id max_id in
  let auto_blacklist_duration' := default 0 auto_blacklist_duration in
  ((∃ msg args, run.1 = Raise (ValueError msg args))
   ↔ max_id' < min_id' ∨ auto_blacklist_duration' < 0)
  ∧ (max_id' < min_id' ∨ auto_blacklist_duration' < 0 → run.2 = st).
Proof.
  intros run min_id' max_id' auto_blacklist_duration'.
  destruct (uds_discovery_cases fuel min_id max_id blacklist_args
              auto_blacklist_duration delay verify st)
    as [(Hcond & Hraise & Hst)|(Hcond & Hraise & _)].
  - done.
  - split; [|done]. split; [|done].
    intros (msg & args & Hrun). by destruct (Hraise _ Hrun).
Qed.

(** C4, amended: no response id of a pair that [uds_discovery] returns is
    in the user-supplied blacklist.  (Request ids are not filtered.) *)
Theorem uds_discovery_response_ids_not_blacklisted (fuel : nat)
    (min_id max_id : option Z) (blacklist_args : list Z)
    (auto_blacklist_duration : option Z) (delay : Z) (verify : bool)
    (st : State W) (found : list (Z * Z)) (st' : State W) :
  uds_discovery env ARBITRATION_ID_MIN ARBITRATION_ID_MAX
    ARBITRATION_ID_MAX_EXTENDED fuel min_id max_id (Some blacklist_args)
    auto_blacklist_duration delay verify st = (Ok found, st') →
  ∀ request_id response_id,
    (request_id, response_id) ∈ found → response_id ∉ blacklist_args.
Proof.
  intros Hrun request_id response_id Hin.
  destruct (uds_discovery_cases fuel min_id max_id (Some blacklist_args)
              auto_blacklist_duration delay verify st)
    as [(_ & (msg & args & Hraise) & _)|(_ & _ & Hclear)];
    rewrite Hrun in *; [done|].
  specialize (Hclear found eq_refl).
  unfold responses_clear in Hclear. rewrite Forall_forall in Hclear.
  specialize (Hclear _ Hin). cbn [snd default] in Hclear. set_solver.
Qed.

End DiscoveryTheorems.

(** ** Concrete runs of the discovery scan *)

Lemma uds_discovery_argument_error_witness :
  let run := uds_discovery (mock_env 1 no_ecu (λ _, [])) 0x000 0x7FF 0x1FFFFFFF
               10 (Some 0x7E8) (Some 0x7E0) None None 10 true mock_start in
  (∃ msg args, run.1 = Raise (ValueError msg args)) ∧ run.2 = mock_start.
Proof.
  intros run.
  destruct (uds_discovery_argument_error (mock_env 1 no_ecu (λ _, []))
              0x000 0x7FF 0x1FFFFFFF 10 (Some 0x7E8) (Some 0x7E0) None None
              10 true mock_start) as [Hraise Hstate].
  split; [apply Hraise|apply Hstate]; left; cbn; lia.
Defined.

(** C4, counterexample: the blacklist holds 0x7E0, the scan covers the
    request id 0x7E0 alone, and an ECU answers that probe from 0x7E8; the
    returned pair (0x7E0, 0x7E8) has a blacklisted request id. *)
Lemma uds_discovery_blacklisted_request_id :
  let blacklist_args := [0x7E0] in
  let run := uds_discovery (mock_env 1 (one_ecu 0x7E0 0x7E8 0) (λ _, []))
               0x000 0x7FF 0x1FFFFFFF 100 (Some 0x7E0) (Some 0x7E0)
               (Some blacklist_args) None 10 false mock_start in
  run.1 = Ok [(0x7E0, 0x7E8)]
  ∧ ¬ (∀ request_id response_id,
         (request_id, response_id) ∈ [(0x7E0, 0x7E8)] →
         (request_id ∉ blacklist_args) ∧ (response_id ∉ blacklist_args)).
Proof.
  intros blacklist_args run. split; [vm_compute; reflexivity|].
  intros H. destruct (H 0x7E0 0x7E8) as [Hreq _]; [constructor|].
  apply Hreq. constructor.
Qed.

Lemma uds_discovery_response_ids_not_blacklisted_witness :
  let env := mock_env 1 (one_ecu 0x7E0 0x7E8 0) (λ _, []) in
  let run := uds_discovery env 0x000 0x7FF 0x1FFFFFFF 100 (Some 0x7E0)
               (Some 0x7E1) (Some [0x7E0]) None 10 true mock_start in
  run.1 = Ok [(0x7E0, 0x7E8)]
  ∧ ∀ request_id response_id,
      (request_id, response_id) ∈ [(0x7E0, 0x7E8)] → response_id ∉ [0x7E0].
Proof.
  intros env run. split; [vm_compute; reflexivity|].
  apply (uds_discovery_response_ids_not_blacklisted env 0x000 0x7FF 0x1FFFFFFF
           100 (Some 0x7E0) (Some 0x7E1) [0x7E0] None 10 true mock_start
           [(0x7E0, 0x7E8)] run.2).
  vm_compute. reflexivity.
Defined.

Lemma mock_clock_advances (tick : Z) (ecu : Z → list (Z * CanMessage))
    (server : list Z → list (list Z)) :
  0 < tick → advancing_clock (mock_env tick ecu server) mock_now.
Proof.
  intros Htick. split.
  - intros w. cbn. lia.
  - intros timeout w. cbn. by destruct (take_frame _ _ _).
Qed.

(** * Further properties *)

(** ** Session names and security levels *)

Lemma land_0x7F_range (x : Z) : 0 ≤ Z.land x 0x7F < 128.
Proof. rewrite land_0x7F_mod. apply Z.mod_pos_bound. lia. Qed.

(** X1: the names agree with the validity check.  [get_name] answers
    "!!ISO_SAE_RESERVED!!" exactly for the session types that
    [is_valid_session] rejects, it never falls back to
    "!!UNKNOWN_SESSION_TYPE!!", and like the check it ignores the
    suppress-positive-response bit 0x80. *)
Theorem get_name_agrees_with_is_valid_session (s : Z) :
  (is_valid_session s = false ↔ get_name s = "!!ISO_SAE_RESERVED!!")
  ∧ get_name s ≠ "!!UNKNOWN_SESSION_TYPE!!"
  ∧ get_name (Z.lor s 0x80) = get_name s.
Proof.
  assert (∀ x, Z.land (Z.lor x 0x80) 0x7f = Z.land x 0x7f) as Hmask.
  { intros x. rewrite (Z.land_comm (Z.lor x 0x80)), land_0x7F_lor_0x80.
    apply Z.land_comm. }
  split; [|split]; [| |unfold get_name; by rewrite Hmask].
  all: unfold is_valid_session, get_name; rewrite ?(Z.land_comm 0x7f s).
  all: pose proof (land_0x7F_range s) as Hrange.
  all: change (Z.land s 127) with (Z.land s 0x7f) in *.
  all: generalize dependent (Z.land s 0x7f); intros v Hrange.
  all: unfold DEFAULT_SESSION, PROGRAMMING_SESSION, EXTENDED_DIAGNOSTIC_SESSION,
         SAFETY_SYSTEM_DIAGNOSTIC_SESSION, VEHICLE_MANUFACTURER_SESSION_MAX,
         VEHICLE_MANUFACTURER_SESSION_MIN, SYSTEM_SUPPLIER_SESSION_MAX,
         SYSTEM_SUPPLIER_SESSION_MIN, ISO_SAE_RESERVED_MAX, ISO_SAE_RESERVED_MIN.
  all: destruct (decide (v = 1)) as [->|]; [by vm_compute|].
  all: destruct (decide (v = 2)) as [->|]; [by vm_compute|].
  all: destruct (decide (v = 3)) as [->|]; [by vm_compute|].
  all: destruct (decide (v = 4)) as [->|]; [by vm_compute|].
  all: destruct (v =? 1) eqn:E1, (v =? 2) eqn:E2, (v =? 3) eqn:E3, (v =? 4) eqn:E4;
         try lia.
  all: destruct (v =? 0) eqn:E0, (v =? 127) eqn:E127, (v <=? 63) eqn:E63,
         (v >=? 5) eqn:E5, (v <=? 95) eqn:E95, (v >=? 64) eqn:E64,
         (v <=? 126) eqn:E126, (v >=? 96) eqn:E96; try lia; by cbn.
Qed.

(** X2: the send key levels are the request seed levels plus one, and no
    level is both.  Every valid send key level [L] follows the valid
    request seed level [L - 1]. *)
Theorem send_key_level_has_request_seed (L : Z) :
  is_valid_send_key_level L = true →
  is_valid_request_seed_level (L - 1) = true
  ∧ get_send_key_for_request_seed (L - 1) = L
  ∧ is_valid_request_seed_level L = false.
Proof.
  unfold is_valid_request_seed_level, is_valid_send_key_level,
    get_send_key_for_request_seed, REQUEST_SEED_MIN, REQUEST_SEED_MAX,
    SEND_KEY_MIN, SEND_KEY_MAX.
  rewrite !land_0x7F_mod. intros H.
  apply andb_prop in H as [Hint Heven]. apply andb_prop in Hint as [Hlo Hhi].
  apply Z.eqb_eq in Heven.
  assert ((L - 1) `mod` 128 = L `mod` 128 - 1) as Hpred.
  { rewrite Zminus_mod. rewrite (Z.mod_small 1) by lia. apply Z.mod_small. lia. }
  assert ((L `mod` 128 - 1) `mod` 2 = 1) as Hodd.
  { rewrite Zminus_mod, Heven. done. }
  split; [|split]; [|lia|].
  - rewrite Hpred, Hodd. apply andb_true_intro. split; [|done].
    apply andb_true_intro. split; lia.
  - rewrite Heven. apply andb_false_r.
Qed.

Lemma send_key_level_has_request_seed_witness :
  is_valid_request_seed_level (0x42 - 1) = true
  ∧ get_send_key_for_request_seed (0x42 - 1) = 0x42
  ∧ is_valid_request_seed_level 0x42 = false.
Proof. apply (send_key_level_has_request_seed 0x42). reflexivity. Defined.

(** X3: a response that starts with the response id of service [sid] is
    classified as positive for every service but 0x3F, whose response id
    0x3F + 0x40 is the negative response marker 0x7F. *)
Theorem response_id_is_positive_response (sid : Z) (rest : list Z) :
  is_positive_response (Some (get_service_response_id sid :: rest)) = true
  ↔ sid ≠ 0x3F.
Proof.
  unfold is_positive_response, get_service_response_id, Constants.NR_SI.
  assert ((len (sid + 64 :: rest) >? 0) = true) as ->
    by (apply Z.gtb_lt; unfold len; cbn [length]; lia).
  cbn [andb lookup list_lookup]. rewrite negb_true_iff, bool_decide_eq_false.
  split; intros H; [intros ->; by apply H|intros [= Heq]; lia].
Qed.

(** ** Request encoders *)

Lemma foldl_ext_all {A B} (f g : A → B → A) (l : list B) (a : A) :
  (∀ a x, f a x = g a x) → foldl f a l = foldl g a l.
Proof.
  intros Hfg. revert a. induction l as [|x l IH]; intros a; [done|].
  cbn. by rewrite Hfg, IH.
Qed.

Lemma range_0_S (n : nat) :
  range 0 (Z.of_nat (S n)) = 0 :: ((λ i, i + 1) <$> range 0 (Z.of_nat n)).
Proof.
  unfold range. rewrite !Z.sub_0_r, !Nat2Z.id. cbn [seq fmap list_fmap].
  f_equal. rewrite <- fmap_S_seq, <- !list_fmap_compose.
  apply list_fmap_ext. intros _ i _. cbn. lia.
Qed.

Lemma range_0_snoc (n : nat) :
  range 0 (Z.of_nat (S n)) = range 0 (Z.of_nat n) ++ [Z.of_nat n].
Proof.
  unfold range. rewrite !Z.sub_0_r, !Nat2Z.id, seq_S, fmap_app. done.
Qed.

Lemma land_0xFF_mod (x : Z) : Z.land x 0xFF = x `mod` 256.
Proof. change 0xFF with (Z.ones 8). by rewrite Z.land_ones. Qed.

Lemma length_big_endian (n : nat) (value : Z) : length (big_endian n value) = n.
Proof.
  revert value. induction n as [|n IH]; intros value; [done|].
  cbn [big_endian]. rewrite length_app, IH. cbn. lia.
Qed.

Lemma big_endian_bytes (n : nat) (value : Z) :
  Forall (λ b, 0 ≤ b ≤ 0xFF) (big_endian n value).
Proof.
  revert value. induction n as [|n IH]; intros value; [constructor|].
  cbn [big_endian]. apply Forall_app. split; [apply IH|].
  apply Forall_singleton. rewrite land_0xFF_mod.
  pose proof (Z.mod_pos_bound value 256). lia.
Qed.

Lemma from_big_endian_snoc (bytes : list Z) (b : Z) :
  from_big_endian (bytes ++ [b]) = from_big_endian bytes * 256 + b.
Proof. unfold from_big_endian. by rewrite foldl_snoc. Qed.

Lemma from_big_endian_big_endian (n : nat) (value : Z) :
  from_big_endian (big_endian n value) = value `mod` 2 ^ (8 * Z.of_nat n).
Proof.
  revert value. induction n as [|n IH]; intros value.
  { cbn. by rewrite Z.mod_1_r. }
  cbn [big_endian]. rewrite from_big_endian_snoc, IH.
  rewrite land_0xFF_mod, Z.shiftr_div_pow2 by lia.
  replace (8 * Z.of_nat (S n)) with (8 + 8 * Z.of_nat n) by lia.
  rewrite Z.pow_add_r by lia.
  assert (0 < 2 ^ (8 * Z.of_nat n)) by (apply Z.pow_pos_nonneg; lia).
  change (2 ^ 8) with 256.
  rewrite (Z.rem_mul_r value 256 (2 ^ (8 * Z.of_nat n))) by lia. lia.
Qed.

(** The loop of the memory services writes the field most significant
    byte first, over whatever the field held. *)
Lemma fill_field_spec (n : nat) (pre mid post : list Z) (value : Z) :
  length mid = n →
  fill_field (pre ++ mid ++ post) (Z.of_nat (length pre)) (Z.of_nat n) value
  = (pre ++ big_endian n value ++ post, value ≫ (8 * Z.of_nat n)).
Proof.
  revert mid post value. induction n as [|n IH]; intros mid post value Hmid.
  { destruct mid; [|done]. unfold fill_field. cbn. by rewrite Z.shiftr_0_r. }
  destruct mid as [|last mid' _] using rev_ind; [done|].
  rewrite length_app in Hmid. cbn in Hmid.
  unfold fill_field. rewrite range_0_S. cbn [foldl].
  rewrite foldl_fmap.
  replace (Z.to_nat (Z.of_nat (S n) + Z.of_nat (length pre) - 0 - 1))
    with (length (pre ++ mid') + 0)%nat by (rewrite length_app; lia).
  replace (pre ++ (mid' ++ [last]) ++ post) with ((pre ++ mid') ++ last :: post)
    by (by rewrite <- !app_assoc).
  rewrite insert_app_r. cbn [insert list_insert].
  rewrite (foldl_ext_all _
             (λ '(request, value) i,
                (<[Z.to_nat (Z.of_nat n + Z.of_nat (length pre) - i - 1) :=
                     Z.land value 0xFF]> request, value ≫ 8))).
  2:{ intros [request v] i. do 2 f_equal. lia. }
  rewrite <- app_assoc.
  pose proof (IH mid' (Z.land value 0xFF :: post) (value ≫ 8)) as Hrest.
  unfold fill_field in Hrest. rewrite Hrest by lia.
  cbn [big_endian]. rewrite <- !app_assoc. cbn [app].
  f_equal. rewrite Z.shiftr_shiftr by lia. f_equal. lia.
Qed.

Lemma land_0xF_nonneg (x : Z) : 0 ≤ Z.land x 0xF.
Proof. apply Z.land_nonneg. lia. Qed.

(** Runs the two field loops of a memory request whose first byte is
    [sid]. *)
Local Ltac run_field_loops sid alf a d memory_address memory_size :=
  pose proof (land_0xF_nonneg (alf ≫ 4)) as Ha;
  pose proof (land_0xF_nonneg alf) as Hd;
  fold a d;
  replace (Z.to_nat (1 + 1 + a + d)) with (2 + (Z.to_nat a + Z.to_nat d))%nat by lia;
  rewrite !replicate_add; cbn [replicate app insert list_insert];
  let H1 := fresh "H1" in
  pose proof (fill_field_spec (Z.to_nat a) [sid; alf]
                (replicate (Z.to_nat a) 0) (replicate (Z.to_nat d) 0)
                memory_address (length_replicate _ _)) as H1;
  cbn [length] in H1; rewrite Z2Nat.id in H1 by done;
  change (Z.of_nat 2) with 2 in H1; cbn [app] in H1; rewrite H1;
  let H2 := fresh "H2" in
  pose proof (fill_field_spec (Z.to_nat d)
                ([sid; alf] ++ big_endian (Z.to_nat a) memory_address)
                (replicate (Z.to_nat d) 0) [] memory_size (length_replicate _ _)) as H2;
  rewrite length_app, length_big_endian in H2; cbn [length] in H2;
  rewrite Z2Nat.id in H2 by done;
  replace (Z.of_nat (2 + Z.to_nat a)) with (2 + a) in H2 by lia;
  rewrite !app_nil_r in H2; cbn [app] in H2; rewrite H2.

Lemma read_memory_by_address_request_eq
    (address_and_length_format memory_address memory_size : Z) :
  let a := Z.land (address_and_length_format ≫ 4) 0xF in
  let d := Z.land address_and_length_format 0xF in
  read_memory_by_address_request address_and_length_format memory_address memory_size
  = [0x23; address_and_length_format]
    ++ big_endian (Z.to_nat a) memory_address
    ++ big_endian (Z.to_nat d) memory_size.
Proof.
  intros a d. unfold read_memory_by_address_request, READ_MEMORY_BY_ADDRESS.
  run_field_loops 0x23 address_and_length_format a d memory_address memory_size.
  done.
Qed.

Lemma write_memory_by_address_request_eq
    (address_and_length_format memory_address memory_size : Z) (data : list Z) :
  let a := Z.land (address_and_length_format ≫ 4) 0xF in
  let d := Z.land address_and_length_format 0xF in
  write_memory_by_address_request address_and_length_format memory_address
    memory_size data
  = [0x3D; address_and_length_format]
    ++ big_endian (Z.to_nat a) memory_address
    ++ big_endian (Z.to_nat d) memory_size ++ data.
Proof.
  intros a d. unfold write_memory_by_address_request, WRITE_MEMORY_BY_ADDRESS.
  run_field_loops 0x3D address_and_length_format a d memory_address memory_size.
  cbn [app]. by rewrite <- app_assoc.
Qed.

(** X4: the request of [read_memory_by_address] is the service id 0x23, the
    format byte, then the address in as many bytes as the high nibble of the
    format says and the size in as many bytes as the low nibble says, each
    most significant byte first.  A field keeps its value modulo 256 to the
    power of its width: wider addresses and sizes are cut off silently. *)
Theorem read_memory_by_address_request_layout
    (address_and_length_format memory_address memory_size : Z) :
  let a := Z.to_nat (Z.land (address_and_length_format ≫ 4) 0xF) in
  let d := Z.to_nat (Z.land address_and_length_format 0xF) in
  ∃ address_bytes size_bytes,
    read_memory_by_address_request address_and_length_format memory_address
      memory_size
    = [0x23; address_and_length_format] ++ address_bytes ++ size_bytes
    ∧ length address_bytes = a ∧ length size_bytes = d
    ∧ Forall (λ b, 0 ≤ b ≤ 0xFF) (address_bytes ++ size_bytes)
    ∧ from_big_endian address_bytes = memory_address `mod` 2 ^ (8 * Z.of_nat a)
    ∧ from_big_endian size_bytes = memory_size `mod` 2 ^ (8 * Z.of_nat d).
Proof.
  intros a d. exists (big_endian a memory_address), (big_endian d memory_size).
  split; [apply read_memory_by_address_request_eq|].
  rewrite !length_big_endian, !from_big_endian_big_endian.
  repeat split. apply Forall_app. split; apply big_endian_bytes.
Qed.

(** The encoding example of the spec. *)
Lemma read_memory_by_address_request_example :
  read_memory_by_address_request 0x42 0x11223344 0x5566
  = [0x23; 0x42; 0x11; 0x22; 0x33; 0x44; 0x55; 0x66].
Proof. vm_compute. reflexivity. Qed.

(** X5: the request of [write_memory_by_address] is the request of
    [read_memory_by_address] for the same format, address and size with the
    service id 0x3D in place of 0x23, followed by the data; the data is not
    cut to the announced size. *)
Theorem write_memory_by_address_request_layout
    (address_and_length_format memory_address memory_size : Z) (data : list Z) :
  write_memory_by_address_request address_and_length_format memory_address
    memory_size data
  = <[0%nat := 0x3D]> (read_memory_by_address_request address_and_length_format
                         memory_address memory_size) ++ data
  ∧ len (write_memory_by_address_request address_and_length_format
           memory_address memory_size data)
    = 2 + Z.land (address_and_length_format ≫ 4) 0xF
        + Z.land address_and_length_format 0xF + len data.
Proof.
  pose proof (land_0xF_nonneg (address_and_length_format ≫ 4)).
  pose proof (land_0xF_nonneg address_and_length_format).
  rewrite write_memory_by_address_request_eq, read_memory_by_address_request_eq.
  split.
  - cbn [app insert list_insert]. by rewrite <- !app_assoc.
  - unfold len. rewrite !length_app, !length_big_endian. cbn [length]. lia.
Qed.

(** The bytes of one data identifier in a request. *)
Lemma big_endian_2 (value : Z) :
  big_endian 2 value = [Z.land (value ≫ 8) 0xFF; Z.land value 0xFF].
Proof. reflexivity. Qed.

Lemma big_endian_2_id (value : Z) :
  0 ≤ value ≤ 0xFFFF →
  Z.land (value ≫ 8) 0xFF * 256 + Z.land value 0xFF = value.
Proof.
  intros Hvalue. pose proof (from_big_endian_big_endian 2 value) as H.
  rewrite big_endian_2 in H. unfold from_big_endian in H. cbn [foldl] in H.
  change (2 ^ (8 * Z.of_nat 2)) with 65536 in H.
  rewrite Z.mod_small in H by lia. lia.
Qed.

Lemma length_bind_big_endian_2 (ids : list Z) :
  length (ids ≫= big_endian 2) = (2 * length ids)%nat.
Proof.
  induction ids as [|did ids IH]; [done|].
  cbn [mbind list_bind]. rewrite length_app, IH. cbn [length big_endian app]. lia.
Qed.

Lemma read_data_by_identifier_loop (identifier : list Z) (k : nat) :
  (k ≤ length identifier)%nat →
  foldl (λ request i,
           let did := default 0 (identifier !! Z.to_nat i) in
           let request :=
             <[Z.to_nat (i * 2 + 1) := Z.land (did ≫ 8) 0xFF]> request in
           <[Z.to_nat (i * 2 + 2) := Z.land did 0xFF]> request)
        (<[0%nat := ServiceID.READ_DATA_BY_IDENTIFIER]>
           (replicate (Z.to_nat (len identifier * 2 + 1)) 0))
        (range 0 (Z.of_nat k))
  = (0x22 :: (take k identifier ≫= big_endian 2))
    ++ replicate (2 * (length identifier - k)) 0.
Proof.
  induction k as [|k IH]; intros Hk.
  { unfold len.
    replace (Z.to_nat (Z.of_nat (length identifier) * 2 + 1))
      with (S (2 * length identifier)) by lia.
    cbn [replicate insert list_insert range foldl take]. f_equal.
    by rewrite Nat.sub_0_r. }
  rewrite range_0_snoc, foldl_snoc, IH by lia. clear IH.
  destruct (lookup_lt_is_Some_2 identifier k) as [did Hdid]; [lia|].
  rewrite Nat2Z.id, Hdid. cbn [default].
  replace (2 * (length identifier - k))%nat
    with (S (S (2 * (length identifier - S k)))) by lia.
  cbn [replicate].
  set (sent := 0x22 :: (take k identifier ≫= big_endian 2)).
  assert (length sent = (2 * k + 1)%nat) as Hlen.
  { unfold sent. cbn [length]. rewrite length_bind_big_endian_2, length_take. lia. }
  replace (Z.to_nat (Z.of_nat k * 2 + 1)) with (length sent + 0)%nat by lia.
  rewrite insert_app_r.
  replace (Z.to_nat (Z.of_nat k * 2 + 2)) with (length sent + 1)%nat by lia.
  rewrite insert_app_r. cbn [insert list_insert].
  unfold sent. rewrite (take_S_r _ _ _ Hdid), (bind_app (big_endian 2)), bind_singleton.
  rewrite big_endian_2. cbn [app]. by rewrite <- app_assoc.
Qed.

(** X6: for a list of data identifiers that is not empty,
    [read_data_by_identifier] sends one request, the service id 0x22
    followed by the two bytes of every identifier in turn, high byte
    first, and then waits for the response. *)
Theorem read_data_by_identifier_request_layout {W} (env : Env W) (fuel : nat)
    (self : Z) (identifier : list Z) :
  identifier ≠ [] →
  read_data_by_identifier env fuel self identifier
  = (send_request env (0x22 :: (identifier ≫= big_endian 2));;
     receive_response env fuel self).
Proof.
  intros Hne. unfold read_data_by_identifier.
  assert ((len identifier >? 0) = true) as ->.
  { apply Z.gtb_lt. unfold len. destruct identifier; [done|]. cbn [length]. lia. }
  pose proof (read_data_by_identifier_loop identifier (length identifier)
                (Nat.le_refl _)) as Hloop.
  fold (len identifier) in Hloop. cbn zeta in Hloop. cbn zeta.
  rewrite Hloop, take_ge, Nat.sub_diag, app_nil_r by done. done.
Qed.

Lemma read_data_by_identifier_request_layout_witness :
  read_data_by_identifier (mock_env 1 no_ecu (λ _, [])) 10 P3_CLIENT [0xF190; 0xF18C]
  = (send_request (mock_env 1 no_ecu (λ _, []))
       (0x22 :: ([0xF190; 0xF18C] ≫= big_endian 2));;
     receive_response (mock_env 1 no_ecu (λ _, [])) 10 P3_CLIENT).
Proof. by apply read_data_by_identifier_request_layout. Defined.

Lemma dynamically_define_loop (sub_function_arg : list DynamicallyDefinedIdentifierArg)
    (sent : list Z) :
  foldl (λ '(request, offset) did,
           let request :=
             <[Z.to_nat (offset + 0) :=
                 Z.land (sourceDataIdentifier did ≫ 8) 0xFF]> request in
           let request :=
             <[Z.to_nat (offset + 1) :=
                 Z.land (sourceDataIdentifier did) 0xFF]> request in
           let request :=
             <[Z.to_nat (offset + 2) := positionInSourceDataRecord did]> request in
           let request :=
             <[Z.to_nat (offset + 3) := memorySize did]> request in
           (request, offset + 4))
        (sent ++ replicate (4 * length sub_function_arg) 0, Z.of_nat (length sent))
        sub_function_arg
  = (sent ++ (sub_function_arg ≫= source_definition_bytes),
     Z.of_nat (length sent) + 4 * Z.of_nat (length sub_function_arg)).
Proof.
  revert sent. induction sub_function_arg as [|did rest IH]; intros sent.
  { cbn. f_equal. lia. }
  cbn [foldl length].
  replace (4 * S (length rest))%nat with (S (S (S (S (4 * length rest))))) by lia.
  cbn [replicate].
  replace (Z.to_nat (Z.of_nat (length sent) + 0)) with (length sent + 0)%nat by lia.
  replace (Z.to_nat (Z.of_nat (length sent) + 1)) with (length sent + 1)%nat by lia.
  replace (Z.to_nat (Z.of_nat (length sent) + 2)) with (length sent + 2)%nat by lia.
  replace (Z.to_nat (Z.of_nat (length sent) + 3)) with (length sent + 3)%nat by lia.
  rewrite !insert_app_r. cbn [insert list_insert].
  pose proof (IH (sent ++ source_definition_bytes did)) as Hrest.
  rewrite length_app, <- app_assoc in Hrest.
  unfold source_definition_bytes in Hrest at 1 2. cbn [length app] in Hrest.
  replace (Z.of_nat (length sent + 4)) with (Z.of_nat (length sent) + 4) in Hrest
    by lia.
  rewrite Hrest, bind_cons, <- app_assoc. f_equal.
  cbn [source_definition_bytes length]. lia.
Qed.

(** X7: the request of [dynamically_define_data_identifier] is 0x2C, the
    sub-function, the two bytes of the identifier and four bytes for every
    source definition in turn: the source identifier in two bytes, high byte
    first, the position and the size.  When the identifier, the sub-function
    or the definitions are [None] the client returns [None] and sends
    nothing. *)
Theorem dynamically_define_data_identifier_layout {W} (env : Env W)
    (fuel : nat) (self : Z) (identifier sub_function : Z)
    (sub_function_arg : list DynamicallyDefinedIdentifierArg) (st : State W) :
  dynamically_define_data_identifier_request identifier sub_function sub_function_arg
  = [0x2C; sub_function] ++ big_endian 2 identifier
    ++ (sub_function_arg ≫= source_definition_bytes)
  ∧ dynamically_define_data_identifier env fuel self None (Some sub_function)
      (Some sub_function_arg) st = (Ok None, st)
  ∧ dynamically_define_data_identifier env fuel self (Some identifier) None
      (Some sub_function_arg) st = (Ok None, st)
  ∧ dynamically_define_data_identifier env fuel self (Some identifier)
      (Some sub_function) None st = (Ok None, st).
Proof.
  split; [|done].
  unfold dynamically_define_data_identifier_request,
    DYNAMICALLY_DEFINE_DATA_IDENTIFIER, len.
  replace (Z.to_nat (1 + 1 + 2 + Z.of_nat (length sub_function_arg) * 4))
    with (4 + 4 * length sub_function_arg)%nat by lia.
  rewrite replicate_add. cbn [replicate app insert list_insert].
  pose proof (dynamically_define_loop sub_function_arg
                ([0x2C; sub_function] ++ big_endian 2 identifier)) as Hloop.
  rewrite big_endian_2 in Hloop. cbn [app length] in Hloop.
  change (Z.of_nat 4) with 4 in Hloop. rewrite Hloop.
  by rewrite big_endian_2.
Qed.

Lemma read_data_by_periodic_identifier_loop (identifier sent : list Z) (k : nat) :
  (k ≤ length identifier)%nat → length sent = 2%nat →
  foldl (λ request i,
           <[Z.to_nat (2 + i) := default 0 (identifier !! Z.to_nat i)]> request)
        (sent ++ replicate (length identifier) 0) (range 0 (Z.of_nat k))
  = sent ++ take k identifier ++ replicate (length identifier - k) 0.
Proof.
  intros Hk Hsent. induction k as [|k IH].
  { cbn [range take app]. by rewrite Nat.sub_0_r. }
  rewrite range_0_snoc, foldl_snoc, IH by lia. clear IH.
  destruct (lookup_lt_is_Some_2 identifier k) as [x Hx]; [lia|].
  rewrite Nat2Z.id, Hx. cbn [default].
  replace (length identifier - k)%nat with (S (length identifier - S k)) by lia.
  cbn [replicate].
  replace (Z.to_nat (2 + Z.of_nat k)) with (length (sent ++ take k identifier) + 0)%nat
    by (rewrite length_app, length_take; lia).
  rewrite (app_assoc sent), insert_app_r. cbn [insert list_insert].
  rewrite (take_S_r _ _ _ Hx), <- !app_assoc. done.
Qed.

(** X8: [read_data_by_periodic_identifier] sends 0x2A, the transmission
    mode and the identifiers as they are.  For an empty list of identifiers
    it returns [None] and sends nothing (where [read_data_by_identifier]
    returns the empty list), and so it does when an argument is [None]. *)
Theorem read_data_by_periodic_identifier_layout {W} (env : Env W) (fuel : nat)
    (self : Z) (transmission_mode : Z) (identifier : list Z) (st : State W) :
  read_data_by_periodic_identifier_request transmission_mode identifier
  = [0x2A; transmission_mode] ++ identifier
  ∧ read_data_by_periodic_identifier env fuel self (Some transmission_mode)
      (Some []) st = (Ok None, st)
  ∧ read_data_by_periodic_identifier env fuel self None (Some identifier) st
    = (Ok None, st)
  ∧ read_data_by_periodic_identifier env fuel self (Some transmission_mode) None st
    = (Ok None, st).
Proof.
  split; [|done].
  unfold read_data_by_periodic_identifier_request,
    READ_DATA_BY_PERIODIC_IDENTIFIER, len.
  replace (Z.to_nat (2 + Z.of_nat (length identifier)))
    with (2 + length identifier)%nat by lia.
  rewrite replicate_add. cbn [replicate app insert list_insert].
  pose proof (read_data_by_periodic_identifier_loop identifier
                [0x2A; transmission_mode] (length identifier) (Nat.le_refl _)
                eq_refl) as Hloop.
  cbn [app] in Hloop. rewrite Hloop, take_ge, Nat.sub_diag, app_nil_r by done.
  done.
Qed.

Lemma foldl_snoc_app {A} (l k : list A) :
  foldl (λ request b, request ++ [b]) l k = l ++ k.
Proof.
  revert l. induction k as [|b k IH]; intros l; cbn; [by rewrite app_nil_r|].
  by rewrite IH, <- app_assoc.
Qed.

(** X9: the two security access services put the same bytes on the wire.
    [security_access_send_key] sends 0x27, the level and the key;
    [security_access_request_seed] with a data record is the same call, and
    without a record, or with an empty one, it is the call with an empty key:
    only the level tells a seed request from a key. *)
Theorem security_access_requests_coincide {W} (env : Env W) (fuel : nat)
    (self : Z) (level : Z) (data_record : list Z) :
  security_access_send_key env fuel self level data_record
  = (send_request env ([0x27; level] ++ data_record);;
     receive_response env fuel self)
  ∧ security_access_request_seed env fuel self level (Some data_record)
    = security_access_send_key env fuel self level data_record
  ∧ security_access_request_seed env fuel self level None
    = security_access_send_key env fuel self level [].
Proof.
  unfold security_access_send_key, security_access_request_seed.
  rewrite !foldl_snoc_app. split; [done|]. split; [|done].
  destruct data_record; [done|]. by rewrite foldl_snoc_app.
Qed.

(** X10: [write_data_by_identifier] and [input_output_control_by_identifier]
    send the same request but for the service id, 0x2E or 0x2F: the service
    id, two bytes that spell the identifier, high byte first, and the data.
    For an identifier of 16 bits the two bytes give the identifier back. *)
Theorem identifier_requests_layout {W} (env : Env W) (fuel : nat) (self : Z)
    (identifier : Z) (data : list Z) :
  0 ≤ identifier ≤ 0xFFFF →
  ∃ hi lo,
    0 ≤ hi ≤ 0xFF ∧ 0 ≤ lo ≤ 0xFF ∧ hi * 256 + lo = identifier
    ∧ write_data_by_identifier env fuel self identifier data
      = (send_request env ([0x2E; hi; lo] ++ data);;
         receive_response env fuel self)
    ∧ input_output_control_by_identifier env fuel self identifier data
      = (send_request env ([0x2F; hi; lo] ++ data);;
         receive_response env fuel self).
Proof.
  intros Hid.
  exists (Z.land (identifier ≫ 8) 0xFF), (Z.land identifier 0xFF).
  pose proof (big_endian_bytes 2 identifier) as Hbytes.
  rewrite big_endian_2 in Hbytes.
  apply Forall_cons in Hbytes as [Hhi Hlo]. apply Forall_cons in Hlo as [Hlo _].
  split; [exact Hhi|]. split; [exact Hlo|]. split; [by apply big_endian_2_id|].
  done.
Qed.

Lemma identifier_requests_layout_witness :
  ∃ hi lo,
    0 ≤ hi ≤ 0xFF ∧ 0 ≤ lo ≤ 0xFF ∧ hi * 256 + lo = 0xF190
    ∧ write_data_by_identifier (mock_env 1 no_ecu (λ _, [])) 10 P3_CLIENT 0xF190 [1; 2]
      = (send_request (mock_env 1 no_ecu (λ _, [])) ([0x2E; hi; lo] ++ [1; 2]);;
         receive_response (mock_env 1 no_ecu (λ _, [])) 10 P3_CLIENT)
    ∧ input_output_control_by_identifier (mock_env 1 no_ecu (λ _, [])) 10
        P3_CLIENT 0xF190 [1; 2]
      = (send_request (mock_env 1 no_ecu (λ _, [])) ([0x2F; hi; lo] ++ [1; 2]);;
         receive_response (mock_env 1 no_ecu (λ _, [])) 10 P3_CLIENT).
Proof. apply identifier_requests_layout. lia. Defined.

(** ** Waiting for a response *)

Section Receive.
Context {W : Type} (env : Env W).
Implicit Types st : State W.

Lemma receive_response_loop_spec (fuel : nat) (wait_window start_time : Z) st :
  wp (receive_response_loop env fuel wait_window start_time)
     (λ response st', ∃ absorbed,
        Forall absorbed_pending absorbed
        ∧ ((trace st' = trace st ++ (EvIndication ∘ Some <$> absorbed)
                                 ++ [EvIndication response]
            ∧ ∀ r, response = Some r → ¬ absorbed_pending r)
           ∨ (response = None
              ∧ trace st' = trace st ++ (EvIndication ∘ Some <$> absorbed)))) st.
Proof.
  revert st. induction fuel as [|fuel IH]; intros st; [apply wp_out_of_fuel|].
  cbn [receive_response_loop]. apply wp_bind, wp_reading. intros t w _.
  destruct (t - start_time >? wait_window).
  { apply wp_ret. exists []. split; [constructor|]. right. cbn.
    by rewrite app_nil_r. }
  apply wp_bind, wp_perform. intros [r|] w' _.
  2:{ apply wp_ret. exists []. split; [constructor|]. left. by cbn. }
  destruct (_ && _) eqn:E.
  - eapply wp_mono; [|apply IH]. cbn [trace].
    intros response st' (absorbed & Habs & Hcases).
    apply andb_prop in E as [E E2]. apply andb_prop in E as [E0 E1].
    apply Z.gtb_lt in E0. apply bool_decide_eq_true in E1, E2.
    exists (r :: absorbed). split; [by constructor|].
    cbn [fmap list_fmap app compose].
    destruct Hcases as [[Htr Hresp]|[-> Htr]]; [left|right];
      rewrite Htr, <- !app_assoc; done.
  - apply wp_ret. exists []. split; [constructor|]. left. split; [done|].
    intros r' [= <-] (Hlen & H0 & H2).
    rewrite !andb_false_iff, !bool_decide_eq_false in E.
    unfold Constants.NR_SI,
      NegativeResponseCodes.REQUEST_CORRECTLY_RECEIVED_RESPONSE_PENDING in E.
    destruct E as [[E|E]|E]; [lia|done|done].
Qed.

(** X11: what [receive_response] does with the transport.  It raises
    nothing.  It asks the transport for messages and drops them as long as
    they are pending responses of more than three bytes; it returns the first
    message that is not one, or [None] when the transport delivers nothing,
    or [None] when the window is over before it asks again.  Nothing else
    happens on the bus. *)
Theorem receive_response_trace (fuel : nat) (wait_window : Z) st :
  (∀ e st', receive_response env fuel wait_window st ≠ (Raise e, st'))
  ∧ ∀ response st',
      receive_response env fuel wait_window st = (Ok response, st') →
      ∃ absorbed,
        Forall absorbed_pending absorbed
        ∧ ((trace st' = trace st ++ (EvIndication ∘ Some <$> absorbed)
                                 ++ [EvIndication response]
            ∧ ∀ r, response = Some r → ¬ absorbed_pending r)
           ∨ (response = None
              ∧ trace st' = trace st ++ (EvIndication ∘ Some <$> absorbed))).
Proof.
  assert (wp (receive_response env fuel wait_window)
            (λ response st', ∃ absorbed,
               Forall absorbed_pending absorbed
               ∧ ((trace st' = trace st ++ (EvIndication ∘ Some <$> absorbed)
                                        ++ [EvIndication response]
                   ∧ ∀ r, response = Some r → ¬ absorbed_pending r)
                  ∨ (response = None
                     ∧ trace st' = trace st ++ (EvIndication ∘ Some <$> absorbed))))
            st) as Hwp.
  { unfold receive_response. apply wp_bind, wp_reading. intros t w _.
    eapply wp_mono; [|apply receive_response_loop_spec]. done. }
  split.
  - intros e st'. by eapply wp_not_Raise.
  - intros response st' Hrun. by eapply wp_Ok in Hwp.
Qed.

Lemma receive_response_loop_returns (now : W → Z) (fuel : nat)
    (wait_window start_time : Z) st :
  advancing_cpu_clock env now →
  (Z.to_nat (wait_window + start_time + 1 - now (world st)) < fuel)%nat →
  returns (receive_response_loop env fuel wait_window start_time) (λ _ _, True) st.
Proof.
  intros Hclock. revert st. induction fuel as [|fuel IH]; intros st Hfuel; [lia|].
  cbn [receive_response_loop]. apply returns_bind, returns_reading.
  intros t w Hread.
  pose proof (clock_advances _ _ Hclock (world st)) as Ht.
  rewrite Hread in Ht. cbn [fst snd] in Ht.
  destruct (t - start_time >? wait_window) eqn:Hover; [by apply returns_ret|].
  rewrite Z.gtb_ltb in Hover. apply Z.ltb_ge in Hover.
  apply returns_bind, returns_perform. intros response w' Hind.
  pose proof (indication_keeps_time _ _ Hclock wait_window w) as Hw'.
  cbn [world] in Hind. rewrite Hind in Hw'. cbn [snd] in Hw'.
  destruct response as [r|]; [|by apply returns_ret].
  destruct (_ && _); [|by apply returns_ret].
  apply IH. cbn [world]. lia.
Qed.

(** X12: with a processor clock that moves, [receive_response] comes back
    within its window however many pending responses arrive: a loop budget
    above the window in milliseconds is enough, so the deadline is not
    pushed back by a pending response. *)
Theorem receive_response_returns (now : W → Z) (fuel : nat) (wait_window : Z) st :
  advancing_cpu_clock env now →
  (Z.to_nat wait_window < fuel)%nat →
  ∃ response st', receive_response env fuel wait_window st = (Ok response, st').
Proof.
  intros Hclock Hfuel.
  assert (returns (receive_response env fuel wait_window) (λ _ _, True) st) as Hret.
  { unfold receive_response. apply returns_bind, returns_reading.
    intros start_time w Hread.
    pose proof (clock_advances _ _ Hclock (world st)) as Ht.
    rewrite Hread in Ht. cbn [fst snd] in Ht.
    apply (receive_response_loop_returns now); [done|]. cbn [world]. lia. }
  destruct (returns_Ok _ _ _ Hret) as (response & st' & Hrun & _). eauto.
Qed.

End Receive.

Lemma mock_cpu_clock_advances (tick : Z) (ecu : Z → list (Z * CanMessage))
    (server : list Z → list (list Z)) :
  0 < tick → advancing_cpu_clock (mock_env tick ecu server) mock_now.
Proof.
  intros Htick. split.
  - intros w. cbn. lia.
  - intros wait_window w. cbn. by destruct (mock_inbox w).
Qed.

Lemma receive_response_returns_witness :
  let env := mock_env 1 no_ecu always_pending in
  let st := (send_request env [0x10; 0x03] mock_start).2 in
  (∃ response st', receive_response env 6 5 st = (Ok response, st'))
  ∧ (receive_response env 6 5 st).1 = Ok None.
Proof.
  intros env st. split; [|vm_compute; reflexivity].
  apply (receive_response_returns env mock_now);
    [by apply mock_cpu_clock_advances|lia].
Defined.

Lemma receive_response_trace_witness :
  let env := mock_env 1 no_ecu always_pending in
  let st := (send_request env [0x10; 0x03] mock_start).2 in
  let response : option (list Z) := None in
  ∃ absorbed,
    Forall absorbed_pending absorbed
    ∧ ((trace (receive_response env 6 5 st).2
        = trace st ++ (EvIndication ∘ Some <$> absorbed) ++ [EvIndication response]
        ∧ ∀ r, response = Some r → ¬ absorbed_pending r)
       ∨ (response = None
          ∧ trace (receive_response env 6 5 st).2
            = trace st ++ (EvIndication ∘ Some <$> absorbed))).
Proof.
  intros env st response.
  apply (proj2 (receive_response_trace env 6 5 st) response
           (receive_response env 6 5 st).2).
  vm_compute. reflexivity.
Defined.

(** ** Commands that send one request *)

Section OneRequest.
Context {W : Type} (env : Env W).
Implicit Types st : State W.

Lemma ensures_of_wp {A} (m : M W A) (Q : A → State W → Prop) st :
  wp m Q st → ensures m Q st.
Proof. unfold wp, ensures. by destruct (m st) as [[a| |] st']. Qed.

Lemma ensures_ret {A} (a : A) (Q : A → State W → Prop) st :
  Q a st → ensures (mret a) Q st.
Proof. done. Qed.

Lemma ensures_bind {A B} (m : M W A) (f : A → M W B) (Q : B → State W → Prop) st :
  ensures m (λ a st', ensures (f a) Q st') st → ensures (m ≫= f) Q st.
Proof.
  unfold ensures, mbind, M_bind. destruct (m st) as [[a| |] st']; done.
Qed.

Lemma ensures_mono {A} (m : M W A) (Q Q' : A → State W → Prop) st :
  (∀ a st', Q a st' → Q' a st') → ensures m Q st → ensures m Q' st.
Proof.
  unfold ensures. intros HQ. destruct (m st) as [[a| |] st']; auto.
Qed.

Lemma ensures_Ok {A} (m : M W A) (Q : A → State W → Prop) st a st' :
  ensures m Q st → m st = (Ok a, st') → Q a st'.
Proof. unfold ensures. intros H Hm. by rewrite Hm in H. Qed.

Lemma ensures_with_IsoTp {A} (arb_id_request arb_id_response : option Z)
    (body : M W A) (Q : A → State W → Prop) st :
  ensures body
     (λ a st', Q a {| world := isotp_exit env (world st');
                      trace := trace st' ++ [EvExit] |})
     {| world := isotp_enter env arb_id_request arb_id_response (world st);
        trace := trace st ++ [EvEnter arb_id_request arb_id_response] |} →
  ensures (with_IsoTp env arb_id_request arb_id_response body) Q st.
Proof.
  unfold ensures, with_IsoTp. by destruct (body _) as [[a| |] st'].
Qed.

(** What the transport is asked for while the client waits: the last
    answer is the response. *)
Lemma receive_response_asks (fuel : nat) (wait_window : Z) st :
  wp (receive_response env fuel wait_window)
     (λ response st', ∃ answers : list (option (list Z)),
        trace st' = trace st ++ (EvIndication <$> answers)
        ∧ ∀ r, response = Some r → last answers = Some (Some r)) st.
Proof.
  unfold receive_response. apply wp_bind, wp_reading. intros t w _.
  eapply wp_mono; [|apply receive_response_loop_spec]. cbn [trace].
  intros response st' (absorbed & _ & [[Htr _]|[-> Htr]]).
  - exists ((Some <$> absorbed) ++ [response]).
    rewrite Htr, fmap_app, <- list_fmap_compose. split; [done|].
    intros r ->. by rewrite last_snoc.
  - exists (Some <$> absorbed). by rewrite Htr, <- list_fmap_compose.
Qed.

(** A service of the client: one request, then the wait. *)
Lemma one_request_spec (fuel : nat) (self : Z) (request : list Z) st :
  wp (send_request env request;; receive_response env fuel self)
     (λ response st', ∃ answers : list (option (list Z)),
        trace st' = trace st ++ [EvSendRequest request] ++ (EvIndication <$> answers)
        ∧ ∀ r, response = Some r → last answers = Some (Some r)) st.
Proof.
  apply wp_bind, wp_perform. intros [] w _.
  eapply wp_mono; [|apply receive_response_asks]. cbn [trace].
  intros response st' (answers & Htr & Hlast). exists answers.
  by rewrite Htr, <- app_assoc.
Qed.

(** A command: the transport is opened, the filter is set, one request is
    sent, the transport is closed. *)
Lemma command_spec (fuel : nat) (self : Z) (request : list Z)
    (arb_id_request arb_id_response : Z) st :
  wp (with_IsoTp env (Some arb_id_request) (Some arb_id_response)
        (set_filter_single_arbitration_id env arb_id_response;;
         (send_request env request;; receive_response env fuel self)))
     (λ response st', ∃ answers : list (option (list Z)),
        trace st'
        = trace st ++ [EvEnter (Some arb_id_request) (Some arb_id_response);
                       EvSetFilter arb_id_response; EvSendRequest request]
                   ++ (EvIndication <$> answers) ++ [EvExit]
        ∧ ∀ r, response = Some r → last answers = Some (Some r)) st.
Proof.
  apply wp_with_IsoTp, wp_bind, wp_perform. intros [] w _.
  eapply wp_mono; [|apply one_request_spec]. cbn [trace].
  intros response st' (answers & Htr & Hlast). exists answers.
  rewrite Htr, <- !app_assoc. done.
Qed.

(** X13: the command [ecu_reset] raises [ValueError] exactly when the reset
    type is not a byte or the timeout is a negative float (a negative
    integer passes), and then nothing has happened on the bus.  Otherwise it
    raises nothing; it opens the transport, sets the filter to the response
    id, sends the one request [0x11, reset_type], waits, and closes the
    transport. *)
Theorem ecu_reset_command (fuel : nat) (arb_id_request arb_id_response : Z)
    (reset_type : Z) (timeout : option Timeout) st :
  let run := Uds.ecu_reset env fuel arb_id_request arb_id_response reset_type
               timeout st in
  let rejected := ¬ 0 ≤ reset_type ≤ 0xFF ∨ negative_float timeout = true in
  ((∃ msg args, run.1 = Raise (ValueError msg args)) ↔ rejected)
  ∧ (rejected → run.2 = st)
  ∧ (¬ rejected → ∀ e, run.1 ≠ Raise e)
  ∧ ∀ response,
      run.1 = Ok response →
      ∃ answers : list (option (list Z)),
        trace run.2
        = trace st ++ [EvEnter (Some arb_id_request) (Some arb_id_response);
                       EvSetFilter arb_id_response;
                       EvSendRequest [0x11; reset_type]]
                   ++ (EvIndication <$> answers) ++ [EvExit]
        ∧ ∀ r, response = Some r → last answers = Some (Some r).
Proof.
  intros run rejected. unfold Uds.ecu_reset, BYTE_MIN, BYTE_MAX in run.
  destruct ((0 <=? reset_type) && (reset_type <=? 255)) eqn:Hbyte.
  2:{ assert (rejected) as Hrej.
      { left. apply andb_false_iff in Hbyte. lia. }
      cbn in run. subst run. cbn [fst snd].
      split; [split; [done|eauto]|]. repeat split; try done. }
  destruct (negative_float timeout) eqn:Hneg.
  { assert (rejected) as Hrej by (by right).
    cbn in run. subst run. cbn [fst snd].
    split; [split; [done|eauto]|]. repeat split; try done. }
  assert (¬ rejected) as Hok.
  { apply andb_prop in Hbyte. intros [H|H]; [lia|done]. }
  cbn [negb] in run.
  pose proof (command_spec fuel (client_window timeout) [0x11; reset_type]
                arb_id_request arb_id_response st) as Hspec.
  unfold wp in Hspec. change (with_IsoTp _ _ _ _ st) with run in Hspec.
  destruct run as [[response| |] st'] eqn:Hrun; cbn [fst snd].
  - split; [split; [by intros (? & ? & ?)|done]|].
    split; [done|]. split; [done|]. by intros ? [= <-].
  - done.
  - split; [split; [by intros (? & ? & ?)|done]|].
    split; [done|]. split; [done|]. done.
Qed.

(** X14: a request seed level that the command [request_seed] accepts is
    followed by a send key level that the command [send_key] accepts: when
    [request_seed] does not reject [level], [send_key] with [level + 1] and
    the same timeout raises nothing. *)
Theorem send_key_accepts_next_level (fuel : nat)
    (arb_id_request arb_id_response : Z) (level : Z)
    (data_record : option (list Z)) (timeout : option Timeout) st :
  (∀ msg args,
     (Uds.request_seed env fuel arb_id_request arb_id_response level data_record
        timeout st).1 ≠ Raise (ValueError msg args)) →
  ∀ fuel' key st' e,
    (Uds.send_key env fuel' arb_id_request arb_id_response (level + 1) key
       timeout st').1 ≠ Raise e.
Proof.
  intros Haccepted fuel' key st' e.
  unfold Uds.request_seed in Haccepted.
  destruct (is_valid_request_seed_level level) eqn:Hseed;
    [|exfalso; eapply Haccepted; reflexivity].
  destruct (negative_float timeout) eqn:Hneg;
    [exfalso; eapply Haccepted; reflexivity|].
  clear Haccepted.
  assert (is_valid_send_key_level (level + 1) = true) as Hkey.
  { revert Hseed.
    unfold is_valid_request_seed_level, is_valid_send_key_level,
      REQUEST_SEED_MIN, REQUEST_SEED_MAX, SEND_KEY_MIN, SEND_KEY_MAX.
    rewrite !land_0x7F_mod. intros H.
    apply andb_prop in H as [Hint Hodd]. apply andb_prop in Hint as [Hlo Hhi].
    assert ((level + 1) `mod` 128 = level `mod` 128 + 1) as ->.
    { rewrite Z.add_mod by lia. rewrite (Z.mod_small 1) by lia.
      apply Z.mod_small. lia. }
    assert ((level `mod` 128 + 1) `mod` 2 = 0) as ->.
    { rewrite Z.add_mod by lia. apply Z.eqb_eq in Hodd. by rewrite Hodd. }
    apply andb_true_intro. split; [|done].
    apply andb_true_intro. split; lia. }
  unfold Uds.send_key. rewrite Hkey, Hneg. cbn [negb].
  unfold security_access_send_key. rewrite foldl_snoc_app.
  pose proof (command_spec fuel' (client_window timeout)
                ([ServiceID.SECURITY_ACCESS; level + 1] ++ key)
                arb_id_request arb_id_response st') as Hspec.
  unfold wp in Hspec. cbn zeta.
  destruct (with_IsoTp _ _ _ _ st') as [[response| |] st'']; done.
Qed.

(** X15: the command [diag_session_control] raises [ValueError] exactly for
    the session types that [is_valid_session] rejects, before anything
    happens on the bus, and whether it does is the same with and without the
    bit 0x80; otherwise it raises nothing.  [extended_session] asks for the
    valid session 0x03, so it never raises. *)
Theorem diag_session_control_command (fuel : nat)
    (arb_id_request arb_id_response : Z) (session_type : Z) st :
  let run := Uds.diag_session_control env fuel arb_id_request arb_id_response
               session_type st in
  let run80 := Uds.diag_session_control env fuel arb_id_request arb_id_response
                 (Z.lor session_type 0x80) st in
  ((∃ e, run.1 = Raise e) ↔ is_valid_session session_type = false)
  ∧ (is_valid_session session_type = false → run.2 = st)
  ∧ ((∃ e, run.1 = Raise e) ↔ (∃ e, run80.1 = Raise e))
  ∧ ∀ e, (Uds.extended_session env fuel arb_id_request arb_id_response st).1
         ≠ Raise e.
Proof.
  assert (∀ session_type,
            let run := Uds.diag_session_control env fuel arb_id_request
                         arb_id_response session_type st in
            ((∃ e, run.1 = Raise e) ↔ is_valid_session session_type = false)
            ∧ (is_valid_session session_type = false → run.2 = st)) as Hone.
  { intros s run. unfold Uds.diag_session_control in run.
    destruct (is_valid_session s) eqn:Hvalid.
    - cbn [negb] in run. unfold diagnostic_session_control in run.
      cbn zeta in run. cbn [replicate insert list_insert] in run.
      pose proof (command_spec fuel P3_CLIENT
                    [ServiceID.DIAGNOSTIC_SESSION_CONTROL; s]
                    arb_id_request arb_id_response st) as Hspec.
      unfold wp in Hspec. change (with_IsoTp _ _ _ _ st) with run in Hspec.
      destruct run as [[response| |] st']; cbn [fst]; [|done|].
      all: split; [split; [by intros [? ?]|done]|done].
    - cbn in run. subst run. cbn [fst snd]. split; [split; eauto|done]. }
  intros run run80.
  destruct (Hone session_type) as [Hraise Hstate].
  destruct (Hone (Z.lor session_type 0x80)) as [Hraise80 _].
  split; [done|]. split; [done|]. split.
  - fold run80 in Hraise80. fold run in Hraise. rewrite Hraise, Hraise80.
    unfold is_valid_session. by rewrite land_0x7F_lor_0x80.
  - intros e Hrun. unfold Uds.extended_session in Hrun.
    destruct (Hone EXTENDED_DIAGNOSTIC_SESSION) as [Hext _].
    pose proof (proj1 Hext (ex_intro _ e Hrun)) as Hinvalid.
    vm_compute in Hinvalid. done.
Qed.

End OneRequest.

Lemma send_key_accepts_next_level_witness :
  (Uds.send_key (mock_env 1 no_ecu (λ _, [])) 10 0x7E0 0x7E8 (0x01 + 1)
     [0xCA; 0xFE] (Some (IntTimeout (-1))) mock_start).1
  ≠ Raise (ValueError "Invalid send key level" []).
Proof.
  apply (send_key_accepts_next_level (mock_env 1 no_ecu (λ _, [])) 10
           0x7E0 0x7E8 0x01 None (Some (IntTimeout (-1))) mock_start).
  intros msg args. vm_compute. discriminate.
Defined.

(** ** Service discovery *)

Section ServiceDiscovery.
Context {W : Type} (env : Env W).
Implicit Types st : State W.

(** One probe: the request, the frame read from the bus, and the service
    that the frame reports. *)
Lemma probe_service_run (timeout : Z) (found_services : list Z) (service_id : Z) st :
  ∃ answer st',
    Uds.probe_service env timeout found_services service_id st
    = (Ok (found_services ++ option_list (answer ≫= supported_service)), st')
    ∧ trace st' = trace st ++ [EvSendRequest [service_id]; EvRecv answer].
Proof.
  unfold Uds.probe_service, send_request, recv, perform, mbind at 1 2, M_bind.
  cbn [world trace].
  destruct (env_recv env timeout _) as [answer w] eqn:Hrecv.
  exists answer. destruct answer as [msg|].
  2:{ eexists. split; [by rewrite app_nil_r|]. cbn [trace].
      by rewrite <- app_assoc. }
  cbn [mbind option_bind]. unfold supported_service.
  destruct (len (data msg) >? 3) eqn:Hlen.
  2:{ eexists. split; [by rewrite app_nil_r|]. cbn [trace].
      by rewrite <- app_assoc. }
  apply Z.gtb_lt in Hlen. unfold len in Hlen.
  destruct (data msg) as [|b0 [|b1 [|b2 [|b3 rest]]]]; cbn [length] in Hlen;
    try lia.
  unfold getitem, mbind, M_bind. cbn [lookup list_lookup mret M_ret].
  destruct (negb _); eexists; (split; [by rewrite ?app_nil_r|]); cbn [trace];
    by rewrite <- app_assoc.
Qed.

Lemma probe_services_run (timeout : Z) (service_ids found_services : list Z) st :
  ∃ answers st',
    for_each (Uds.probe_service env timeout) service_ids found_services st
    = (Ok (found_services ++ omap (λ answer, answer ≫= supported_service) answers),
       st')
    ∧ length answers = length service_ids
    ∧ trace st' = trace st ++ probes service_ids answers.
Proof.
  revert found_services st.
  induction service_ids as [|service_id service_ids IH]; intros found st.
  { exists [], st. cbn. by rewrite !app_nil_r. }
  destruct (probe_service_run timeout found service_id st)
    as (answer & st1 & Hrun1 & Htr1).
  destruct (IH (found ++ option_list (answer ≫= supported_service)) st1)
    as (answers & st' & Hrun & Hlen & Htr).
  exists (answer :: answers), st'. split; [|split].
  - cbn [for_each]. unfold mbind at 1, M_bind. rewrite Hrun1, Hrun.
    do 2 f_equal. rewrite <- app_assoc. f_equal. cbn [omap list_omap].
    by destruct (answer ≫= supported_service).
  - cbn [length]. by rewrite Hlen.
  - rewrite Htr, Htr1, <- app_assoc. done.
Qed.

(** X16: [service_discovery] always comes back and raises nothing.  It opens
    the transport, sets the filter to the response id, and for every service
    id from [min_id] to [max_id], in ascending order, sends the one-byte
    request and reads one frame from the bus; then it closes the transport.
    The services it returns are read off the frames and not off the requests:
    for every frame of more than three bytes whose fourth byte is not 0x11
    (service not supported), its third byte, in the order of arrival. *)
Theorem service_discovery_run (arb_id_request arb_id_response timeout : Z)
    (min_id max_id : Z) st :
  ∃ (answers : list (option CanMessage)) st',
    Uds.service_discovery env arb_id_request arb_id_response timeout min_id max_id st
    = (Ok (omap (λ answer, answer ≫= supported_service) answers), st')
    ∧ length answers = length (range min_id (max_id + 1))
    ∧ trace st'
      = trace st ++ [EvEnter (Some arb_id_request) (Some arb_id_response);
                     EvSetFilter arb_id_response]
                 ++ probes (range min_id (max_id + 1)) answers ++ [EvExit].
Proof.
  unfold Uds.service_discovery, with_IsoTp, set_filter_single_arbitration_id,
    perform, mbind at 1, M_bind. cbn [world trace].
  destruct (probe_services_run timeout (range min_id (max_id + 1)) []
              {| world := env_set_filter env arb_id_response
                            (isotp_enter env (Some arb_id_request)
                               (Some arb_id_response) (world st));
                 trace := (trace st ++ [EvEnter (Some arb_id_request)
                                          (Some arb_id_response)])
                          ++ [EvSetFilter arb_id_response] |})
    as (answers & st' & Hrun & Hlen & Htr).
  exists answers. eexists. rewrite Hrun. split; [done|]. split; [done|].
  cbn [trace] in *. rewrite Htr, <- !app_assoc. done.
Qed.

End ServiceDiscovery.

(** ** The scan of the session types *)

Lemma answered_app_l (request r : list Z) (evs0 evs : list Event) :
  answered request r evs → answered request r (evs0 ++ evs).
Proof.
  intros (pre & answers & post & -> & Hlast).
  exists (evs0 ++ pre), answers, post. by rewrite <- app_assoc.
Qed.

Lemma answered_app_r (request r : list Z) (evs evs1 : list Event) :
  answered request r evs → answered request r (evs ++ evs1).
Proof.
  intros (pre & answers & post & -> & Hlast).
  exists pre, answers, (post ++ evs1). by rewrite <- !app_assoc.
Qed.

Section SessionScan.
Context {W : Type} (env : Env W) (env_sleep : Z → W → W).
Implicit Types st : State W.

Lemma ensures_sleep (ms : Z) (Q : unit → State W → Prop) st :
  (∀ w, Q () {| world := w; trace := trace st |}) →
  ensures (Uds.sleep env_sleep ms) Q st.
Proof. intros HQ. unfold ensures, Uds.sleep. destruct (ms <? 0); [done|apply HQ]. Qed.

(** One request for a session, and what came back. *)
Lemma diagnostic_session_control_spec (fuel : nat) (uds : Z) (session_type : Z) st :
  ensures (diagnostic_session_control env fuel uds session_type)
     (λ response st', ∃ evs,
        trace st' = trace st ++ evs
        ∧ ∀ r, response = Some r → answered [0x10; session_type] r evs) st.
Proof.
  apply ensures_of_wp.
  eapply wp_mono; [|apply (one_request_spec env fuel uds [0x10; session_type] st)].
  intros response st' (answers & Htr & Hlast). eexists. split; [done|].
  intros r Hr. exists [], answers, []. split; [by rewrite app_nil_r|auto].
Qed.

Lemma scan_session_spec (fuel : nat) (uds : Z) (found_sub_funcs : list Z)
    (subfunc_id : Z) st :
  ensures (Uds.scan_session env env_sleep fuel uds found_sub_funcs subfunc_id)
     (λ found st', ∃ evs,
        trace st' = trace st ++ evs
        ∧ (found = found_sub_funcs
           ∨ (found = found_sub_funcs ++ [subfunc_id]
              ∧ ∃ r, answered [0x10; subfunc_id] r evs ∧ session_reply_counts r)))
     st.
Proof.
  unfold Uds.scan_session.
  apply ensures_bind.
  eapply ensures_mono; [|apply diagnostic_session_control_spec].
  intros response1 st1 (evs1 & Htr1 & Hans1).
  apply ensures_bind.
  apply (ensures_mono _
           (λ response st2, ∃ evs,
              trace st2 = trace st ++ evs
              ∧ ∀ r, response = Some r → answered [0x10; subfunc_id] r evs)).
  2:{ destruct response1 as [r1|].
      - apply ensures_ret. eauto.
      - apply ensures_bind, ensures_sleep. intros w.
        eapply ensures_mono; [|apply diagnostic_session_control_spec].
        cbn [trace]. intros response2 st2 (evs2 & Htr2 & Hans2).
        exists (evs1 ++ evs2). rewrite Htr2, Htr1, <- app_assoc.
        split; [done|]. intros r Hr. by apply answered_app_l, Hans2. }
  clear dependent response1 st1 evs1.
  intros response st2 (evs & Htr & Hans).
  destruct (is_positive_response response) eqn:Hpos.
  - destruct response as [r|]; [|done]. change (default [] (Some r)) with r.
    unfold is_positive_response in Hpos. apply andb_prop in Hpos as [Hlen Hnr].
    destruct r as [|b0 r]; [done|].
    unfold getitem. cbn [lookup list_lookup]. apply ensures_bind, ensures_ret.
    apply negb_true_iff, bool_decide_eq_false in Hnr.
    unfold Constants.NR_SI in Hnr. cbn in Hnr.
    case_bool_decide as Hvalid; [|apply ensures_ret; eauto].
    assert (session_reply_counts (b0 :: r)) as Hcounts.
    { left. cbn.
      unfold Services.DiagnosticSessionControl.valid_responses in Hvalid.
      apply elem_of_cons in Hvalid as [->|Hvalid]; [done|].
      apply list_elem_of_singleton in Hvalid. by subst. }
    destruct (subfunc_id =? _).
    2:{ apply ensures_ret. exists evs. split; [done|]. right. eauto. }
    apply ensures_bind, ensures_sleep. intros w.
    apply ensures_bind.
    eapply ensures_mono; [|apply diagnostic_session_control_spec].
    cbn [trace]. intros response3 st3 (evs3 & Htr3 & _).
    apply ensures_bind, ensures_sleep. intros w'. apply ensures_ret.
    cbn [trace]. exists (evs ++ evs3). rewrite Htr3, Htr, <- app_assoc.
    split; [done|]. right. split; [done|].
    exists (b0 :: r). split; [|done]. by apply answered_app_r, Hans.
  - destruct response as [r|]; [|apply ensures_ret; eauto].
    assert (r !! 0%nat = Some 0x7F ∨ r = []) as Hfirst.
    { unfold is_positive_response in Hpos. destruct r as [|b0 r]; [by right|].
      assert ((len (b0 :: r) >? 0) = true) as Hlen
        by (apply Z.gtb_lt; unfold len; cbn [length]; lia).
      rewrite Hlen in Hpos. cbn [andb] in Hpos.
      apply negb_false_iff, bool_decide_eq_true in Hpos. by left. }
    clear Hpos. unfold getitem.
    destruct (r !! 1%nat) as [echoed|] eqn:H1; [|done].
    apply ensures_bind, ensures_ret.
    destruct (echoed =? ServiceID.DIAGNOSTIC_SESSION_CONTROL) eqn:Hechoed;
      [|apply ensures_ret; eauto].
    destruct (r !! 2%nat) as [nrc|] eqn:H2; [|done].
    apply ensures_bind, ensures_ret.
    destruct (negb _) eqn:Hnrc; apply ensures_ret; [|eauto].
    exists evs. split; [done|]. right. split; [done|].
    exists r. split; [by apply Hans|]. right.
    apply Z.eqb_eq in Hechoed. subst echoed.
    apply negb_true_iff, Z.eqb_neq in Hnrc.
    destruct Hfirst as [Hfirst| ->]; [|done].
    split; [done|]. split; [done|]. by exists nrc.
Qed.

Lemma scan_sessions_spec (fuel : nat) (uds : Z) (subfunc_ids : list Z)
    (found_sub_funcs : list Z) st :
  ensures (for_each (Uds.scan_session env env_sleep fuel uds) subfunc_ids
             found_sub_funcs)
     (λ found st', ∃ evs added,
        trace st' = trace st ++ evs
        ∧ found = found_sub_funcs ++ added
        ∧ sublist added subfunc_ids
        ∧ ∀ s, s ∈ added →
            ∃ r, answered [0x10; s] r evs ∧ session_reply_counts r) st.
Proof.
  revert found_sub_funcs st.
  induction subfunc_ids as [|s ids IH]; intros found st.
  { apply ensures_ret. exists [], []. rewrite !app_nil_r.
    repeat split; [constructor|]. by intros ? ?%elem_of_nil. }
  cbn [for_each]. apply ensures_bind.
  eapply ensures_mono; [|apply scan_session_spec].
  intros found1 st1 (evs1 & Htr1 & Hfound1).
  eapply ensures_mono; [|apply IH].
  intros found' st' (evs & added & Htr & -> & Hsub & Hadded).
  exists (evs1 ++ evs). rewrite Htr, Htr1, <- app_assoc.
  destruct Hfound1 as [->|[-> (r & Hans & Hcounts)]].
  - exists added. repeat split; [by apply sublist_cons|].
    intros s' Hs'. destruct (Hadded s' Hs') as (r & Hans & Hcounts).
    exists r. split; [by apply answered_app_l|done].
  - exists (s :: added). rewrite <- app_assoc. repeat split; [by apply sublist_skip|].
    intros s' [->|Hs']%elem_of_cons.
    + exists r. split; [by apply answered_app_r|done].
    + destruct (Hadded s' Hs') as (r' & Hans' & Hcounts').
      exists r'. split; [by apply answered_app_l|done].
Qed.

(** X17: what [scan_session_control] returns.  The sub-functions it found
    are among 0x00 to 0x7F, in ascending order and each once; and for each
    of them the request [0x10, sub-function] was sent during the scan and the
    wait for its response ended with a response that starts with 0x50, or
    with a negative response to service 0x10 whose code is not 0x12. *)
Theorem scan_session_control_found (fuel : nat)
    (arb_id_request arb_id_response : Z) (timeout : option Z) st
    (found : list Z) st' :
  Uds.scan_session_control env env_sleep fuel arb_id_request arb_id_response
    timeout st = (Ok found, st') →
  sublist found (range 0 0x80)
  ∧ ∃ evs, trace st' = trace st ++ evs
           ∧ ∀ s, s ∈ found →
               ∃ r, answered [0x10; s] r evs ∧ session_reply_counts r.
Proof.
  intros Hrun.
  assert (ensures (Uds.scan_session_control env env_sleep fuel arb_id_request
                     arb_id_response timeout)
            (λ found st', sublist found (range 0 0x80)
               ∧ ∃ evs, trace st' = trace st ++ evs
                        ∧ ∀ s, s ∈ found →
                            ∃ r, answered [0x10; s] r evs ∧ session_reply_counts r)
            st) as Hspec; [|by eapply ensures_Ok in Hspec].
  unfold Uds.scan_session_control.
  apply ensures_with_IsoTp, ensures_bind.
  unfold set_filter_single_arbitration_id, perform. cbn [world trace].
  unfold ensures at 1. cbn zeta.
  eapply ensures_mono; [|apply scan_sessions_spec].
  cbn [trace]. intros found' st1 (evs & added & Htr & -> & Hsub & Hadded).
  cbn [app]. split; [done|].
  eexists. rewrite Htr, <- !app_assoc. split; [done|].
  intros s Hs. destruct (Hadded s Hs) as (r & Hans & Hcounts).
  exists r. split; [|done]. do 2 apply (answered_app_l _ _ [_]).
  by apply answered_app_r.
Qed.

End SessionScan.

Lemma scan_session_control_found_witness :
  let env := mock_env 1 no_ecu pending_then_positive in
  let st' := (Uds.scan_session_control env (λ _ w, w) 10 0x7E0 0x7E8 None
                mock_start).2 in
  sublist [3; 4] (range 0 0x80)
  ∧ ∃ evs, trace st' = trace mock_start ++ evs
           ∧ ∀ s, s ∈ [3; 4] →
               ∃ r, answered [0x10; s] r evs ∧ session_reply_counts r.
Proof.
  intros env st'.
  apply (scan_session_control_found env (λ _ w, w) 10 0x7E0 0x7E8 None mock_start).
  vm_compute. reflexivity.
Defined.

(** ** Scan ranges *)

Lemma elem_of_range (x start stop : Z) : x ∈ range start stop ↔ start ≤ x < stop.
Proof.
  unfold range. rewrite list_elem_of_fmap. split.
  - intros (i & -> & Hi%elem_of_seq). lia.
  - intros Hx. exists (Z.to_nat (x - start)). split; [lia|].
    apply elem_of_seq. lia.
Qed.

Lemma Forall_range (P : Z → Prop) (start stop : Z) :
  (∀ x, start ≤ x < stop → P x) → Forall P (range start stop).
Proof. intros HP. apply Forall_forall. intros x Hx%elem_of_range. auto. Qed.

Local Opaque range.

Lemma custom_bounds_cases (lo hi : Z) :
  (hi < lo ∧ custom_bounds (Some lo) (Some hi)
             = inl (ValueError "Can't have MIN > MAX" []))
  ∨ (lo ≤ hi ∧ custom_bounds (Some lo) (Some hi)
               = inr (Z.max lo 0, Z.min hi 0xFFFF)).
Proof.
  unfold custom_bounds. destruct (lo >? hi) eqn:Hgt.
  - left. split; [lia|done].
  - right. split; [lia|].
    destruct (lo <? 0) eqn:Hlo, (hi >? 0xffff) eqn:Hhi; f_equal; f_equal; lia.
Qed.

(** X18: the identifiers that the scans of data identifiers and of routines
    go through.  Whatever the flags and the bounds, every identifier is in
    [0, 0xFFFF]: custom bounds outside of it are clamped.  With both bounds
    given and [min_id > max_id] both ranges are refused with a [ValueError];
    with [min_id <= max_id] and no flag the range is the clamped custom
    range, and with neither flags nor bounds it is all of [0, 0xFFFF]. *)
Theorem scan_ranges_within_16_bits (is_oem is_supplier is_safety : bool) :
  (∀ min_id max_id ids,
     (make_did_range is_oem is_supplier is_safety min_id max_id).2 = inr ids
     ∨ routine_id_range is_oem is_supplier min_id max_id = inr ids →
     Forall (λ id, 0 ≤ id ≤ 0xFFFF) ids)
  ∧ (∀ lo hi, hi < lo →
       (make_did_range is_oem is_supplier is_safety (Some lo) (Some hi)).2
       = inl (ValueError "Can't have MIN > MAX" [])
       ∧ routine_id_range is_oem is_supplier (Some lo) (Some hi)
         = inl (ValueError "Can't have MIN > MAX" []))
  ∧ (∀ lo hi, lo ≤ hi →
       (make_did_range false false is_safety (Some lo) (Some hi)).2
       = inr ((if is_safety
               then range 0xF000 (0xFEFF + 1) ++ range 0xFA19 (0xFAFF + 1)
               else [])
              ++ range (Z.max lo 0) (Z.min hi 0xFFFF + 1))
       ∧ routine_id_range false false (Some lo) (Some hi)
         = inr (range (Z.max lo 0) (Z.min hi 0xFFFF + 1)))
  ∧ (make_did_range false false is_safety None None).2 = inr (range 0 (0xFFFF + 1))
  ∧ routine_id_range false false None None = inr (range 0 (0xFFFF + 1)).
Proof.
  split; [|split; [|split; [|by destruct is_safety]]].
  - intros min_id max_id ids Hids.
    assert (∀ start stop, 0 ≤ start → stop ≤ 0xFFFF + 1 →
              Forall (λ id, 0 ≤ id ≤ 0xFFFF) (range start stop)) as Hrange.
    { intros start stop Hstart Hstop. apply Forall_range. lia. }
    assert (∀ lo hi, Forall (λ id, 0 ≤ id ≤ 0xFFFF)
                       (range (Z.max lo 0) (Z.min hi 0xFFFF + 1))) as Hcustom.
    { intros lo hi. apply Hrange; lia. }
    destruct Hids as [Hids|Hids]; revert Hids.
    + unfold make_did_range.
      destruct min_id as [lo|], max_id as [hi|];
        cbn [bool_decide decide_rel orb negb andb];
        try (destruct is_oem, is_supplier, is_safety; cbn [negb andb fst snd];
             by intros [=]).
      * rewrite !bool_decide_eq_true_2 by done. cbn [orb].
        destruct (custom_bounds_cases lo hi) as [[_ ->]|[_ ->]];
          destruct is_oem, is_supplier, is_safety; cbn [snd]; intros [= <-];
          rewrite ?Forall_app; repeat split; auto; apply Hrange; lia.
      * rewrite !bool_decide_eq_false_2 by (by intros ?). cbn [orb].
        destruct is_oem, is_supplier, is_safety; cbn [negb andb snd];
          intros [= <-]; rewrite ?Forall_app; repeat split;
          try apply Forall_nil_2; apply Hrange; lia.
    + unfold routine_id_range.
      destruct min_id as [lo|], max_id as [hi|];
        try (destruct is_oem, is_supplier; by intros [=]).
      * rewrite !bool_decide_eq_true_2 by done. cbn [orb].
        destruct (custom_bounds_cases lo hi) as [[_ ->]|[_ ->]];
          destruct is_oem, is_supplier; intros [= <-];
          rewrite ?Forall_app; repeat split; auto; apply Hrange; lia.
      * rewrite !bool_decide_eq_false_2 by (by intros ?). cbn [orb].
        destruct is_oem, is_supplier; cbn [negb andb];
          intros [= <-]; rewrite ?Forall_app; repeat split;
          try apply Forall_nil_2; apply Hrange; lia.
  - intros lo hi Hlt. unfold make_did_range, routine_id_range.
    rewrite !bool_decide_eq_true_2 by done. cbn [orb].
    destruct (custom_bounds_cases lo hi) as [[_ ->]|[? _]]; [|lia].
    by destruct is_oem, is_supplier, is_safety.
  - intros lo hi Hle. unfold make_did_range, routine_id_range.
    rewrite !bool_decide_eq_true_2 by done. cbn [orb].
    destruct (custom_bounds_cases lo hi) as [[? _]|[_ ->]]; [lia|].
    by destruct is_safety.
Qed.

Local Transparent range.

(** ** The scan of the routines *)

Section RoutineScan.
Context {W : Type} (env : Env W).
Implicit Types st : State W.

Lemma routine_control_spec (fuel : nat) (uds : Z) (routine_id : Z) st :
  ensures (routine_control env fuel uds 0x0 routine_id [1; 1; 1; 1; 1; 1; 1; 1; 1; 1])
     (λ response st', ∃ evs,
        trace st' = trace st ++ evs
        ∧ ∀ r, response = Some r →
            answered (routine_probe_request routine_id) r evs) st.
Proof.
  apply ensures_of_wp.
  eapply wp_mono;
    [|apply (one_request_spec env fuel uds (routine_probe_request routine_id) st)].
  intros response st' (answers & Htr & Hlast). eexists. split; [done|].
  intros r Hr. exists [], answers, []. split; [by rewrite app_nil_r|auto].
Qed.

Lemma probe_routine_spec (fuel : nat) (uds : Z) (routine_id : Z) st :
  ensures (probe_routine env fuel uds routine_id)
     (λ response st', ∃ evs,
        trace st' = trace st ++ evs
        ∧ ∀ r, response = Some r →
            answered (routine_probe_request routine_id) r evs) st.
Proof.
  unfold probe_routine. apply ensures_bind.
  eapply ensures_mono; [|apply routine_control_spec].
  intros response1 st1 (evs1 & Htr1 & Hans1).
  destruct response1 as [r1|]; [apply ensures_ret; eauto|].
  eapply ensures_mono; [|apply routine_control_spec].
  intros response2 st2 (evs2 & Htr2 & Hans2).
  exists (evs1 ++ evs2). rewrite Htr2, Htr1, <- app_assoc. split; [done|].
  intros r Hr. by apply answered_app_l, Hans2.
Qed.

Lemma record_routine_spec (routine_id : Z) (response : option (list Z))
    (routine_map : list (Z * string)) st :
  ensures (record_routine routine_id response routine_map)
     (λ routine_map' st',
        st' = st
        ∧ (routine_map' = routine_map
           ∨ ∃ r entry, response = Some r
               ∧ routine_reply_records routine_id r entry
               ∧ routine_map' = routine_map ++ [entry])) st.
Proof.
  unfold record_routine.
  destruct (is_positive_response response) eqn:Hpos.
  - destruct response as [r|]; [|done]. change (default [] (Some r)) with r.
    unfold is_positive_response in Hpos. apply andb_prop in Hpos as [_ Hnr].
    apply negb_true_iff, bool_decide_eq_false in Hnr.
    unfold Constants.NR_SI in Hnr. unfold getitem.
    destruct (r !! 2%nat) as [hi|] eqn:H2; [|done].
    apply ensures_bind, ensures_ret.
    destruct (r !! 3%nat) as [lo|] eqn:H3; [|done].
    apply ensures_bind, ensures_ret. apply ensures_ret. split; [done|]. right.
    exists r, (Z.lor (hi ≪ 8) lo, "?? Success ?? how"). split; [done|].
    split; [|done]. right. right.
    destruct r as [|b0 r]; [done|]. exists b0, hi, lo.
    repeat split; [|done|done]. intros ->. by apply Hnr.
  - destruct response as [r|]; [|apply ensures_ret; auto].
    assert (r !! 0%nat = Some 0x7F ∨ r = []) as Hfirst.
    { unfold is_positive_response in Hpos. destruct r as [|b0 r]; [by right|].
      assert ((len (b0 :: r) >? 0) = true) as Hlen
        by (apply Z.gtb_lt; unfold len; cbn [length]; lia).
      rewrite Hlen in Hpos. cbn [andb] in Hpos.
      apply negb_false_iff, bool_decide_eq_true in Hpos. by left. }
    clear Hpos. unfold getitem.
    destruct (r !! 1%nat) as [echoed|] eqn:H1; [|done].
    apply ensures_bind, ensures_ret.
    destruct (echoed =? ServiceID.ROUTINE_CONTROL) eqn:Hechoed;
      [|apply ensures_ret; auto].
    apply Z.eqb_eq in Hechoed. subst echoed.
    destruct Hfirst as [Hfirst| ->]; [|done].
    destruct (r !! 2%nat) as [nrc|] eqn:H2; [|done].
    apply ensures_bind, ensures_ret.
    destruct (nrc =? NegativeResponseCodes.REQUEST_OUT_OF_RANGE);
      [apply ensures_ret; auto|].
    destruct (nrc =? NegativeResponseCodes.SUB_FUNCTION_NOT_SUPPORTED) eqn:H12.
    { apply Z.eqb_eq in H12. subst nrc. apply ensures_ret. split; [done|]. right.
      exists r, (routine_id, "SUPPORTED_NO_SECURITY"). split; [done|].
      split; [|done]. by left. }
    destruct (nrc =? NegativeResponseCodes.SECURITY_ACCESS_DENIED) eqn:H33;
      [|apply ensures_ret; auto].
    apply Z.eqb_eq in H33. subst nrc. apply ensures_ret. split; [done|]. right.
    exists r, (routine_id, "SUPPORTED_SECURITY_ACCESS_DENIED"). split; [done|].
    split; [|done]. right. by left.
Qed.

Lemma scan_routines_spec (fuel : nat) (uds : Z) (routine_ids : list Z)
    (routine_map : list (Z * string)) st :
  ensures (for_each (scan_routine env fuel uds) routine_ids routine_map)
     (λ routine_map' st', ∃ evs probed_ids entries,
        trace st' = trace st ++ evs
        ∧ routine_map' = routine_map ++ entries
        ∧ sublist probed_ids routine_ids
        ∧ Forall2 (λ routine_id entry,
                     ∃ r, answered (routine_probe_request routine_id) r evs
                          ∧ routine_reply_records routine_id r entry)
            probed_ids entries) st.
Proof.
  revert routine_map st.
  induction routine_ids as [|rid ids IH]; intros routine_map st.
  { apply ensures_ret. exists [], [], []. rewrite !app_nil_r.
    repeat split; constructor. }
  cbn [for_each]. apply ensures_bind. unfold scan_routine at 1.
  apply ensures_bind.
  eapply ensures_mono; [|apply probe_routine_spec].
  intros response st1 (evs1 & Htr1 & Hans1).
  eapply ensures_mono; [|apply record_routine_spec].
  intros routine_map1 st1' [-> Hmap1].
  eapply ensures_mono; [|apply IH].
  intros routine_map' st' (evs & probed_ids & entries & Htr & -> & Hsub & Hall).
  exists (evs1 ++ evs). rewrite Htr, Htr1, <- app_assoc.
  assert (Forall2 (λ routine_id entry,
                     ∃ r, answered (routine_probe_request routine_id) r (evs1 ++ evs)
                          ∧ routine_reply_records routine_id r entry)
            probed_ids entries) as Hall'.
  { eapply Forall2_impl; [exact Hall|]. intros rid' entry (r & Hans & Hrec).
    exists r. split; [by apply answered_app_l|done]. }
  destruct Hmap1 as [->|(r & entry & -> & Hrec & ->)].
  - exists probed_ids, entries. repeat split; [by apply sublist_cons|done].
  - exists (rid :: probed_ids), (entry :: entries). rewrite <- app_assoc.
    repeat split; [by apply sublist_skip|].
    constructor; [|done]. exists r. split; [|done]. by apply answered_app_r, Hans1.
Qed.

(** X19: what [scan_routine_control] returns.  The entries of the map
    belong, in order, to routine ids of the scanned range taken in
    ascending position, one entry per id at most; for each entry the probe of
    its id, 0x31 0x00 and the id in two bytes followed by ten bytes 0x01, was
    sent during the scan, and the wait for the response ended with a
    response that gives the entry: 0x7F 0x31 0x12 the id as
    SUPPORTED_NO_SECURITY, 0x7F 0x31 0x33 the id as
    SUPPORTED_SECURITY_ACCESS_DENIED, a response that does not start with
    0x7F the identifier in its third and fourth byte. *)
Theorem scan_routine_control_map (fuel : nat) (arb_id_request arb_id_response : Z)
    (timeout : option Z) (is_oem is_supplier : bool) (min_id max_id : option Z)
    st (routine_map : list (Z * string)) st' :
  scan_routine_control env fuel arb_id_request arb_id_response timeout is_oem
    is_supplier min_id max_id st = (Ok routine_map, st') →
  ∃ routine_ids evs probed_ids,
    routine_id_range is_oem is_supplier min_id max_id = inr routine_ids
    ∧ trace st' = trace st ++ evs
    ∧ sublist probed_ids routine_ids
    ∧ Forall2 (λ routine_id entry,
                 ∃ r, answered (routine_probe_request routine_id) r evs
                      ∧ routine_reply_records routine_id r entry)
        probed_ids routine_map.
Proof.
  unfold scan_routine_control.
  destruct (routine_id_range is_oem is_supplier min_id max_id)
    as [e|routine_ids]; [done|].
  intros Hrun. exists routine_ids.
  assert (ensures
            (with_IsoTp env (Some arb_id_request) (Some arb_id_response)
               (set_filter_single_arbitration_id env arb_id_response;;
                for_each (scan_routine env fuel
                            match timeout with Some t => t | None => P3_CLIENT end)
                  routine_ids []))
            (λ routine_map st', ∃ evs probed_ids,
               trace st' = trace st ++ evs
               ∧ sublist probed_ids routine_ids
               ∧ Forall2 (λ routine_id entry,
                            ∃ r, answered (routine_probe_request routine_id) r evs
                                 ∧ routine_reply_records routine_id r entry)
                   probed_ids routine_map) st) as Hspec.
  2:{ eapply ensures_Ok in Hspec; [|exact Hrun].
      destruct Hspec as (evs & probed_ids & H). eauto. }
  apply ensures_with_IsoTp, ensures_bind.
  unfold set_filter_single_arbitration_id, perform. cbn [world trace].
  unfold ensures at 1. cbn zeta.
  eapply ensures_mono; [|apply scan_routines_spec].
  cbn [trace]. intros routine_map' st1 (evs & probed_ids & entries & Htr & -> & Hsub & Hall).
  cbn [app]. eexists. exists probed_ids. rewrite Htr, <- !app_assoc.
  split; [done|]. split; [done|].
  eapply Forall2_impl; [exact Hall|]. intros rid entry (r & Hans & Hrec).
  exists r. split; [|done]. do 2 apply (answered_app_l _ _ [_]).
  by apply answered_app_r.
Qed.

End RoutineScan.

Lemma scan_routine_control_map_witness :
  let env := mock_env 1000 no_ecu routine_server in
  let st' := (scan_routine_control env 10 0x7E0 0x7E8 None false false
                (Some 0x0203) (Some 0x0205) mock_start).2 in
  ∃ routine_ids evs probed_ids,
    routine_id_range false false (Some 0x0203) (Some 0x0205) = inr routine_ids
    ∧ trace st' = trace mock_start ++ evs
    ∧ sublist probed_ids routine_ids
    ∧ Forall2 (λ routine_id entry,
                 ∃ r, answered (routine_probe_request routine_id) r evs
                      ∧ routine_reply_records routine_id r entry)
        probed_ids [(0x0203, "SUPPORTED_NO_SECURITY");
                    (0x0204, "SUPPORTED_SECURITY_ACCESS_DENIED")].
Proof.
  intros env st'.
  apply (scan_routine_control_map env 10 0x7E0 0x7E8 None false false
           (Some 0x0203) (Some 0x0205) mock_start).
  vm_compute. reflexivity.
Defined.

(** ** The discovery scan without verification *)

Lemma attributed_app (blacklist : gset Z) (current : Z) (evs1 evs2 : list Event) :
  attributed blacklist current (evs1 ++ evs2)
  = attributed blacklist current evs1
    ++ attributed blacklist (default current (last (probed evs1))) evs2.
Proof.
  revert current. induction evs1 as [|ev evs1 IH]; intros current; [done|].
  destruct ev as [| | | |message arb_id|[m|]| | |]; cbn [app attributed]; try apply IH.
  - rewrite IH. unfold probed. cbn [omap list_omap]. fold (probed evs1).
    destruct (probed evs1) as [|p ps] eqn:Hp; [done|].
    by rewrite !last_cons; destruct (last ps).
  - destruct (_ && _); [cbn [app]; f_equal|]; apply IH.
Qed.

Lemma attributed_bounds (blacklist : gset Z) (lo hi current : Z) (evs : list Event) :
  lo ≤ current ≤ hi →
  Forall (λ arb_id, lo ≤ arb_id ≤ hi) (probed evs) →
  Forall (λ p, lo ≤ p.1 ≤ hi) (attributed blacklist current evs).
Proof.
  revert current. induction evs as [|ev evs IH]; intros current Hcurrent Hprobed;
    [constructor|].
  destruct ev as [| | | |message arb_id|[m|]| | |]; cbn [attributed]; try by apply IH.
  - unfold probed in Hprobed. cbn [omap list_omap] in Hprobed.
    apply Forall_cons in Hprobed as [Harb Hprobed]. by apply IH.
  - destruct (_ && _); [constructor; [done|]|]; by apply IH.
Qed.

Lemma attributed_clear (blacklist : gset Z) (current : Z) (evs : list Event) :
  responses_clear blacklist (attributed blacklist current evs).
Proof.
  revert current. induction evs as [|ev evs IH]; intros current; [constructor|].
  destruct ev as [| | | |message arb_id|[m|]| | |]; cbn [attributed]; try apply IH.
  destruct (bool_decide _) eqn:Hclear; cbn [andb]; [|apply IH].
  destruct (is_valid_response m); [|apply IH].
  constructor; [|apply IH]. by apply bool_decide_eq_true in Hclear.
Qed.

Section ScanWithoutVerification.
Context {W : Type} (env : Env W).
Implicit Types st : State W.

Lemma discovery_listen_without_verification (fuel : nat)
    (session_control_data : list Z) (delay : Z) (blacklist : gset Z)
    (end_time : Z) (send_arbitration_id : Z)
    (found_arbitration_ids : list (Z * Z)) st :
  wp (discovery_listen env fuel session_control_data delay false blacklist
        end_time send_arbitration_id found_arbitration_ids)
     (λ r st', ∃ evs,
        trace st' = trace st ++ evs
        ∧ Forall (scan_event session_control_data) evs
        ∧ probed evs = []
        ∧ r = (send_arbitration_id,
               found_arbitration_ids
                 ++ attributed blacklist send_arbitration_id evs)) st.
Proof.
  revert found_arbitration_ids st.
  induction fuel as [|fuel IH]; intros found st; [apply wp_out_of_fuel|].
  cbn [discovery_listen]. apply wp_bind, wp_reading. intros now w _.
  destruct (now <? end_time).
  2:{ apply wp_ret. exists []. rewrite !app_nil_r. by repeat split. }
  apply wp_bind, wp_perform. intros msg w' _. cbn [trace].
  assert (∀ found',
            found' = found ++ attributed blacklist send_arbitration_id [EvRecv msg] →
            wp (discovery_listen env fuel session_control_data delay false
                  blacklist end_time send_arbitration_id found')
               (λ r st', ∃ evs,
                  trace st' = trace st ++ evs
                  ∧ Forall (scan_event session_control_data) evs
                  ∧ probed evs = []
                  ∧ r = (send_arbitration_id,
                         found ++ attributed blacklist send_arbitration_id evs))
               {| world := w'; trace := trace st ++ [EvRecv msg] |}) as Hnext.
  { intros found' ->. eapply wp_mono; [|apply IH]. cbn [trace].
    intros r st' (evs & Htr & Hevs & Hprobed & ->).
    exists ([EvRecv msg] ++ evs). rewrite Htr, <- !app_assoc.
    split; [done|]. split; [by constructor|]. split; [done|].
    by rewrite attributed_app. }
  destruct msg as [msg|]; [|apply Hnext; cbn; by rewrite app_nil_r].
  cbn [attributed] in Hnext.
  destruct (decide (arbitration_id msg ∈ blacklist)) as [Hblack|Hblack].
  { rewrite bool_decide_eq_true_2 by done.
    apply Hnext. rewrite bool_decide_eq_false_2 by (by intros ?).
    cbn. by rewrite app_nil_r. }
  rewrite bool_decide_eq_false_2 by done.
  rewrite bool_decide_eq_true_2 in Hnext by done. cbn [andb] in Hnext.
  destruct (is_valid_response msg); [|apply Hnext; by rewrite app_nil_r].
  unfold on_valid_response. apply wp_bind, wp_ret. by apply Hnext.
Qed.

Lemma discovery_scan_without_verification (fuel : nat)
    (session_control_data : list Z) (delay : Z) (blacklist : gset Z) (max_id : Z)
    (send_arbitration_id : Z) (found_arbitration_ids : list (Z * Z)) st :
  wp (discovery_scan env fuel session_control_data delay false blacklist
        max_id send_arbitration_id found_arbitration_ids)
     (λ found st', ∃ evs,
        trace st' = trace st ++ evs
        ∧ Forall (scan_event session_control_data) evs
        ∧ probed evs = range (send_arbitration_id + 1) (max_id + 1)
        ∧ found = found_arbitration_ids
                    ++ attributed blacklist send_arbitration_id evs
        ∧ Forall (λ p, send_arbitration_id < p.1 ≤ max_id)
            (attributed blacklist send_arbitration_id evs)) st.
Proof.
  revert send_arbitration_id found_arbitration_ids st.
  induction fuel as [|fuel IH]; intros send_id found st; [apply wp_out_of_fuel|].
  cbn [discovery_scan].
  destruct (send_id <? max_id) eqn:Hlt.
  2:{ apply wp_ret. exists []. rewrite !app_nil_r.
      repeat split; [constructor| |constructor].
      apply Z.ltb_ge in Hlt. unfold range.
      by replace (Z.to_nat (max_id + 1 - (send_id + 1))) with 0%nat by lia. }
  apply Z.ltb_lt in Hlt.
  apply wp_bind, wp_perform. intros [] w _.
  apply wp_bind, wp_reading. intros now w' _. cbn [trace].
  apply wp_bind. eapply wp_mono; [|by apply discovery_listen_without_verification].
  cbn [trace]. intros r st1 (evs1 & Htr1 & Hevs1 & Hprobed1 & ->).
  eapply wp_mono; [|by apply IH].
  intros found' st' (evs2 & Htr2 & Hevs2 & Hprobed2 & -> & Hbounds2).
  exists ([EvTransmit session_control_data (send_id + 1)] ++ evs1 ++ evs2).
  rewrite Htr2, Htr1, <- !app_assoc. split; [done|]. split; [|split; [|split]].
  4:{ cbn [app attributed]. rewrite attributed_app, Hprobed1. cbn [last default].
      apply Forall_app. split.
      - eapply Forall_impl;
          [apply (attributed_bounds blacklist (send_id + 1) (send_id + 1));
             [lia|by rewrite Hprobed1]|].
        intros p Hp. cbn beta in Hp. lia.
      - eapply Forall_impl; [exact Hbounds2|]. intros p Hp. cbn beta in Hp. lia. }
  - apply Forall_app. split; [by repeat constructor|]. by apply Forall_app.
  - rewrite !probed_app, Hprobed1, Hprobed2. cbn [app].
    rewrite (range_cons (send_id + 1)) by lia. done.
  - cbn [app attributed]. rewrite attributed_app, Hprobed1.
    by rewrite <- ?app_assoc.
Qed.

Lemma discovery_listen_returns (now : W → Z) (fuel : nat)
    (session_control_data : list Z) (delay : Z) (blacklist : gset Z)
    (end_time : Z) (send_arbitration_id : Z)
    (found_arbitration_ids : list (Z * Z)) st :
  advancing_clock env now →
  (Z.to_nat (end_time - now (world st)) < fuel)%nat →
  returns (discovery_listen env fuel session_control_data delay false blacklist
             end_time send_arbitration_id found_arbitration_ids)
          (λ r _, r.1 = send_arbitration_id) st.
Proof.
  intros Hclock. revert found_arbitration_ids st.
  induction fuel as [|fuel IH]; intros found st Hfuel; [lia|].
  cbn [discovery_listen]. apply returns_bind, returns_reading.
  intros t w Hread.
  pose proof (time_advances _ _ Hclock (world st)) as Ht.
  rewrite Hread in Ht. cbn [fst snd] in Ht.
  destruct (t <? end_time) eqn:Hlt; [|by apply returns_ret].
  apply Z.ltb_lt in Hlt.
  apply returns_bind, returns_perform. intros msg w' Hrecv.
  pose proof (recv_keeps_time _ _ Hclock 0 w) as Hw'. cbn [world] in Hrecv.
  rewrite Hrecv in Hw'. cbn [snd] in Hw'.
  assert (∀ found',
            returns (discovery_listen env fuel session_control_data delay false
                       blacklist end_time send_arbitration_id found')
                    (λ r _, r.1 = send_arbitration_id)
                    {| world := w'; trace := trace st ++ [EvRecv msg] |})
    as Hrest by (intros found'; apply IH; cbn [world]; lia).
  destruct msg as [msg|]; [|done].
  destruct (bool_decide (arbitration_id msg ∈ blacklist)); [done|].
  destruct (is_valid_response msg); [|done].
  unfold on_valid_response. apply returns_bind, returns_ret. apply Hrest.
Qed.

Lemma discovery_scan_returns (now : W → Z) (fuel : nat)
    (session_control_data : list Z) (delay : Z) (blacklist : gset Z) (max_id : Z)
    (send_arbitration_id : Z) (found_arbitration_ids : list (Z * Z)) st :
  advancing_clock env now →
  (Z.to_nat delay + Z.to_nat (max_id - send_arbitration_id) + 1 < fuel)%nat →
  returns (discovery_scan env fuel session_control_data delay false blacklist
             max_id send_arbitration_id found_arbitration_ids)
          (λ _ _, True) st.
Proof.
  intros Hclock. revert send_arbitration_id found_arbitration_ids st.
  induction fuel as [|fuel IH]; intros send_id found st Hfuel; [lia|].
  cbn [discovery_scan].
  destruct (send_id <? max_id) eqn:Hlt; [|by apply returns_ret].
  apply Z.ltb_lt in Hlt.
  apply returns_bind, returns_perform. intros [] w _.
  apply returns_bind, returns_reading. intros t w' Hread. cbn [world] in Hread.
  pose proof (time_advances _ _ Hclock w) as Ht.
  rewrite Hread in Ht. cbn [fst snd] in Ht.
  apply returns_bind.
  eapply returns_mono;
    [|apply (discovery_listen_returns now); [done|cbn [world]; lia]].
  intros [send_id' found'] st1 Hsame. cbn [fst] in Hsame. subst send_id'.
  apply IH. lia.
Qed.

End ScanWithoutVerification.

Section DiscoveryWithoutVerification.
Context {W : Type} (env : Env W).
Variables ARBITRATION_ID_MIN ARBITRATION_ID_MAX ARBITRATION_ID_MAX_EXTENDED : Z.
Implicit Types st : State W.

(** X20: the scan without verification, read off the trace.  A run of
    [uds_discovery] with [verify = False] that returns has opened the
    transport, run [auto_blacklist] when the duration is positive and not at
    all otherwise, and then only transmitted the request [0x10, 0x01] and
    received; it has probed every arbitration id from [min_id] to [max_id]
    once, in ascending order.  The pairs it returns are, in the order of
    arrival, the valid-shape frames from ids outside the blacklist, each
    with the id probed last before it, so every request id is in
    [min_id, max_id]. *)
Theorem uds_discovery_without_verification (fuel : nat) (min_id max_id : option Z)
    (blacklist_args : option (list Z)) (auto_blacklist_duration : option Z)
    (delay : Z) st (found : list (Z * Z)) st' :
  uds_discovery env ARBITRATION_ID_MIN ARBITRATION_ID_MAX
    ARBITRATION_ID_MAX_EXTENDED fuel min_id max_id blacklist_args
    auto_blacklist_duration delay false st = (Ok found, st') →
  let min_id' := default_min_id ARBITRATION_ID_MIN min_id in
  let max_id' :=
    default_max_id ARBITRATION_ID_MIN ARBITRATION_ID_MAX
      ARBITRATION_ID_MAX_EXTENDED min_id max_id in
  let duration := default 0 auto_blacklist_duration in
  ∃ (auto_blacklist_arb_ids : gset Z) (evs : list Event),
    trace st'
    = trace st ++ [EvEnter None None]
               ++ (if duration >? 0
                   then [EvAutoBlacklist duration auto_blacklist_arb_ids] else [])
               ++ evs ++ [EvExit]
    ∧ (duration = 0 → auto_blacklist_arb_ids = ∅)
    ∧ Forall (scan_event [0x10; 0x01]) evs
    ∧ probed evs = range min_id' (max_id' + 1)
    ∧ found = attributed (list_to_set (default [] blacklist_args)
                            ∪ auto_blacklist_arb_ids) (min_id' - 1) evs
    ∧ Forall (λ p, min_id' ≤ p.1 ≤ max_id') found.
Proof.
  intros Hrun min_id' max_id' duration.
  assert (ensures
            (uds_discovery env ARBITRATION_ID_MIN ARBITRATION_ID_MAX
               ARBITRATION_ID_MAX_EXTENDED fuel min_id max_id blacklist_args
               auto_blacklist_duration delay false)
            (λ found st', ∃ (auto_blacklist_arb_ids : gset Z) (evs : list Event),
               trace st'
               = trace st ++ [EvEnter None None]
                   ++ (if duration >? 0
                       then [EvAutoBlacklist duration auto_blacklist_arb_ids]
                       else [])
                   ++ evs ++ [EvExit]
               ∧ (duration = 0 → auto_blacklist_arb_ids = ∅)
               ∧ Forall (scan_event [0x10; 0x01]) evs
               ∧ probed evs = range min_id' (max_id' + 1)
               ∧ found = attributed (list_to_set (default [] blacklist_args)
                                       ∪ auto_blacklist_arb_ids) (min_id' - 1) evs
               ∧ Forall (λ p, min_id' ≤ p.1 ≤ max_id') found)
            st) as Hspec.
  { unfold uds_discovery. fold min_id' max_id' duration.
    destruct (max_id' <? min_id'); [done|].
    destruct (duration <? 0) eqn:Hneg; [done|]. apply Z.ltb_ge in Hneg.
    apply ensures_of_wp, wp_with_IsoTp, wp_bind.
    destruct (duration >? 0) eqn:Hpos.
    - apply wp_bind, wp_perform. intros auto_blacklist_arb_ids w _. apply wp_ret.
      eapply wp_mono; [|apply discovery_scan_without_verification].
      cbn [trace]. intros found' st1 (evs & Htr & Hevs & Hprobed & -> & Hbounds).
      exists auto_blacklist_arb_ids, evs. rewrite Htr, <- !app_assoc.
      split; [done|]. split; [lia|]. split; [done|].
      split; [rewrite Hprobed; f_equal; lia|]. split; [done|].
      eapply Forall_impl; [exact Hbounds|]. intros p Hp. cbn beta in Hp. lia.
    - apply wp_ret.
      eapply wp_mono; [|apply discovery_scan_without_verification].
      cbn [trace]. intros found' st1 (evs & Htr & Hevs & Hprobed & -> & Hbounds).
      exists ∅, evs. rewrite Htr, <- !app_assoc.
      split; [done|]. split; [done|]. split; [done|].
      split; [rewrite Hprobed; f_equal; lia|].
      rewrite (right_id_L ∅ (∪)). split; [done|].
      eapply Forall_impl; [exact Hbounds|]. intros p Hp. cbn beta in Hp. lia. }
  eapply ensures_Ok in Hspec; [|exact Hrun].
  destruct Hspec
    as (auto_blacklist_arb_ids & evs & Htr & Hnone & Hevs & Hprobed & Hfound & Hbounds).
  by exists auto_blacklist_arb_ids, evs.
Qed.

End DiscoveryWithoutVerification.

Section DiscoveryRuns.
Context {W : Type} (env : Env W).
Variables ARBITRATION_ID_MIN ARBITRATION_ID_MAX ARBITRATION_ID_MAX_EXTENDED : Z.
Implicit Types st : State W.

Lemma returns_with_IsoTp {A} (arb_id_request arb_id_response : option Z)
    (body : M W A) (Q : A → State W → Prop) st :
  returns body
     (λ a st', Q a {| world := isotp_exit env (world st');
                      trace := trace st' ++ [EvExit] |})
     {| world := isotp_enter env arb_id_request arb_id_response (world st);
        trace := trace st ++ [EvEnter arb_id_request arb_id_response] |} →
  returns (with_IsoTp env arb_id_request arb_id_response body) Q st.
Proof.
  unfold returns, with_IsoTp. by destruct (body _) as [[a| |] st'].
Qed.

(** X21: with a clock that moves, the scan without verification ends.  For
    bounds in order and a duration that is not negative, [uds_discovery]
    with [verify = False] returns its findings: every listening window is
    over after [delay] readings of the clock at most, and the probed id
    grows with every window, so a loop budget above [delay] plus the number
    of ids is enough. *)
Theorem uds_discovery_without_verification_returns (now : W → Z) (fuel : nat)
    (min_id max_id : option Z) (blacklist_args : option (list Z))
    (auto_blacklist_duration : option Z) (delay : Z) st :
  advancing_clock env now →
  default_min_id ARBITRATION_ID_MIN min_id
  ≤ default_max_id ARBITRATION_ID_MIN ARBITRATION_ID_MAX
      ARBITRATION_ID_MAX_EXTENDED min_id max_id →
  0 ≤ default 0 auto_blacklist_duration →
  (Z.to_nat delay
   + Z.to_nat (default_max_id ARBITRATION_ID_MIN ARBITRATION_ID_MAX
                 ARBITRATION_ID_MAX_EXTENDED min_id max_id
               - default_min_id ARBITRATION_ID_MIN min_id + 1) + 1 < fuel)%nat →
  ∃ found st',
    uds_discovery env ARBITRATION_ID_MIN ARBITRATION_ID_MAX
      ARBITRATION_ID_MAX_EXTENDED fuel min_id max_id blacklist_args
      auto_blacklist_duration delay false st = (Ok found, st').
Proof.
  intros Hclock Hbounds Hduration Hfuel.
  assert (returns
            (uds_discovery env ARBITRATION_ID_MIN ARBITRATION_ID_MAX
               ARBITRATION_ID_MAX_EXTENDED fuel min_id max_id blacklist_args
               auto_blacklist_duration delay false) (λ _ _, True) st) as Hret.
  { unfold uds_discovery.
    rewrite (proj2 (Z.ltb_ge _ _)) by lia. rewrite (proj2 (Z.ltb_ge _ _)) by lia.
    apply returns_with_IsoTp, returns_bind.
    destruct (default 0 auto_blacklist_duration >? 0).
    - apply returns_bind, returns_perform. intros auto_blacklist_arb_ids w _.
      apply returns_ret.
      eapply returns_mono; [|apply (discovery_scan_returns env now); [done|lia]].
      done.
    - apply returns_ret.
      eapply returns_mono; [|apply (discovery_scan_returns env now); [done|lia]].
      done. }
  destruct (returns_Ok _ _ _ Hret) as (found & st' & Hrun & _). eauto.
Qed.

(** X22: the automatic blacklist, with and without verification.  A run of
    [uds_discovery] that returns has opened the transport and, for a
    positive duration, run [auto_blacklist] once before the first probe; for
    the duration 0 the first probe comes first.  No response id of a
    returned pair is among the ids that [auto_blacklist] gave, nor in the
    blacklist of the caller. *)
Theorem uds_discovery_auto_blacklist (fuel : nat) (min_id max_id : option Z)
    (blacklist_args : option (list Z)) (auto_blacklist_duration : option Z)
    (delay : Z) (verify : bool) st (found : list (Z * Z)) st' :
  uds_discovery env ARBITRATION_ID_MIN ARBITRATION_ID_MAX
    ARBITRATION_ID_MAX_EXTENDED fuel min_id max_id blacklist_args
    auto_blacklist_duration delay verify st = (Ok found, st') →
  let min_id' := default_min_id ARBITRATION_ID_MIN min_id in
  let duration := default 0 auto_blacklist_duration in
  ∃ (auto_blacklist_arb_ids : gset Z) (evs : list Event),
    trace st'
    = trace st ++ [EvEnter None None]
               ++ (if duration >? 0
                   then [EvAutoBlacklist duration auto_blacklist_arb_ids] else [])
               ++ [EvTransmit [0x10; 0x01] min_id'] ++ evs ++ [EvExit]
    ∧ (duration = 0 → auto_blacklist_arb_ids = ∅)
    ∧ ∀ request_id response_id,
        (request_id, response_id) ∈ found →
        (response_id ∉ auto_blacklist_arb_ids)
        ∧ (response_id ∉ default [] blacklist_args).
Proof.
  intros Hrun min_id' duration.
  assert (ensures
            (uds_discovery env ARBITRATION_ID_MIN ARBITRATION_ID_MAX
               ARBITRATION_ID_MAX_EXTENDED fuel min_id max_id blacklist_args
               auto_blacklist_duration delay verify)
            (λ found st', ∃ (auto_blacklist_arb_ids : gset Z) (evs : list Event),
               trace st'
               = trace st ++ [EvEnter None None]
                   ++ (if duration >? 0
                       then [EvAutoBlacklist duration auto_blacklist_arb_ids]
                       else [])
                   ++ [EvTransmit [0x10; 0x01] min_id'] ++ evs ++ [EvExit]
               ∧ (duration = 0 → auto_blacklist_arb_ids = ∅)
               ∧ responses_clear (list_to_set (default [] blacklist_args)
                                    ∪ auto_blacklist_arb_ids) found) st) as Hspec.
  { unfold uds_discovery.
    fold min_id' duration.
    destruct (_ <? min_id') eqn:Hinv; [done|]. apply Z.ltb_ge in Hinv.
    destruct (duration <? 0) eqn:Hneg; [done|]. apply Z.ltb_ge in Hneg.
    apply ensures_of_wp, wp_with_IsoTp, wp_bind.
    destruct (duration >? 0) eqn:Hpos.
    - apply wp_bind, wp_perform. intros auto_blacklist_arb_ids w _. apply wp_ret.
      eapply wp_mono; [|apply discovery_scan_spec].
      cbn [trace]. intros found' st1 [Hclear (evs & Htr & Hfirst)].
      destruct Hfirst as [evs' ->]; [lia|].
      exists auto_blacklist_arb_ids, evs'. rewrite Htr, <- !app_assoc.
      replace (min_id' - 1 + 1) with min_id' by lia.
      split; [done|]. split; [lia|]. apply Hclear, Forall_nil_2.
    - apply wp_ret.
      eapply wp_mono; [|apply discovery_scan_spec].
      cbn [trace]. intros found' st1 [Hclear (evs & Htr & Hfirst)].
      destruct Hfirst as [evs' ->]; [lia|].
      exists ∅, evs'. rewrite Htr, <- !app_assoc.
      replace (min_id' - 1 + 1) with min_id' by lia.
      split; [done|]. split; [done|]. rewrite (right_id_L ∅ (∪)).
      apply Hclear, Forall_nil_2. }
  eapply ensures_Ok in Hspec; [|exact Hrun].
  destruct Hspec as (auto_blacklist_arb_ids & evs & Htr & Hnone & Hclear).
  exists auto_blacklist_arb_ids, evs. split; [done|]. split; [done|].
  intros request_id response_id Hin.
  unfold responses_clear in Hclear. rewrite Forall_forall in Hclear.
  specialize (Hclear _ Hin). cbn [snd] in Hclear. set_solver.
Qed.

End DiscoveryRuns.

Lemma uds_discovery_without_verification_witness :
  let env := mock_env 1 (one_ecu 0x7E0 0x7E8 0) (λ _, []) in
  let st' := (uds_discovery env 0x000 0x7FF 0x1FFFFFFF 100 (Some 0x7DF)
                (Some 0x7E1) (Some [0x7E9]) None 10 false mock_start).2 in
  ∃ (auto_blacklist_arb_ids : gset Z) (evs : list Event),
    trace st'
    = trace mock_start ++ [EvEnter None None]
        ++ (if 0 >? 0 then [EvAutoBlacklist 0 auto_blacklist_arb_ids] else [])
        ++ evs ++ [EvExit]
    ∧ (0 = 0 → auto_blacklist_arb_ids = ∅)
    ∧ Forall (scan_event [0x10; 0x01]) evs
    ∧ probed evs = range 0x7DF (0x7E1 + 1)
    ∧ [(0x7E0, 0x7E8)]
      = attributed (list_to_set [0x7E9] ∪ auto_blacklist_arb_ids) (0x7DF - 1) evs
    ∧ Forall (λ p, 0x7DF ≤ p.1 ≤ 0x7E1) [(0x7E0, 0x7E8)].
Proof.
  intros env st'.
  apply (uds_discovery_without_verification env 0x000 0x7FF 0x1FFFFFFF 100
           (Some 0x7DF) (Some 0x7E1) (Some [0x7E9]) None 10 mock_start).
  vm_compute. reflexivity.
Defined.

Lemma uds_discovery_without_verification_returns_witness :
  ∃ found st',
    uds_discovery (mock_env 1 (one_ecu 0x7E0 0x7E8 0) (λ _, [])) 0x000 0x7FF
      0x1FFFFFFF 100 (Some 0x7DF) (Some 0x7E1) (Some [0x7E9]) None 10 false
      mock_start = (Ok found, st').
Proof.
  apply (uds_discovery_without_verification_returns
           (mock_env 1 (one_ecu 0x7E0 0x7E8 0) (λ _, [])) 0x000 0x7FF 0x1FFFFFFF
           mock_now).
  - by apply mock_clock_advances.
  - cbn. lia.
  - cbn. lia.
  - cbn. lia.
Defined.

Lemma uds_discovery_auto_blacklist_witness :
  let env := mock_env 1 (one_ecu 0x7E0 0x7E8 0) (λ _, []) in
  let st' := (uds_discovery env 0x000 0x7FF 0x1FFFFFFF 600 (Some 0x7E0)
                (Some 0x7E1) (Some [0x7E9]) (Some 5) 10 true mock_start).2 in
  ∃ (auto_blacklist_arb_ids : gset Z) (evs : list Event),
    trace st'
    = trace mock_start ++ [EvEnter None None]
        ++ (if 5 >? 0 then [EvAutoBlacklist 5 auto_blacklist_arb_ids] else [])
        ++ [EvTransmit [0x10; 0x01] 0x7E0] ++ evs ++ [EvExit]
    ∧ (5 = 0 → auto_blacklist_arb_ids = ∅)
    ∧ ∀ request_id response_id,
        (request_id, response_id) ∈ [(0x7E0, 0x7E8)] →
        (response_id ∉ auto_blacklist_arb_ids) ∧ (response_id ∉ [0x7E9]).
Proof.
  intros env st'.
  apply (uds_discovery_auto_blacklist env 0x000 0x7FF 0x1FFFFFFF 600
           (Some 0x7E0) (Some 0x7E1) (Some [0x7E9]) (Some 5) 10 true mock_start).
  vm_compute. reflexivity.
Defined.

(** ** Tester present *)

Section TesterPresent.
Context {W : Type} (env : Env W) (env_sleep : Z → W → W).
Implicit Types st : State W.





End TesterPresent.



(** A negative delay: one request, then [time.sleep] raises. *)
Lemma tester_present_negative_delay :
  Uds.tester_present (mock_env 1 no_ecu (λ _, [])) mock_sleep 31 0x7E0 (-1000)
    (Some 0) false mock_start
  = (Raise (ValueError "sleep length must be non-negative" []),
     {| world := {| mock_now := 1; mock_filter := None; mock_bus := [];
                    mock_inbox := [] |};
        trace := [EvEnter (Some 0x7E0) None; EvSendRequest [0x3E; 0x00]; EvExit] |}).
Proof. vm_compute. reflexivity. Qed.

(** ** The scan with verification *)



Section Verification.
Context {W : Type} (env : Env W).
Implicit Types st : State W.







End Verification.

Section DiscoveryWithVerification.
Context {W : Type} (env : Env W).
Variables ARBITRATION_ID_MIN ARBITRATION_ID_MAX ARBITRATION_ID_MAX_EXTENDED : Z.
Implicit Types st : State W.


End DiscoveryWithVerification.


